(** * Flowbit invoice memory agent: recall, apply, decide, learn

    A shallow embedding of the engine in [src/engine] (recall.ts, apply.ts,
    decide.ts, learn.ts, index.ts) and of the SQLite-backed repository in
    [src/memory/memoryRepository.ts], followed by the properties of the
    four-stage pipeline.

    Modelling conventions.
    - A JavaScript [number] is a rational ([Q]).  Every finite double is a
      rational and the comparisons of the engine are the comparisons of [Q];
      the literals 0.7, 0.75, 0.8, 0.95, 0.05 and 1.19 stand for the decimal
      fractions they denote and sums are exact.  NaN and the infinities are
      not values of the model.
    - A JavaScript string is a [string] of bytes (UTF-8).  [toLowerCase] and
      [toUpperCase] change the ASCII letters only.
    - [Memory.content] is JSON text in the source.  The model keeps the JSON
      value behind it: either an object read through the optional fields of
      [Partial<LearnedMemoryContent>], or text that [JSON.parse] rejects.
      [JSON.stringify] followed by [JSON.parse] is the identity on such
      objects, and a key whose value is [undefined] is dropped.
    - Objects reached through more than one reference (the line items of an
      invoice) live in a heap and are named by their location. *)

From Stdlib Require Import QArith Qminmax Qround Qabs Lqa ZArith Lia.
From Stdlib Require Import String Ascii List Bool Permutation Sorted.
From stdpp Require Import gmap strings list fin_maps pretty.

Local Open Scope Q_scope.
Local Open Scope string_scope.

(** ** JavaScript primitives *)

Module Js.

(** [a >= b] and [a < b] on numbers. *)
Definition geq (a b : Q) : bool := Qle_bool b a.
Definition lt (a b : Q) : bool := negb (Qle_bool b a).

Definition lowerAscii (c : ascii) : ascii :=
  let n := nat_of_ascii c in
  if (65 <=? n)%nat && (n <=? 90)%nat then ascii_of_nat (n + 32) else c.

Definition upperAscii (c : ascii) : ascii :=
  let n := nat_of_ascii c in
  if (97 <=? n)%nat && (n <=? 122)%nat then ascii_of_nat (n - 32) else c.

Fixpoint mapString (f : ascii -> ascii) (s : string) : string :=
  match s with
  | EmptyString => EmptyString
  | String c s' => String (f c) (mapString f s')
  end.

Definition toLowerCase : string -> string := mapString lowerAscii.
Definition toUpperCase : string -> string := mapString upperAscii.

(** [s.startsWith(p)]. *)
Definition startsWith (s p : string) : bool := String.prefix p s.

(** [s.indexOf(p)]: the first position at which [p] occurs, [None] for -1. *)
Fixpoint indexOf (s p : string) : option nat :=
  if String.prefix p s then Some 0%nat
  else match s with
       | EmptyString => None
       | String _ s' => option_map S (indexOf s' p)
       end.

(** [s.includes(p)]. *)
Definition includes (s p : string) : bool :=
  match indexOf s p with Some _ => true | None => false end.

Fixpoint dropString (n : nat) (s : string) : string :=
  match n, s with
  | O, _ => s
  | S n', EmptyString => EmptyString
  | S n', String _ s' => dropString n' s'
  end.

Fixpoint takeString (n : nat) (s : string) : string :=
  match n, s with
  | O, _ => EmptyString
  | S n', EmptyString => EmptyString
  | S n', String c s' => String c (takeString n' s')
  end.

(** [s.slice(i, j)] for [0 <= i] and [0 <= j]. *)
Definition slice (s : string) (i j : nat) : string :=
  takeString (j - i) (dropString i s).

(** [s.endsWith(p)]. *)
Definition endsWith (s p : string) : bool :=
  (String.length p <=? String.length s)%nat
  && String.eqb (dropString (String.length s - String.length p) s) p.

(** Truthiness of a string: non-empty. *)
Definition nonEmpty (s : string) : bool :=
  match s with EmptyString => false | _ => true end.

(** Truthiness of an optional string ([undefined] is falsy). *)
Definition truthyStr (o : option string) : bool :=
  match o with Some s => nonEmpty s | None => false end.

(** [x.toFixed(2)] read back with [Number]: the nearest multiple of 1/100,
    halves away from zero. *)
Definition toFixed2 (x : Q) : Q :=
  if Qle_bool 0 x
  then Qmake (Qfloor (x * 100 + (1 # 2))) 100
  else - Qmake (Qfloor ((- x) * 100 + (1 # 2))) 100.

(** A [Date]: the time value in milliseconds, or an invalid date (NaN). *)
Inductive Date :=
| ValidDate (ms : Z)
| InvalidDate.

Definition getTime (d : Date) : option Z :=
  match d with ValidDate ms => Some ms | InvalidDate => None end.

(** A value of type [unknown] that came out of JSON or was put in a
    correction. *)
Inductive Value :=
| VNull
| VBool (b : bool)
| VNum (q : Q)
| VStr (s : string)
| VDate (d : Date)
| VObject.

Definition truthy (v : Value) : bool :=
  match v with
  | VNull => false
  | VBool b => b
  | VNum q => negb (Qeq_bool q 0)
  | VStr s => nonEmpty s
  | VDate _ => true
  | VObject => true
  end.

End Js.

(** ** Data model (src/models) *)

Inductive MemoryKind := ephemeral | long_term | system.

Inductive LearnedMemoryCategory := vendor | correction | resolution | duplicate.

Definition category_eqb (a b : LearnedMemoryCategory) : bool :=
  match a, b with
  | vendor, vendor | correction, correction
  | resolution, resolution | duplicate, duplicate => true
  | _, _ => false
  end.

(** ['approved' | 'rejected']. *)
Inductive ResolutionStatus := status_approved | status_rejected.

(** [Record<string, unknown>] after a JSON round trip. *)
Abbreviation Metadata := (gmap string Js.Value).

(** [Partial<LearnedMemoryContent>]: what [JSON.parse] gives for an object.
    [None] in [p_confidence] and [p_usageCount] covers both an absent key
    and a value whose [typeof] is not ['number']. *)
Record PartialContent := mkPartial {
  p_category : option LearnedMemoryCategory;
  p_vendorName : option string;
  p_invoiceNumber : option string;
  p_invoiceDate : option string;
  p_field : option string;
  p_pattern : option string;
  p_resolutionStatus : option ResolutionStatus;
  p_confidence : option Q;
  p_usageCount : option Q;
  p_metadata : option Metadata
}.

(** The JSON behind [Memory.content]: an object, or text that [JSON.parse]
    rejects.  A JSON number, string or boolean reads like the empty object;
    the text [null] is not a value of the model. *)
Inductive Content :=
| Json (p : PartialContent)
| NotJson (text : string).

Record Memory := mkMemory {
  id : string;
  kind : MemoryKind;
  content : Content;
  createdAt : Z;
  updatedAt : Z;
  source : option string
}.

Record LearnedMemoryContent := mkLearned {
  category : LearnedMemoryCategory;
  vendorName : option string;
  invoiceNumber : option string;
  invoiceDate : option string;
  field : option string;
  pattern : option string;
  resolutionStatus : option ResolutionStatus;
  confidence : Q;
  usageCount : Q;
  metadata : option Metadata
}.

(** recall.ts: a memory, its parsed content and its recall score. *)
Record ScoredLearnedMemory := mkScored {
  sm_memory : Memory;
  sm_content : LearnedMemoryContent;
  score : Q
}.

Record RecallQuery := mkQuery {
  q_vendorName : string;
  q_invoiceNumber : string;
  q_invoiceDate : Js.Date;
  q_rawText : option string;
  q_limit : option nat
}.

Record RecallSummary := mkRecall {
  vendorMemories : list ScoredLearnedMemory;
  correctionMemories : list ScoredLearnedMemory;
  resolutionMemories : list ScoredLearnedMemory;
  duplicateDetected : bool;
  duplicateScore : Q;
  duplicateReason : option string;
  allMemories : list ScoredLearnedMemory
}.

(** ** What the engine takes from its platform

    The SQL [LIKE] of SQLite on the stored JSON text, the [uuid] package and
    the [Date] constructor and [toISOString] of the JavaScript runtime are not
    code of the repository.  [contentLike q c] is
    [content LIKE '%q%'] for the row whose content is [c]; [uuidv4 k] is the
    identifier the [k]-th call of [uuidv4()] returns; [dateParse s] is
    [new Date(s)]. *)
Class Platform := {
  contentLike : string -> Content -> bool;
  uuidv4 : nat -> string;
  dateParse : string -> Js.Date;
  toISOString : Z -> string
}.

(** ** The repository (src/memory/memoryRepository.ts)

    The table [memories] is the list of its rows in rowid order; [id] is the
    primary key. *)
Module Repository.

Abbreviation t := (list Memory).

(** [INSERT ... ON CONFLICT(id) DO UPDATE SET ...]: the row with this id is
    overwritten where it stands, a new id is appended. *)
Fixpoint saveMemory (rows : list Memory) (m : Memory) : list Memory :=
  match rows with
  | [] => [m]
  | r :: rows' =>
      if String.eqb (id r) (id m) then m :: rows' else r :: saveMemory rows' m
  end.

(** [SELECT ... WHERE id = ?]. *)
Fixpoint getMemoryById (rows : list Memory) (i : string) : option Memory :=
  match rows with
  | [] => None
  | r :: rows' => if String.eqb (id r) i then Some r else getMemoryById rows' i
  end.

(** [SELECT ... WHERE content LIKE ? LIMIT ?] with the pattern [%query%]. *)
Definition searchMemories `{Platform} (rows : list Memory) (query : string)
    (limit : nat) : list Memory :=
  firstn limit (List.filter (fun r => contentLike query (content r)) rows).

End Repository.

(** ** Recall (src/engine/recall.ts) *)

Section Recall.
Context `{Platform}.

Definition parseLearnedContent (m : Memory) : option LearnedMemoryContent :=
  match content m with
  | NotJson _ => None
  | Json p =>
      match p_confidence p, p_usageCount p, p_category p with
      | Some c, Some u, Some cat =>
          Some (mkLearned cat (p_vendorName p) (p_invoiceNumber p)
                  (p_invoiceDate p) (p_field p) (p_pattern p)
                  (p_resolutionStatus p) c u (p_metadata p))
      | _, _, _ => None
      end
  end.

(** [Math.abs(storedDate.getTime() - invoiceDate.getTime()) / 86400000 <= 2];
    a comparison with NaN is false. *)
Definition withinTwoDays (storedDate invoiceDate : Js.Date) : bool :=
  match Js.getTime storedDate, Js.getTime invoiceDate with
  | Some a, Some b =>
      let diffMs := inject_Z (Z.abs (a - b)) in
      let diffDays := diffMs / (1000 * 60 * 60 * 24) in
      Qle_bool diffDays 2
  | _, _ => false
  end.

Definition scoreMemory (c : LearnedMemoryContent) (qVendor qNumber : string)
    (qDate : Js.Date) : Q :=
  let score := confidence c in
  let score :=
    if match vendorName c with
       | Some v => Js.nonEmpty v
                   && String.eqb (Js.toLowerCase v) (Js.toLowerCase qVendor)
       | None => false
       end
    then score + 0.05 else score in
  let score :=
    if match invoiceNumber c with
       | Some n => Js.nonEmpty n && String.eqb n qNumber
       | None => false
       end
    then score + 0.05 else score in
  let score :=
    if match invoiceDate c with
       | Some d => Js.nonEmpty d && withinTwoDays (dateParse d) qDate
       | None => false
       end
    then score + 0.05 else score in
  Qmin score 1.

(** [Array.prototype.sort] with the comparator [(a, b) => b.score - a.score]:
    a stable sort, highest score first. *)
Fixpoint insertByScore (x : ScoredLearnedMemory) (l : list ScoredLearnedMemory)
    : list ScoredLearnedMemory :=
  match l with
  | [] => [x]
  | y :: l' =>
      if Qle_bool (score y) (score x) then x :: y :: l'
      else y :: insertByScore x l'
  end.

Definition sortByScore (l : list ScoredLearnedMemory) : list ScoredLearnedMemory :=
  List.fold_right insertByScore [] l.

Definition filterByCategory (memories : list ScoredLearnedMemory)
    (cat : LearnedMemoryCategory) : list ScoredLearnedMemory :=
  sortByScore
    (List.filter (fun m => category_eqb (category (sm_content m)) cat) memories).

(** [combined.set(m.id, m)] on a [Map]: a known key keeps its place and
    takes the new value, a new key goes last. *)
Fixpoint mapSet (entries : list Memory) (m : Memory) : list Memory :=
  match entries with
  | [] => [m]
  | e :: entries' =>
      if String.eqb (id e) (id m) then m :: entries' else e :: mapSet entries' m
  end.

Definition scoreAll (query : RecallQuery) (memories : list Memory)
    : list ScoredLearnedMemory :=
  List.flat_map
    (fun m =>
       match parseLearnedContent m with
       | None => []
       | Some c =>
           [mkScored m c
              (scoreMemory c (q_vendorName query) (q_invoiceNumber query)
                 (q_invoiceDate query))]
       end)
    memories.

(** The filter that selects the duplicate candidates. *)
Definition isDuplicateCandidate (query : RecallQuery) (m : ScoredLearnedMemory)
    : bool :=
  match vendorName (sm_content m) with
  | Some v => String.eqb (Js.toLowerCase v) (Js.toLowerCase (q_vendorName query))
  | None => false
  end
  && match invoiceNumber (sm_content m) with
     | Some n => String.eqb n (q_invoiceNumber query)
     | None => false
     end
  && Js.truthyStr (invoiceDate (sm_content m)).

Definition duplicateReasonText : string :=
  "Potential duplicate invoice based on vendor, invoice number and close invoice date.".

Definition recallMemories (repository : list Memory) (query : RecallQuery)
    : RecallSummary :=
  let limit := match q_limit query with Some n => n | None => 50%nat end in
  let byVendor := Repository.searchMemories repository (q_vendorName query) limit in
  let byInvoiceNumber :=
    Repository.searchMemories repository (q_invoiceNumber query) limit in
  let combined := List.fold_left mapSet (byVendor ++ byInvoiceNumber) [] in
  let scored := scoreAll query combined in
  let vendorMems := filterByCategory scored vendor in
  let correctionMems := filterByCategory scored correction in
  let resolutionMems := filterByCategory scored resolution in
  let duplicateCandidates :=
    List.filter (isDuplicateCandidate query) resolutionMems in
  match duplicateCandidates with
  | best :: _ =>
      mkRecall vendorMems correctionMems resolutionMems
        true (score best) (Some duplicateReasonText) scored
  | [] =>
      mkRecall vendorMems correctionMems resolutionMems
        false 0 None scored
  end.

End Recall.

(** ** Invoices and corrections (src/models/invoice.ts, pipeline.ts) *)

(** The location of a line-item object. *)
Abbreviation loc := positive.

(** [InvoiceLineItem]; [li_sku] is the property the engine writes through
    the cast [(item as any).sku]. *)
Record InvoiceLineItem := mkItem {
  li_id : string;
  li_description : string;
  li_quantity : Q;
  li_unitPrice : Q;
  li_sku : option Js.Value
}.

(** The heap of line-item objects. *)
Abbreviation Heap := (gmap loc InvoiceLineItem).

(** [NormalizedInvoice].  [inv_lineItems] is the array of references to the
    line-item objects; [inv_issuedAt] is the time value of a valid [Date].
    [inv_serviceDate] and [inv_currency] are written through [any] casts
    with values out of memory metadata, hence their type. *)
Record NormalizedInvoice := mkInvoice {
  inv_id : string;
  inv_externalId : option string;
  inv_customerName : string;
  inv_currency : Js.Value;
  inv_totalAmount : Q;
  inv_issuedAt : Z;
  inv_dueAt : option Z;
  inv_lineItems : list loc;
  inv_metadata : option Metadata;
  inv_vendorName : string;
  inv_invoiceNumber : string;
  inv_rawText : option string;
  inv_serviceDate : option Js.Value;
  inv_taxAmount : option Q;
  inv_grossAmount : option Q;
  inv_paymentTermsNormalized : option string
}.

Definition set_serviceDate (v : Js.Value) (i : NormalizedInvoice) : NormalizedInvoice :=
  mkInvoice (inv_id i) (inv_externalId i) (inv_customerName i) (inv_currency i)
    (inv_totalAmount i) (inv_issuedAt i) (inv_dueAt i) (inv_lineItems i)
    (inv_metadata i) (inv_vendorName i) (inv_invoiceNumber i) (inv_rawText i)
    (Some v) (inv_taxAmount i) (inv_grossAmount i) (inv_paymentTermsNormalized i).

Definition set_tax_gross (tax gross : Q) (i : NormalizedInvoice) : NormalizedInvoice :=
  mkInvoice (inv_id i) (inv_externalId i) (inv_customerName i) (inv_currency i)
    (inv_totalAmount i) (inv_issuedAt i) (inv_dueAt i) (inv_lineItems i)
    (inv_metadata i) (inv_vendorName i) (inv_invoiceNumber i) (inv_rawText i)
    (inv_serviceDate i) (Some tax) (Some gross) (inv_paymentTermsNormalized i).

Definition set_currency (v : Js.Value) (i : NormalizedInvoice) : NormalizedInvoice :=
  mkInvoice (inv_id i) (inv_externalId i) (inv_customerName i) v
    (inv_totalAmount i) (inv_issuedAt i) (inv_dueAt i) (inv_lineItems i)
    (inv_metadata i) (inv_vendorName i) (inv_invoiceNumber i) (inv_rawText i)
    (inv_serviceDate i) (inv_taxAmount i) (inv_grossAmount i)
    (inv_paymentTermsNormalized i).

Definition set_paymentTerms (s : string) (i : NormalizedInvoice) : NormalizedInvoice :=
  mkInvoice (inv_id i) (inv_externalId i) (inv_customerName i) (inv_currency i)
    (inv_totalAmount i) (inv_issuedAt i) (inv_dueAt i) (inv_lineItems i)
    (inv_metadata i) (inv_vendorName i) (inv_invoiceNumber i) (inv_rawText i)
    (inv_serviceDate i) (inv_taxAmount i) (inv_grossAmount i) (Some s).

Definition set_sku (v : Js.Value) (it : InvoiceLineItem) : InvoiceLineItem :=
  mkItem (li_id it) (li_description it) (li_quantity it) (li_unitPrice it) (Some v).

Record ProposedCorrection := mkCorrection {
  pc_field : string;
  pc_proposedValue : Js.Value;
  pc_reason : string;
  pc_confidence : Q;
  pc_memoryId : option string;
  pc_applied : bool
}.

Inductive MemoryAction := reinforce | decay | create.

Record MemoryUpdate := mkUpdate {
  mu_memoryId : string;
  mu_previousConfidence : Q;
  mu_newConfidence : Q;
  mu_usageCount : Q;
  mu_action : MemoryAction
}.

Inductive AuditEventType := step_recall | step_apply | step_decide | step_learn.

(** ** Apply (src/engine/apply.ts) *)

Record ApplyInputContext := mkInput {
  in_invoice : NormalizedInvoice;
  in_rawText : string;
  in_recall : RecallSummary
}.

Record AppliedMemoryRecord := mkApplied {
  am_field : string;
  am_memoryId : string;
  am_confidence : Q;
  am_applied : bool;
  am_reason : string
}.

Record ApplyContext := mkContext {
  ctx_input : ApplyInputContext;
  ctx_memories : list Memory;
  normalizedInvoice : NormalizedInvoice;
  proposedCorrections : list ProposedCorrection;
  appliedMemories : list AppliedMemoryRecord;
  aggregateConfidence : Q
}.

Definition HIGH_CONFIDENCE_THRESHOLD : Q := 0.8.
Definition MEDIUM_CONFIDENCE_THRESHOLD : Q := 0.7.

(** [list.push(correction)]; the returned correction is not used by any
    caller. *)
Definition registerCorrection (corrections : list ProposedCorrection) (fld : string)
    (proposedValue : Js.Value) (reason : string) (conf : Q)
    (memory : option ScoredLearnedMemory) (applied : bool)
    : list ProposedCorrection :=
  corrections ++ [mkCorrection fld proposedValue reason conf
             (option_map (fun m => id (sm_memory m)) memory) applied].

(** [m.content.field === name]. *)
Definition hasField (name : string) (m : ScoredLearnedMemory) : bool :=
  match field (sm_content m) with
  | Some f => String.eqb f name
  | None => false
  end.

(** [m.content.metadata?.proposedValue], [None] for [undefined]. *)
Definition metaProposedValue (m : ScoredLearnedMemory) : option Js.Value :=
  match metadata (sm_content m) with
  | Some md => md !! "proposedValue"
  | None => None
  end.

(** The mutable objects [applyMemoriesToContext] works on: the line-item
    heap, the fresh top-level copy of the invoice, the two lists and the
    running maximum. *)
Record ApplyState := mkState {
  st_heap : Heap;
  st_invoice : NormalizedInvoice;
  st_corrections : list ProposedCorrection;
  st_applied : list AppliedMemoryRecord;
  st_aggregate : Q
}.

Definition fieldReason (fld : string) (candidate : ScoredLearnedMemory) : string :=
  "Field " +:+ fld +:+ " inferred from learned vendor memory for "
  +:+ match vendorName (sm_content candidate) with
      | Some v => v
      | None => "unknown vendor"
      end
  +:+ ".".

(** [maybeApplyFieldFromMemory]; [assign] is the write
    [normalizedInvoice[field] = proposedValue].  The result pairs the new
    state of the three mutated objects with [value] and
    [aggregateConfidenceDelta]. *)
Definition maybeApplyFieldFromMemory (st : ApplyState) (fld : string)
    (assign : Js.Value -> NormalizedInvoice -> NormalizedInvoice)
    (currentValue : option Js.Value)
    (memories : list ScoredLearnedMemory)
    : ApplyState * (option Js.Value * Q) :=
  match currentValue with
  | Some (Js.VNull) | None =>
      match List.find (hasField fld) memories with
      | None => (st, (currentValue, 0))
      | Some candidate =>
          let conf := confidence (sm_content candidate) in
          let reason := fieldReason fld candidate in
          if Js.geq conf HIGH_CONFIDENCE_THRESHOLD then
            match metaProposedValue candidate with
            | Some proposedValue =>
                (mkState (st_heap st)
                   (assign proposedValue (st_invoice st))
                   (registerCorrection (st_corrections st) fld proposedValue
                      reason conf (Some candidate) true)
                   (st_applied st
                    ++ [mkApplied fld (id (sm_memory candidate)) conf true reason])
                   (st_aggregate st),
                 (Some proposedValue, conf))
            | None => (st, (currentValue, 0))
            end
          else if Js.geq conf MEDIUM_CONFIDENCE_THRESHOLD then
            match metaProposedValue candidate with
            | Some proposedValue =>
                (mkState (st_heap st) (st_invoice st)
                   (registerCorrection (st_corrections st) fld proposedValue
                      reason conf (Some candidate) false)
                   (st_applied st
                    ++ [mkApplied fld (id (sm_memory candidate)) conf false reason])
                   (st_aggregate st),
                 (currentValue, conf))
            | None => (st, (currentValue, 0))
            end
          else (st, (currentValue, 0))
      end
  | Some _ => (st, (currentValue, 0))
  end.

Definition detectVatIncluded (rawText : string) : bool :=
  let text := Js.toLowerCase rawText in
  Js.includes text "mwst. inkl"
  || Js.includes text "mwst inkl"
  || Js.includes text "inkl. mwst"
  || Js.includes text "inkl mwst"
  || Js.includes text "prices incl. vat"
  || Js.includes text "price includes vat".

(** The UTF-8 bytes of the euro sign and of the pound sign. *)
Definition euroSign : string :=
  String (ascii_of_nat 226) (String (ascii_of_nat 130) (String (ascii_of_nat 172) EmptyString)).
Definition poundSign : string :=
  String (ascii_of_nat 194) (String (ascii_of_nat 163) EmptyString).

Definition normalizeCurrencyFromText (rawText : string) : option string :=
  let text := Js.toUpperCase rawText in
  if Js.includes text " EUR" || Js.includes text euroSign then Some "EUR"
  else if Js.includes text " USD" || Js.includes text "$" then Some "USD"
  else if Js.includes text " CHF" then Some "CHF"
  else if Js.includes text " GBP" || Js.includes text poundSign then Some "GBP"
  else None.

Definition isDigit (c : ascii) : bool :=
  let n := nat_of_ascii c in (48 <=? n)%nat && (n <=? 57)%nat.

Definition isPercent (c : ascii) : bool := Ascii.eqb c "%"%char.

(** The first match of [/(\d{1,2})%/] in [s]: its capture group. *)
Fixpoint matchPercent (s : string) : option string :=
  match s with
  | EmptyString => None
  | String a s1 =>
      if isDigit a then
        match s1 with
        | EmptyString => None
        | String b s2 =>
            if isDigit b
               && match s2 with String c _ => isPercent c | EmptyString => false end
            then Some (String a (String b EmptyString))
            else if isPercent b then Some (String a EmptyString)
            else matchPercent s1
        end
      else matchPercent s1
  end.

Definition detectSkontoTerms (rawText : string) : option string :=
  let text := Js.toLowerCase rawText in
  match Js.indexOf text "skonto" with
  | None => None
  | Some skontoIndex =>
      let window := Js.slice text (skontoIndex - 40) (skontoIndex + 80) in
      match matchPercent window with
      | Some percentage => Some (percentage +:+ "% skonto detected")
      | None => Some "Skonto terms detected"
      end
  end.

Definition vatReason : string :=
  "VAT inclusion inferred from raw text phrases such as " +:+
  String (ascii_of_nat 34) "MwSt. inkl." +:+ String (ascii_of_nat 34) " or " +:+
  String (ascii_of_nat 34) "Prices incl. VAT" +:+ String (ascii_of_nat 34) ".".

Definition currencyReason : string :=
  "Currency inferred from raw text and vendor-specific memory.".

Definition freightReason : string :=
  "Freight-related description mapped to freight SKU based on learned vendor memory.".

Definition skontoReason : string :=
  "Skonto (cash discount) terms detected in raw text.".

(** [mem?.content.confidence ?? dflt]. *)
Definition confidenceOr (mem : option ScoredLearnedMemory) (dflt : Q) : Q :=
  match mem with
  | Some m => confidence (sm_content m)
  | None => dflt
  end.

(** [mem?.memory.id ?? synthetic]. *)
Definition memoryIdOr (mem : option ScoredLearnedMemory) (synthetic : string) : string :=
  match mem with
  | Some m => id (sm_memory m)
  | None => synthetic
  end.

(** The body of [applyMemoriesToContext], one definition per block of the
    function, each from the state left by the block before it. *)

(** Lines 347-359: the service date out of vendor memory. *)
Definition serviceDateStep (input : ApplyInputContext) (st : ApplyState) : ApplyState :=
  let vendorServiceMemories :=
    List.filter (hasField "serviceDate") (vendorMemories (in_recall input)) in
  let '(st', (_, delta)) :=
    maybeApplyFieldFromMemory st "serviceDate" set_serviceDate
      (inv_serviceDate (st_invoice st)) vendorServiceMemories in
  mkState (st_heap st') (st_invoice st') (st_corrections st') (st_applied st')
    (Qmax (st_aggregate st') delta).

(** Lines 361-409: VAT included in the gross total. *)
Definition vatStep (input : ApplyInputContext) (st : ApplyState) : ApplyState :=
  if detectVatIncluded (in_rawText input) then
    let vatMem := List.find (hasField "vatIncluded") (vendorMemories (in_recall input)) in
    let baseConfidence := confidenceOr vatMem 0.75 in
    let gross := inv_totalAmount (st_invoice st) in
    let net := gross / 1.19 in
    let taxAmount := gross - net in
    if Js.geq baseConfidence HIGH_CONFIDENCE_THRESHOLD then
      mkState (st_heap st)
        (set_tax_gross (Js.toFixed2 taxAmount) (Js.toFixed2 gross) (st_invoice st))
        (registerCorrection (st_corrections st) "taxAmount"
           (Js.VNum (Js.toFixed2 taxAmount)) vatReason baseConfidence vatMem true)
        (st_applied st
         ++ [mkApplied "taxAmount" (memoryIdOr vatMem "synthetic-vat-rule")
               baseConfidence true vatReason])
        (Qmax (st_aggregate st) baseConfidence)
    else if Js.geq baseConfidence MEDIUM_CONFIDENCE_THRESHOLD then
      mkState (st_heap st) (st_invoice st)
        (registerCorrection (st_corrections st) "taxAmount"
           (Js.VNum (Js.toFixed2 taxAmount)) vatReason baseConfidence vatMem false)
        (st_applied st)
        (Qmax (st_aggregate st) baseConfidence)
    else st
  else st.

(** Lines 411-456: the currency, out of the raw text or of vendor memory. *)
Definition currencyStep (input : ApplyInputContext) (st : ApplyState) : ApplyState :=
  if negb (Js.truthy (inv_currency (st_invoice st))) then
    let currencyFromText := normalizeCurrencyFromText (in_rawText input) in
    let currencyMem := List.find (hasField "currency") (vendorMemories (in_recall input)) in
    let baseConfidence := confidenceOr currencyMem 0.7 in
    let candidateCurrency :=
      match currencyFromText with
      | Some c => Some (Js.VStr c)
      | None => match currencyMem with
                | Some m => metaProposedValue m
                | None => None
                end
      end in
    match candidateCurrency with
    | Some cur =>
        if Js.truthy cur then
          if Js.geq baseConfidence HIGH_CONFIDENCE_THRESHOLD then
            mkState (st_heap st)
              (set_currency cur (st_invoice st))
              (registerCorrection (st_corrections st) "currency" cur
                 currencyReason baseConfidence currencyMem true)
              (match currencyMem with
               | Some m =>
                   st_applied st
                   ++ [mkApplied "currency" (id (sm_memory m)) baseConfidence
                         true currencyReason]
               | None => st_applied st
               end)
              (Qmax (st_aggregate st) baseConfidence)
          else if Js.geq baseConfidence MEDIUM_CONFIDENCE_THRESHOLD then
            mkState (st_heap st) (st_invoice st)
              (registerCorrection (st_corrections st) "currency" cur
                 currencyReason baseConfidence currencyMem false)
              (st_applied st)
              (Qmax (st_aggregate st) baseConfidence)
          else st
        else st
    | None => st
    end
  else st.

Definition looksLikeFreight (description : string) : bool :=
  Js.includes description "seefracht"
  || Js.includes description "shipping"
  || Js.includes description "fracht"
  || Js.includes description "freight".

Definition skuField (item : InvoiceLineItem) : string :=
  "lineItem:" +:+ li_id item +:+ ":sku".

(** Lines 458-506: one turn of the loop over [normalizedInvoice.lineItems].
    [l] is the reference held by the array; the write [(item as any).sku]
    goes to the object it points to. *)
Definition freightStep (input : ApplyInputContext) (st : ApplyState) (l : loc)
    : ApplyState :=
  match st_heap st !! l with
  | None => st
  | Some item =>
      if looksLikeFreight (Js.toLowerCase (li_description item)) then
        let freightMem :=
          List.find (hasField "freightSku") (vendorMemories (in_recall input)) in
        let baseConfidence := confidenceOr freightMem 0.75 in
        let proposedSku :=
          match freightMem with
          | Some m => match metaProposedValue m with
                      | Some Js.VNull | None => Js.VStr "FREIGHT"
                      | Some v => v
                      end
          | None => Js.VStr "FREIGHT"
          end in
        if Js.geq baseConfidence HIGH_CONFIDENCE_THRESHOLD then
          mkState (<[l := set_sku proposedSku item]> (st_heap st))
            (st_invoice st)
            (registerCorrection (st_corrections st) (skuField item) proposedSku
               freightReason baseConfidence freightMem true)
            (st_applied st
             ++ [mkApplied (skuField item)
                   (memoryIdOr freightMem "synthetic-freight-rule")
                   baseConfidence true freightReason])
            (Qmax (st_aggregate st) baseConfidence)
        else if Js.geq baseConfidence MEDIUM_CONFIDENCE_THRESHOLD then
          mkState (st_heap st) (st_invoice st)
            (registerCorrection (st_corrections st) (skuField item) proposedSku
               freightReason baseConfidence freightMem false)
            (st_applied st)
            (Qmax (st_aggregate st) baseConfidence)
        else st
      else st
  end.

(** Lines 508-545: cash-discount terms. *)
Definition skontoStep (input : ApplyInputContext) (st : ApplyState) : ApplyState :=
  match detectSkontoTerms (in_rawText input) with
  | Some skonto =>
      if Js.nonEmpty skonto then
        let skontoMem := List.find (hasField "skonto") (vendorMemories (in_recall input)) in
        let baseConfidence := confidenceOr skontoMem 0.75 in
        if Js.geq baseConfidence HIGH_CONFIDENCE_THRESHOLD then
          mkState (st_heap st)
            (set_paymentTerms skonto (st_invoice st))
            (registerCorrection (st_corrections st) "paymentTermsNormalized"
               (Js.VStr skonto) skontoReason baseConfidence skontoMem true)
            (st_applied st
             ++ [mkApplied "paymentTermsNormalized"
                   (memoryIdOr skontoMem "synthetic-skonto-rule")
                   baseConfidence true skontoReason])
            (Qmax (st_aggregate st) baseConfidence)
        else if Js.geq baseConfidence MEDIUM_CONFIDENCE_THRESHOLD then
          mkState (st_heap st) (st_invoice st)
            (registerCorrection (st_corrections st) "paymentTermsNormalized"
               (Js.VStr skonto) skontoReason baseConfidence skontoMem false)
            (st_applied st)
            (Qmax (st_aggregate st) baseConfidence)
        else st
      else st
  | None => st
  end.

(** [applyMemoriesToContext].  [{ ...input.invoice }] copies the top-level
    properties into a fresh object, so the copy holds the same line-item
    references as the caller's invoice; the heap after the call is the
    state of the line-item objects the caller sees. *)
Definition applyMemoriesToContext (heap : Heap) (input : ApplyInputContext)
    : Heap * ApplyContext :=
  let st := mkState heap (in_invoice input) [] [] 0 in
  let st := serviceDateStep input st in
  let st := vatStep input st in
  let st := currencyStep input st in
  let st := List.fold_left (freightStep input) (inv_lineItems (st_invoice st)) st in
  let st := skontoStep input st in
  (st_heap st,
   mkContext input
     (List.map sm_memory (allMemories (in_recall input)))
     (st_invoice st) (st_corrections st) (st_applied st) (st_aggregate st)).

(** ** Decide (src/engine/decide.ts) *)

Record Decision := mkDecision {
  requiresHumanReview : bool;
  confidenceScore : Q;
  reasoning : string
}.

Definition isHighConfidenceApplied (m : AppliedMemoryRecord) : bool :=
  am_applied m && Js.geq (am_confidence m) 0.8.

Definition isMediumSuggestion (c : ProposedCorrection) : bool :=
  negb (pc_applied c) && Js.geq (pc_confidence c) 0.7 && Js.lt (pc_confidence c) 0.8.

Definition duplicateText : string :=
  "Potential duplicate detected based on vendor, invoice number, and invoice date proximity.".
Definition autoText : string :=
  "High-confidence learned corrections applied without conflicting suggestions; auto-correction is allowed.".
Definition mediumText : string :=
  "Medium-confidence suggestions present; human review recommended before applying corrections.".
Definition escalateText : string :=
  "No sufficiently confident learned memory found; escalate to human review.".

Definition decideNextAction (context : ApplyContext) : Decision :=
  let hasDuplicate := duplicateDetected (in_recall (ctx_input context)) in
  let highConfidenceApplied :=
    List.existsb isHighConfidenceApplied (appliedMemories context) in
  let mediumConfidenceSuggestions :=
    List.filter isMediumSuggestion (proposedCorrections context) in
  let noMedium := (length mediumConfidenceSuggestions =? 0)%nat in
  let review0 := true in
  let parts0 : list string := [] in
  let '(review1, parts1) :=
    if hasDuplicate then (true, (parts0 ++ [duplicateText])%list) else (review0, parts0) in
  let '(review2, parts2) :=
    if negb hasDuplicate && highConfidenceApplied && noMedium
    then (false, (parts1 ++ [autoText])%list) else (review1, parts1) in
  let '(review3, parts3) :=
    if negb noMedium then (true, (parts2 ++ [mediumText])%list) else (review2, parts2) in
  let '(review4, parts4) :=
    if negb highConfidenceApplied && noMedium && negb hasDuplicate
    then (true, (parts3 ++ [escalateText])%list) else (review3, parts3) in
  mkDecision review4
    (Qmin (Qmax (aggregateConfidence context) 0) 1)
    (String.concat " " parts4).

(** ** Learn (src/engine/learn.ts) *)

(** The keys of [signal.event.details] that [learnFromSignal] reads, each
    with the type of its cast; [None] is [undefined]. *)
Record SignalDetails := mkDetails {
  d_memoryId : option string;
  d_approved : option bool;
  d_field : option string;
  d_value : option Js.Value;
  d_vendorName : option string;
  d_invoiceNumber : option string;
  d_invoiceDate : option string;
  d_resolutionStatus : option ResolutionStatus;
  d_isDuplicate : option bool
}.

Record AuditEvent := mkEvent {
  ev_id : string;
  ev_type : AuditEventType;
  ev_timestamp : Z;
  ev_details : SignalDetails
}.

Record LearningSignal := mkSignal {
  event : AuditEvent;
  feedbackScore : option Q
}.

Section Learn.
Context `{Platform}.

(** What a value becomes when it is stringified into the content and parsed
    again: a [Date] turns into its ISO string, an invalid one into [null]. *)
Definition jsonValue (v : Js.Value) : Js.Value :=
  match v with
  | Js.VDate (Js.ValidDate ms) => Js.VStr (toISOString ms)
  | Js.VDate Js.InvalidDate => Js.VNull
  | _ => v
  end.

(** The property [k: o] of an object literal that is stringified: set when
    [o] is defined, absent (also when a spread had it) when [o] is
    [undefined]. *)
Definition setKey (k : string) (o : option Js.Value) (md : gmap string Js.Value)
    : gmap string Js.Value :=
  match o with
  | Some v => <[k := jsonValue v]> md
  | None => delete k md
  end.

Definition isSkuField (fld : option string) : bool :=
  match fld with
  | Some f => Js.nonEmpty f && Js.startsWith f "lineItem:" && Js.endsWith f ":sku"
  | None => false
  end.

Definition isVatField (fld : option string) : bool :=
  match fld with
  | Some f => String.eqb f "taxAmount" || String.eqb f "grossAmount"
  | None => false
  end.

(** The category and the stored field, from their initial values and the
    two overriding tests on [field] (lines 37-46 and 110-119). *)
Definition inferCategory (cat0 : LearnedMemoryCategory) (fld0 fld : option string)
    : LearnedMemoryCategory * option string :=
  let '(cat, stored) :=
    if isVatField fld then (vendor, Some "vatIncluded") else (cat0, fld0) in
  if isSkuField fld then (vendor, Some "freightSku") else (cat, stored).

Definition isFreightSku (stored : option string) : bool :=
  match stored with Some f => String.eqb f "freightSku" | None => false end.

Definition orElse {A} (a b : option A) : option A :=
  match a with Some _ => a | None => b end.

Definition emptyPartial : PartialContent :=
  mkPartial None None None None None None None None None None.

(** [learnFromSignal].  [now] is the value of [new Date()] at line 31,
    [uuids] the number of identifiers drawn from [uuidv4] so far; the result
    carries the table and that count after the call. *)
Definition learnFromSignal (now : Z) (repository : list Memory) (uuids : nat)
    (signal : LearningSignal) : (list Memory * nat) * option Memory :=
  let details := ev_details (event signal) in
  let fld := d_field details in
  let resolutionStatus := d_resolutionStatus details in
  let isDuplicate := d_isDuplicate details in
  match d_memoryId details, d_approved details with
  | Some memoryId, Some approved =>
      if negb (Js.nonEmpty memoryId) then ((repository, uuids), None) else
      match Repository.getMemoryById repository memoryId with
      | None =>
          let initialConfidence : Q := if approved then 0.8 else 0.5 in
          let '(cat, storedField) := inferCategory correction fld fld in
          let baseMetadata :=
            setKey "value" (d_value details)
              (setKey "field" (option_map Js.VStr fld) ∅) in
          let baseMetadata :=
            if isFreightSku storedField
            then setKey "proposedValue" (d_value details) baseMetadata
            else baseMetadata in
          let cont :=
            mkPartial (Some cat) (d_vendorName details) (d_invoiceNumber details)
              (d_invoiceDate details) storedField None None
              (Some initialConfidence) (Some 1) (Some baseMetadata) in
          let memory := mkMemory memoryId long_term (Json cont) now now (Some "learn") in
          ((Repository.saveMemory repository memory, uuids), Some memory)
      | Some existing =>
          let parsed :=
            match content existing with
            | Json p => p
            | NotJson _ => emptyPartial
            end in
          let currentConfidence :=
            match p_confidence parsed with Some c => c | None => 0.7 end in
          let currentUsage :=
            match p_usageCount parsed with Some u => u | None => 0 end in
          let delta :=
            0.05 * match feedbackScore signal with Some s => s | None => 1 end in
          let newConfidence :=
            if approved then Qmin (currentConfidence + delta) 0.95
            else Qmax (currentConfidence - delta) 0 in
          let '(cat, storedField) :=
            inferCategory
              (match p_category parsed with Some c => c | None => correction end)
              (orElse (p_field parsed) fld) fld in
          let md :=
            setKey "value" (d_value details)
              (setKey "field" (option_map Js.VStr fld)
                 (match p_metadata parsed with Some m => m | None => ∅ end)) in
          let md :=
            if isFreightSku storedField
            then setKey "proposedValue" (d_value details) md
            else md in
          let updated :=
            mkPartial (Some cat)
              (orElse (p_vendorName parsed) (d_vendorName details))
              (orElse (p_invoiceNumber parsed) (d_invoiceNumber details))
              (orElse (p_invoiceDate parsed) (d_invoiceDate details))
              storedField None None
              (Some newConfidence) (Some (currentUsage + 1)) (Some md) in
          let updatedMemory :=
            mkMemory (id existing) (kind existing) (Json updated)
              (createdAt existing) now (source existing) in
          let repository := Repository.saveMemory repository updatedMemory in
          let wantsResolution :=
            match resolutionStatus with Some _ => true | None => false end
            || match isDuplicate with Some b => b | None => false end in
          if wantsResolution then
            let resolutionContent :=
              mkPartial (Some resolution) (d_vendorName details)
                (d_invoiceNumber details) (d_invoiceDate details) None None
                (orElse resolutionStatus
                   (match isDuplicate with
                    | Some true => Some status_approved
                    | _ => None
                    end))
                (Some (if approved then 0.8 else 0.5)) (Some 1)
                (Some (<["isDuplicate" :=
                           Js.VBool (match isDuplicate with
                                     | Some true => true
                                     | _ => false
                                     end)]> ∅)) in
            let resolutionMemory :=
              mkMemory (uuidv4 uuids) long_term (Json resolutionContent) now now
                (Some "learn:resolution") in
            ((Repository.saveMemory repository resolutionMemory, S uuids),
             Some updatedMemory)
          else ((repository, uuids), Some updatedMemory)
      end
  | _, _ => ((repository, uuids), None)
  end.

End Learn.

(** ** The orchestrator (src/engine/index.ts) *)

Record HumanFeedbackInput := mkFeedback {
  approvedCorrections : list string;
  rejectedCorrections : list string
}.

(** [EngineOutputContract]; of an audit-trail entry the model keeps the
    step. *)
Record EngineOutputContract := mkOutput {
  out_normalizedInvoice : NormalizedInvoice;
  out_proposedCorrections : list ProposedCorrection;
  out_requiresHumanReview : bool;
  out_reasoning : string;
  out_confidenceScore : Q;
  out_memoryUpdates : list MemoryUpdate;
  out_auditTrail : list AuditEventType
}.

(** What a run of the pipeline can change: the table of memories, the
    line-item objects, and the number of identifiers drawn from [uuidv4]. *)
Record World := mkWorld {
  w_repository : list Memory;
  w_heap : Heap;
  w_uuids : nat
}.

Section Orchestrator.
Context `{Platform}.

(** [list.includes(s)]. *)
Definition includesField (l : list string) (s : string) : bool :=
  List.existsb (String.eqb s) l.

(** [typeof parsed.confidence === 'number'] and the same for [usageCount],
    on the parsed content of a memory; unparseable content changes
    nothing. *)
Definition readConfidence (m : Memory) (dflt : Q) : Q :=
  match content m with
  | Json p => match p_confidence p with Some c => c | None => dflt end
  | NotJson _ => dflt
  end.

Definition readUsage (m : Memory) (dflt : Q) : Q :=
  match content m with
  | Json p => match p_usageCount p with Some u => u | None => dflt end
  | NotJson _ => dflt
  end.

(** One turn of the loop over [applyResult.proposedCorrections]
    (lines 84-152). *)
Definition feedbackStep (now : Z) (invoice : NormalizedInvoice)
    (recallResult : RecallSummary) (humanFeedback : HumanFeedbackInput)
    (acc : (list Memory * nat) * list MemoryUpdate) (c : ProposedCorrection)
    : (list Memory * nat) * list MemoryUpdate :=
  let '((repository, uuids), memoryUpdates) := acc in
  let approved := includesField (approvedCorrections humanFeedback) (pc_field c) in
  let rejected := includesField (rejectedCorrections humanFeedback) (pc_field c) in
  if negb approved && negb rejected then acc else
  let eventId := uuidv4 uuids in
  let uuids := S uuids in
  let '(memoryId, uuids) :=
    match pc_memoryId c with
    | Some i => (i, uuids)
    | None => (uuidv4 uuids, S uuids)
    end in
  let signal :=
    mkSignal
      (mkEvent eventId step_learn now
         (mkDetails (Some memoryId) (Some approved) (Some (pc_field c))
            (Some (pc_proposedValue c)) (Some (inv_vendorName invoice))
            (Some (inv_invoiceNumber invoice))
            (Some (toISOString (inv_issuedAt invoice)))
            (Some (if approved then status_approved else status_rejected))
            (Some (duplicateDetected recallResult))))
      (Some (if approved then 1 else -1)) in
  let beforeMemory :=
    match pc_memoryId c with
    | Some i => Repository.getMemoryById repository i
    | None => None
    end in
  let previousConfidence :=
    match beforeMemory with Some m => readConfidence m 0.7 | None => 0.7 end in
  let previousUsage :=
    match beforeMemory with Some m => readUsage m 0 | None => 0 end in
  let '((repository, uuids), updated) :=
    learnFromSignal now repository uuids signal in
  match updated with
  | Some u =>
      let newConfidence := readConfidence u previousConfidence in
      let newUsage := readUsage u (previousUsage + 1) in
      ((repository, uuids),
       (memoryUpdates
        ++ [mkUpdate (id u) previousConfidence newConfidence newUsage
              (if approved then reinforce else decay)])%list)
  | None => ((repository, uuids), memoryUpdates)
  end.

(** [processInvoiceWithMemory].  [now] stands for the readings of the clock
    during the run; no decision depends on them. *)
Definition processInvoiceWithMemory (now : Z) (w : World)
    (invoice : NormalizedInvoice) (rawText : string)
    (humanFeedback : option HumanFeedbackInput) : World * EngineOutputContract :=
  let recallQuery :=
    mkQuery (inv_vendorName invoice) (inv_invoiceNumber invoice)
      (Js.ValidDate (inv_issuedAt invoice)) (Some rawText) None in
  let recallResult := recallMemories (w_repository w) recallQuery in
  let '(heap, applyResult) :=
    applyMemoriesToContext (w_heap w) (mkInput invoice rawText recallResult) in
  let decision := decideNextAction applyResult in
  let '((repository, uuids), memoryUpdates) :=
    match humanFeedback with
    | Some fb =>
        List.fold_left (feedbackStep now invoice recallResult fb)
          (proposedCorrections applyResult)
          ((w_repository w, w_uuids w), [])
    | None => ((w_repository w, w_uuids w), [])
    end in
  (mkWorld repository heap uuids,
   mkOutput (normalizedInvoice applyResult)
     (proposedCorrections applyResult)
     (requiresHumanReview decision || duplicateDetected recallResult)
     (reasoning decision)
     (confidenceScore decision)
     memoryUpdates
     [step_recall; step_apply; step_decide; step_learn]).

End Orchestrator.

(** ** The vocabulary of the properties *)

Section Vocabulary.
Context `{Platform}.

(** The three matches that recall rewards with +0.05 each. *)
Definition VendorMatches (c : LearnedMemoryContent) (q : RecallQuery) : Prop :=
  exists v, vendorName c = Some v /\ v <> ""
            /\ Js.toLowerCase v = Js.toLowerCase (q_vendorName q).

Definition NumberMatches (c : LearnedMemoryContent) (q : RecallQuery) : Prop :=
  exists n, invoiceNumber c = Some n /\ n <> "" /\ n = q_invoiceNumber q.

(** Two days are 172800000 milliseconds. *)
Definition DateWithinTwoDays (c : LearnedMemoryContent) (q : RecallQuery) : Prop :=
  exists d a b, invoiceDate c = Some d /\ d <> ""
                /\ Js.getTime (dateParse d) = Some a
                /\ Js.getTime (q_invoiceDate q) = Some b
                /\ (Z.abs (a - b) <= 172800000)%Z.

Definition bonus (b : bool) : Q := if b then 0.05 else 0.

(** The triple match of duplicate detection. *)
Definition DuplicateOf (q : RecallQuery) (s : ScoredLearnedMemory) : Prop :=
  category (sm_content s) = resolution
  /\ (exists v, vendorName (sm_content s) = Some v
                /\ Js.toLowerCase v = Js.toLowerCase (q_vendorName q))
  /\ invoiceNumber (sm_content s) = Some (q_invoiceNumber q)
  /\ (exists d, invoiceDate (sm_content s) = Some d /\ d <> "").

(** A row that one of the two searches of recall returns. *)
Definition Retrieved (repository : list Memory) (q : RecallQuery) (row : Memory) : Prop :=
  let limit := match q_limit q with Some n => n | None => 50%nat end in
  In row (Repository.searchMemories repository (q_vendorName q) limit)
  \/ In row (Repository.searchMemories repository (q_invoiceNumber q) limit).

(** Every scored memory a summary holds. *)
Definition summaryMemories (r : RecallSummary) : list ScoredLearnedMemory :=
  allMemories r ++ vendorMemories r ++ correctionMemories r ++ resolutionMemories r.

(** The confidence bands of Apply. *)
Definition InBand (c : ProposedCorrection) : Prop :=
  0.7 <= pc_confidence c
  /\ (pc_applied c = true -> 0.8 <= pc_confidence c)
  /\ (pc_applied c = false -> pc_confidence c < 0.8).

(** The confidence and the usage count that the existing-memory path of
    [learnFromSignal] reads from a stored memory. *)
Definition storedConfidence (m : Memory) : Q := readConfidence m 0.7.
Definition storedUsage (m : Memory) : Q := readUsage m 0.

(** [n] calls of [learnFromSignal] with the same signal, one after the
    other on the same table. *)
Fixpoint learnRepeatedly (n : nat) (now : Z) (repository : list Memory)
    (uuids : nat) (signal : LearningSignal) : list Memory * nat :=
  match n with
  | O => (repository, uuids)
  | S n' =>
      let '(repository', uuids') := learnRepeatedly n' now repository uuids signal in
      fst (learnFromSignal now repository' uuids' signal)
  end.

(** Descending by score. *)
Definition scoreGe (a b : ScoredLearnedMemory) : Prop := score b <= score a.

(** What every block of [applyMemoriesToContext] keeps true of the two
    lists it pushes to: each correction lies in its band, and an applied
    audit record at or above 0.8 exists exactly when an applied correction
    does. *)
Definition Banded (st : ApplyState) : Prop :=
  Forall InBand (st_corrections st)
  /\ existsb isHighConfidenceApplied (st_applied st)
     = existsb pc_applied (st_corrections st).

(** [feedbackScore ?? 1]. *)
Definition scoreOf (signal : LearningSignal) : Q :=
  match feedbackScore signal with Some s => s | None => 1 end.

(** The confidence that the existing-memory path stores. *)
Definition updatedConfidence (approved : bool) (c : Q) (signal : LearningSignal) : Q :=
  if approved then Qmin (c + 0.05 * scoreOf signal) 0.95
  else Qmax (c - 0.05 * scoreOf signal) 0.

(** A stored memory of category resolution. *)
Definition isResolutionMemory (m : Memory) : bool :=
  match content m with
  | Json p => match p_category p with
              | Some resolution => true
              | _ => false
              end
  | NotJson _ => false
  end.

(** How an entry of [memoryUpdates] relates to the correction and the
    feedback it was made from. *)
Definition EntryOf (fb : HumanFeedbackInput) (c : ProposedCorrection)
    (u : MemoryUpdate) : Prop :=
  mu_action u
  = (if includesField (approvedCorrections fb) (pc_field c) then reinforce else decay)
  /\ (includesField (approvedCorrections fb) (pc_field c)
      || includesField (rejectedCorrections fb) (pc_field c)) = true
  /\ forall i, pc_memoryId c = Some i -> mu_memoryId u = i.

(** A correction whose field the feedback lists, as approved or as
    rejected. *)
Definition listedField (fb : HumanFeedbackInput) (c : ProposedCorrection) : bool :=
  includesField (approvedCorrections fb) (pc_field c)
  || includesField (rejectedCorrections fb) (pc_field c).

(** The correction of the VAT block. *)
Definition vatProposal (invoice : NormalizedInvoice) (conf : Q)
    (memoryId : option string) (applied : bool) : ProposedCorrection :=
  mkCorrection "taxAmount"
    (Js.VNum (Js.toFixed2 (inv_totalAmount invoice - inv_totalAmount invoice / 1.19)))
    vatReason conf memoryId applied.

End Vocabulary.

(** ** Concrete scenarios

    A platform to run the engine on: the search finds a query inside the
    stored vendor name or invoice number, identifiers are numbered, and a
    date prints as its time value. *)
Module Scenario.

Definition like (q : string) (c : Content) : bool :=
  match c with
  | Json p =>
      match p_vendorName p with Some v => Js.includes v q | None => false end
      || match p_invoiceNumber p with Some n => Js.includes n q | None => false end
  | NotJson t => Js.includes t q
  end.

Definition platform : Platform :=
  {| contentLike := like;
     uuidv4 := fun k => "uuid-" +:+ pretty (N.of_nat k);
     dateParse := fun _ => Js.InvalidDate;
     toISOString := fun ms => "ms" +:+ pretty ms |}.

(** Scenario A: VAT included in a gross total of 119.00, empty store. *)
Definition partsInvoice : NormalizedInvoice :=
  mkInvoice "INV-A-001" None "Parts AG" (Js.VStr "EUR") 119 1700000000 None
    [1%positive] None "Parts AG" "PA-7781" None None None None None.

Definition partsText : string := "Rechnung PA-7781 Gesamt 119,00 EUR inkl. MwSt.".

Definition partsHeap : Heap :=
  {[ 1%positive := mkItem "1" "Bremsscheiben" 2 50 None ]}.

Definition emptyWorld : World := mkWorld [] partsHeap 0.

Definition approveTax : HumanFeedbackInput := mkFeedback ["taxAmount"] [].
Definition rejectTax : HumanFeedbackInput := mkFeedback [] ["taxAmount"].
Definition approveAndRejectTax : HumanFeedbackInput :=
  mkFeedback ["taxAmount"] ["taxAmount"].

(** A stored vendor memory for [vatIncluded] at confidence 0.85. *)
Definition vatContent (conf : Q) : PartialContent :=
  mkPartial (Some vendor) (Some "Parts AG") (Some "PA-7000") None
    (Some "vatIncluded") None None (Some conf) (Some 3) None.

Definition vatMemory : Memory :=
  mkMemory "mem-vat" long_term (Json (vatContent 0.85)) 0 0 (Some "seed").

Definition seededWorld : World := mkWorld [vatMemory] partsHeap 0.

(** A learning signal that carries both a resolution status and the
    duplicate flag. *)
Definition resolutionSignal : LearningSignal :=
  mkSignal
    (mkEvent "ev-1" step_learn 0
       (mkDetails (Some "mem-new") (Some true) (Some "currency")
          (Some (Js.VStr "EUR")) (Some "Parts AG") (Some "PA-7781")
          (Some "2024-01-01") (Some status_approved) (Some true)))
    None.

(** A freight line item and a vendor memory for [freightSku] at 0.85. *)
Definition freightItem : InvoiceLineItem :=
  mkItem "1" "Seefracht Hamburg-Rotterdam" 1 400 None.

Definition freightHeap : Heap := {[ 1%positive := freightItem ]}.

Definition freightInvoice : NormalizedInvoice :=
  mkInvoice "INV-F-001" None "Freight & Co" (Js.VStr "EUR") 400 1700000000 None
    [1%positive] None "Freight & Co" "FC-1001" None None None None None.

Definition freightLearned : LearnedMemoryContent :=
  mkLearned vendor (Some "Freight & Co") None None (Some "freightSku") None None
    0.85 2 None.

Definition freightScored : ScoredLearnedMemory :=
  mkScored
    (mkMemory "mem-freight" long_term
       (Json (mkPartial (Some vendor) (Some "Freight & Co") None None
                (Some "freightSku") None None (Some 0.85) (Some 2) None))
       0 0 (Some "seed"))
    freightLearned 0.9.

Definition freightRecall : RecallSummary :=
  mkRecall [freightScored] [] [] false 0 None [freightScored].

Definition freightInput : ApplyInputContext :=
  mkInput freightInvoice "Transport invoice FC-1001" freightRecall.

(** A stored resolution memory for the Parts AG invoice PA-7781. *)
Definition resolutionMemory : Memory :=
  mkMemory "mem-res" long_term
    (Json (mkPartial (Some resolution) (Some "Parts AG") (Some "PA-7781")
             (Some "2023-11-14T22:13:20.000Z") None None (Some status_approved)
             (Some 0.8) (Some 1) None))
    0 0 (Some "learn:resolution").

(** A stored memory whose confidence is negative, and one whose vendor name
    and invoice number are empty strings. *)
Definition negativeMemory : Memory :=
  mkMemory "mem-neg" long_term
    (Json (mkPartial (Some vendor) (Some "Parts AG") None None None None None
             (Some (-1 # 2)) (Some 1) None))
    0 0 None.

Definition blankLearned : LearnedMemoryContent :=
  mkLearned vendor (Some "") (Some "") None None None None 0.5 1 None.

Definition partsQuery : RecallQuery :=
  mkQuery "Parts AG" "PA-7781" (Js.ValidDate 1700000000) None None.

Definition blankQuery : RecallQuery :=
  mkQuery "" "" (Js.ValidDate 1700000000) None None.

(** An approval of the stored VAT memory with a feedback score of -20. *)
Definition penaltySignal : LearningSignal :=
  mkSignal
    (mkEvent "ev-3" step_learn 0
       (mkDetails (Some "mem-vat") (Some true) (Some "taxAmount")
          (Some (Js.VNum 19)) (Some "Parts AG") (Some "PA-7781")
          None None None))
    (Some (-20)).

(** An approval of the stored VAT memory, with the default feedback
    score and no resolution data. *)
Definition approveVatSignal : LearningSignal :=
  mkSignal
    (mkEvent "ev-2" step_learn 0
       (mkDetails (Some "mem-vat") (Some true) (Some "taxAmount")
          (Some (Js.VNum 19)) (Some "Parts AG") (Some "PA-7781")
          None None None))
    None.

End Scenario.

(** ** The demo driver (src/demo/demoRunner.ts)

    The two policies the driver lays over the engine's result.  The
    process-wide [Set] of vendor and pattern keys is passed in and handed
    back; the [console.log] calls are left out. *)
Module Demo.

(** The key [`${vendorName}::${patternKey}`]. *)
Definition seenKey (vendorName patternKey : string) : string :=
  vendorName +:+ "::" +:+ patternKey.

Definition firstEncounterNote : string :=
  " (Demo override: first-time encounter for this vendor/pattern requires human review.)".

Definition secondRunNote : string :=
  " (Demo override: high-confidence second run for Freight & Co auto-approves.)".

(** [{ ...result, requiresHumanReview, reasoning }]. *)
Definition withDecision (result : EngineOutputContract) (review : bool)
    (reason : string) : EngineOutputContract :=
  mkOutput (out_normalizedInvoice result) (out_proposedCorrections result)
    review reason (out_confidenceScore result) (out_memoryUpdates result)
    (out_auditTrail result).

Definition enforceFirstEncounterReviewForDemo (vendorName patternKey : string)
    (result : EngineOutputContract) (seenVendorPatterns : gset string)
    : gset string * EngineOutputContract :=
  let key := seenKey vendorName patternKey in
  if decide (key ∈ seenVendorPatterns) then (seenVendorPatterns, result)
  else
    let seen := {[key]} ∪ seenVendorPatterns in
    if negb (out_requiresHumanReview result)
    then (seen, withDecision result true (out_reasoning result +:+ firstEncounterNote))
    else (seen, result).

Definition DEMO_HIGH_CONFIDENCE_THRESHOLD : Q := 0.8.

Definition enforceFreightSecondRunAutoDecision (vendorName patternKey : string)
    (result : EngineOutputContract) (seenVendorPatterns : gset string)
    : EngineOutputContract :=
  let key := seenKey vendorName patternKey in
  let isFirstEncounter := negb (bool_decide (key ∈ seenVendorPatterns)) in
  if negb isFirstEncounter
     && Js.geq (out_confidenceScore result) DEMO_HIGH_CONFIDENCE_THRESHOLD
  then withDecision result false (out_reasoning result +:+ secondRunNote)
  else result.

(** [mapHumanFieldToEngineField] (lines 106-119). *)
Definition mapHumanFieldToEngineField (field : string) : string :=
  if String.eqb field "taxTotal" then "taxAmount"
  else if String.eqb field "grossTotal" then "grossAmount"
  else if String.eqb field "discountTerms" then "paymentTermsNormalized"
  else if String.eqb field "lineItems[0].sku" then "lineItem:1:sku"
  else field.

(** The approved fields the runner builds from the human corrections of an
    invoice (lines 165-172 and 337-343): the mapped names, filtered by the
    set of fields of the proposed corrections. *)
Definition approvedCorrectionFields (humanFields : list string)
    (result : EngineOutputContract) : list string :=
  let engineFields := List.map pc_field (out_proposedCorrections result) in
  List.filter (includesField engineFields)
    (List.map mapHumanFieldToEngineField humanFields).

End Demo.

(** ** More vocabulary *)

(** A bucket of a recall summary: the scored memories of one category,
    highest score first, equal scores in their order of retrieval. *)
Definition hasCategory (cat : LearnedMemoryCategory) (s : ScoredLearnedMemory) : bool :=
  category_eqb (category (sm_content s)) cat.

Definition hasScore (k : Q) (s : ScoredLearnedMemory) : bool := Qeq_bool (score s) k.

Definition BucketOf (cat : LearnedMemoryCategory)
    (all bucket : list ScoredLearnedMemory) : Prop :=
  Permutation bucket (List.filter (hasCategory cat) all)
  /\ StronglySorted scoreGe bucket
  /\ forall k, List.filter (hasScore k) bucket
               = List.filter (hasScore k) (List.filter (hasCategory cat) all).

(** The value a top-level field of an invoice holds, by the name Apply gives
    the field in a correction. *)
Definition readField (name : string) (i : NormalizedInvoice) : option Js.Value :=
  if String.eqb name "serviceDate" then inv_serviceDate i
  else if String.eqb name "taxAmount" then option_map Js.VNum (inv_taxAmount i)
  else if String.eqb name "currency" then Some (inv_currency i)
  else if String.eqb name "paymentTermsNormalized"
       then option_map Js.VStr (inv_paymentTermsNormalized i)
  else None.

Definition isScalarField (name : string) : bool :=
  String.eqb name "serviceDate" || String.eqb name "taxAmount"
  || String.eqb name "currency" || String.eqb name "paymentTermsNormalized".

(** What Apply leaves alone in a line item: everything but the SKU. *)
Definition sameButSku (a b : InvoiceLineItem) : Prop :=
  li_id a = li_id b /\ li_description a = li_description b
  /\ li_quantity a = li_quantity b /\ li_unitPrice a = li_unitPrice b.

Local Open Scope list_scope.

(** The properties of an invoice that no block of Apply assigns. *)
Definition SameKeyFields (a b : NormalizedInvoice) : Prop :=
  inv_id a = inv_id b /\ inv_externalId a = inv_externalId b
  /\ inv_customerName a = inv_customerName b
  /\ inv_totalAmount a = inv_totalAmount b /\ inv_issuedAt a = inv_issuedAt b
  /\ inv_dueAt a = inv_dueAt b /\ inv_lineItems a = inv_lineItems b
  /\ inv_metadata a = inv_metadata b /\ inv_vendorName a = inv_vendorName b
  /\ inv_invoiceNumber a = inv_invoiceNumber b /\ inv_rawText a = inv_rawText b.

(** A correction's memory id is the id of a recalled vendor memory. *)
Definition Traceable (input : ApplyInputContext) (c : ProposedCorrection) : Prop :=
  forall i, pc_memoryId c = Some i ->
            exists m, In m (vendorMemories (in_recall input)) /\ id (sm_memory m) = i.

(** What a block of Apply that owns the top-level field [f] does to the
    state: nothing, or one correction for [f] pushed, with the field written
    when the correction is applied. *)
Definition ScalarEffect (input : ApplyInputContext) (f : string)
    (st st' : ApplyState) : Prop :=
  st_heap st' = st_heap st
  /\ ((st_invoice st' = st_invoice st
       /\ st_corrections st' = st_corrections st
       /\ st_applied st' = st_applied st
       /\ (st_aggregate st' = st_aggregate st
           \/ st_aggregate st' = Qmax (st_aggregate st) 0))
      \/ exists c recs,
           pc_field c = f
           /\ st_corrections st' = st_corrections st ++ [c]
           /\ st_applied st' = st_applied st ++ recs
           /\ st_aggregate st' = Qmax (st_aggregate st) (pc_confidence c)
           /\ InBand c
           /\ Traceable input c
           /\ SameKeyFields (st_invoice st) (st_invoice st')
           /\ (forall n, n <> f ->
                         readField n (st_invoice st') = readField n (st_invoice st))
           /\ (if pc_applied c
               then readField f (st_invoice st') = Some (pc_proposedValue c)
               else st_invoice st' = st_invoice st)).

(** What one turn of the loop over the line items does for the item at
    [l]. *)
Definition FreightEffect (input : ApplyInputContext) (l : loc)
    (st st' : ApplyState) : Prop :=
  st_invoice st' = st_invoice st
  /\ ((st_heap st' = st_heap st
       /\ st_corrections st' = st_corrections st
       /\ st_applied st' = st_applied st
       /\ st_aggregate st' = st_aggregate st)
      \/ exists item c recs,
           st_heap st !! l = Some item
           /\ pc_field c = skuField item
           /\ st_corrections st' = st_corrections st ++ [c]
           /\ st_applied st' = st_applied st ++ recs
           /\ st_aggregate st' = Qmax (st_aggregate st) (pc_confidence c)
           /\ InBand c
           /\ Traceable input c
           /\ (if pc_applied c
               then st_heap st' = <[l := set_sku (pc_proposedValue c) item]> (st_heap st)
               else st_heap st' = st_heap st)).

(** [agg] is 0 for no correction, else the largest confidence among [cs]. *)
Definition IsMaxConfidence (agg : Q) (cs : list ProposedCorrection) : Prop :=
  (cs = [] /\ agg == 0)
  \/ (exists c, In c cs /\ agg == pc_confidence c
                 /\ forall c', In c' cs -> pc_confidence c' <= agg).

(** The field of a correction names a top-level field Apply owns, or the
    SKU of a line item of the invoice. *)
Definition KnownField (heap : Heap) (invoice : NormalizedInvoice)
    (c : ProposedCorrection) : Prop :=
  isScalarField (pc_field c) = true
  \/ exists l item, In l (inv_lineItems invoice) /\ heap !! l = Some item
                    /\ pc_field c = skuField item.

(** An applied correction of a top-level field shows in the invoice. *)
Definition AppliedWritten (invoice : NormalizedInvoice) (c : ProposedCorrection) : Prop :=
  pc_applied c = true -> isScalarField (pc_field c) = true ->
  readField (pc_field c) invoice = Some (pc_proposedValue c).

(** After the blocks that own the fields [names]: the top-level corrections
    are for those fields, and the applied ones are written. *)
Definition Staged (names : list string) (st : ApplyState) : Prop :=
  Forall
    (fun c => (In (pc_field c) names \/ isScalarField (pc_field c) = false)
              /\ AppliedWritten (st_invoice st) c)
    (st_corrections st).

(** The vendor memory, the confidence and the SKU of the freight block
    (lines 468-471). *)
Definition freightMemory (input : ApplyInputContext) : option ScoredLearnedMemory :=
  List.find (hasField "freightSku") (vendorMemories (in_recall input)).

Definition freightConfidence (input : ApplyInputContext) : Q :=
  confidenceOr (freightMemory input) 0.75.

Definition freightSku (input : ApplyInputContext) : Js.Value :=
  match freightMemory input with
  | Some m => match metaProposedValue m with
              | Some Js.VNull | None => Js.VStr "FREIGHT"
              | Some v => v
              end
  | None => Js.VStr "FREIGHT"
  end.

(** The line item the freight loop leaves at a location after it has
    visited the locations [visited]. *)
Definition freightItemAfter (input : ApplyInputContext) (visited : list loc)
    (l : loc) (item : InvoiceLineItem) : InvoiceLineItem :=
  if existsb (Pos.eqb l) visited
     && looksLikeFreight (Js.toLowerCase (li_description item))
     && Js.geq (freightConfidence input) HIGH_CONFIDENCE_THRESHOLD
  then set_sku (freightSku input) item
  else item.

(** The frame of Apply, relative to the heap and the invoice it started
    from. *)
Definition Framed (heap : Heap) (invoice : NormalizedInvoice) (st : ApplyState) : Prop :=
  SameKeyFields invoice (st_invoice st)
  /\ forall l, option_Forall2 sameButSku (heap !! l) (st_heap st !! l).

(** The SKU field names of the line-item objects at [ls], in order. *)
Definition skuFields (heap : Heap) (ls : list loc) : list string :=
  omap (fun l => skuField <$> heap !! l) ls.

(** The order in which the blocks of Apply run. *)
Definition blockOrder (heap : Heap) (invoice : NormalizedInvoice) : list string :=
  ["serviceDate"; "taxAmount"; "currency"]
  ++ skuFields heap (inv_lineItems invoice) ++ ["paymentTermsNormalized"].

(** What must hold of the input for Apply to emit the correction [c] of a
    top-level field. *)
Definition Triggered (input : ApplyInputContext) (c : ProposedCorrection) : Prop :=
  (pc_field c = "serviceDate" ->
   (inv_serviceDate (in_invoice input) = None
    \/ inv_serviceDate (in_invoice input) = Some Js.VNull)
   /\ exists m, In m (vendorMemories (in_recall input))
                /\ hasField "serviceDate" m = true
                /\ metaProposedValue m = Some (pc_proposedValue c)
                /\ pc_confidence c = confidence (sm_content m))
  /\ (pc_field c = "taxAmount" ->
      detectVatIncluded (in_rawText input) = true
      /\ pc_proposedValue c
         = Js.VNum (Js.toFixed2 (inv_totalAmount (in_invoice input)
                                 - inv_totalAmount (in_invoice input) / 1.19)))
  /\ (pc_field c = "currency" ->
      Js.truthy (inv_currency (in_invoice input)) = false
      /\ Js.truthy (pc_proposedValue c) = true
      /\ match normalizeCurrencyFromText (in_rawText input) with
         | Some code => pc_proposedValue c = Js.VStr code
         | None => exists m, In m (vendorMemories (in_recall input))
                             /\ hasField "currency" m = true
                             /\ metaProposedValue m = Some (pc_proposedValue c)
         end)
  /\ (pc_field c = "paymentTermsNormalized" ->
      Js.includes (Js.toLowerCase (in_rawText input)) "skonto" = true
      /\ option_map Js.VStr (detectSkontoTerms (in_rawText input))
         = Some (pc_proposedValue c)).

(** One or two decimal digits: what the group of [/(\d{1,2})%/] captures. *)
Definition IsPercentage (d : string) : Prop :=
  (exists a, d = String a EmptyString /\ isDigit a = true)
  \/ (exists a b, d = String a (String b EmptyString)
                  /\ isDigit a = true /\ isDigit b = true).

(** How the loop over the corrections may move the table, the count of
    drawn identifiers and the list of updates. *)
Definition Grows (a b : (list Memory * nat) * list MemoryUpdate) : Prop :=
  (forall j, is_Some (Repository.getMemoryById (fst (fst a)) j) ->
             is_Some (Repository.getMemoryById (fst (fst b)) j))
  /\ (List.NoDup (List.map id (fst (fst a))) -> List.NoDup (List.map id (fst (fst b))))
  /\ (snd (fst a) <= snd (fst b))%nat
  /\ exists new,
       snd b = snd a ++ new
       /\ (length (fst (fst b)) <= length (fst (fst a)) + 2 * length new)%nat
       /\ Forall (fun u => is_Some (Repository.getMemoryById (fst (fst b)) (mu_memoryId u)))
            new.

(** * Properties *)

(** ** Numbers and strings *)

Lemma geq_true (a b : Q) : Js.geq a b = true <-> b <= a.
Proof. unfold Js.geq. apply Qle_bool_iff. Qed.

Lemma geq_false (a b : Q) : Js.geq a b = false <-> a < b.
Proof.
  unfold Js.geq. split; intros Hab.
  - apply Qnot_le_lt. intros Hle. apply Qle_bool_iff in Hle. congruence.
  - destruct (Qle_bool b a) eqn:E; [|reflexivity].
    apply Qle_bool_iff in E. exfalso. apply (Qlt_not_le _ _ Hab E).
Qed.

Lemma lt_true (a b : Q) : Js.lt a b = true <-> a < b.
Proof.
  unfold Js.lt. rewrite negb_true_iff. apply geq_false.
Qed.

Lemma nonEmpty_true (s : string) : Js.nonEmpty s = true <-> s <> "".
Proof. destruct s; simpl; split; intros; congruence. Qed.

Lemma truthyStr_true (o : option string) :
  Js.truthyStr o = true <-> exists d, o = Some d /\ d <> "".
Proof.
  destruct o as [s|]; simpl.
  - rewrite nonEmpty_true. split.
    + intros Hs. exists s. split; [reflexivity|assumption].
    + intros (d & Hd & Hne). congruence.
  - split; [discriminate|]. intros (d & Hd & _). discriminate.
Qed.

Lemma category_eqb_eq (a b : LearnedMemoryCategory) :
  category_eqb a b = true <-> a = b.
Proof. destruct a, b; simpl; split; intros; congruence. Qed.

(** The text heuristics on sample inputs. *)

Example detectVatIncluded_german : detectVatIncluded "Preis inkl. MwSt." = true.
Proof. reflexivity. Qed.

Example detectVatIncluded_net : detectVatIncluded "Preis netto" = false.
Proof. reflexivity. Qed.

Example detectSkontoTerms_percent :
  detectSkontoTerms "Zahlbar mit 2% Skonto" = Some "2% skonto detected".
Proof. reflexivity. Qed.

Example detectSkontoTerms_backtrack :
  detectSkontoTerms "123% skonto" = Some "23% skonto detected".
Proof. reflexivity. Qed.

Example detectSkontoTerms_plain :
  detectSkontoTerms "SKONTO nach Vereinbarung" = Some "Skonto terms detected".
Proof. reflexivity. Qed.

Example normalizeCurrency_symbol :
  normalizeCurrencyFromText ("Summe 100 " +:+ euroSign) = Some "EUR".
Proof. reflexivity. Qed.

Example normalizeCurrency_none : normalizeCurrencyFromText "Summe 100" = None.
Proof. reflexivity. Qed.

Example toFixed2_tax : Js.toFixed2 (119 - 119 / 1.19) == 19.
Proof. reflexivity. Qed.

Example inferCategory_tax :
  inferCategory correction (Some "grossAmount") (Some "grossAmount")
  = (vendor, Some "vatIncluded").
Proof. reflexivity. Qed.

Example inferCategory_sku :
  inferCategory correction (Some "lineItem:7:sku") (Some "lineItem:7:sku")
  = (vendor, Some "freightSku").
Proof. reflexivity. Qed.

Example inferCategory_other :
  inferCategory correction (Some "currency") (Some "currency")
  = (correction, Some "currency").
Proof. reflexivity. Qed.

(** ** Recall *)

Section RecallFacts.
Context `{Platform}.

Lemma insertByScore_In (x y : ScoredLearnedMemory) (l : list ScoredLearnedMemory) :
  In y (insertByScore x l) <-> y = x \/ In y l.
Proof.
  induction l as [|z l IH]; simpl.
  - intuition congruence.
  - destruct (Qle_bool (score z) (score x)); simpl.
    + intuition congruence.
    + rewrite IH. intuition congruence.
Qed.

Lemma sortByScore_In (y : ScoredLearnedMemory) (l : list ScoredLearnedMemory) :
  In y (sortByScore l) <-> In y l.
Proof.
  induction l as [|x l IH]; simpl; [reflexivity|].
  unfold sortByScore in *. simpl. rewrite insertByScore_In, IH.
  intuition congruence.
Qed.

Lemma insertByScore_sorted (x : ScoredLearnedMemory) (l : list ScoredLearnedMemory) :
  StronglySorted scoreGe l -> StronglySorted scoreGe (insertByScore x l).
Proof.
  induction 1 as [|z l Hl IH Hz]; simpl.
  - constructor; constructor.
  - destruct (Qle_bool (score z) (score x)) eqn:E.
    + apply Qle_bool_iff in E.
      constructor; [constructor; assumption|].
      constructor; [exact E|].
      eapply List.Forall_impl; [|exact Hz].
      intros a Ha. unfold scoreGe in *. eapply Qle_trans; eassumption.
    + constructor; [exact IH|].
      apply List.Forall_forall. intros a Ha.
      apply insertByScore_In in Ha. destruct Ha as [->|Ha].
      * unfold scoreGe. apply Qlt_le_weak. apply geq_false. exact E.
      * rewrite List.Forall_forall in Hz. apply Hz. exact Ha.
Qed.

Lemma sortByScore_sorted (l : list ScoredLearnedMemory) :
  StronglySorted scoreGe (sortByScore l).
Proof.
  induction l as [|x l IH]; simpl.
  - constructor.
  - apply insertByScore_sorted. exact IH.
Qed.

Lemma filterByCategory_In (s : ScoredLearnedMemory) (l : list ScoredLearnedMemory)
    (cat : LearnedMemoryCategory) :
  In s (filterByCategory l cat) <-> In s l /\ category (sm_content s) = cat.
Proof.
  unfold filterByCategory. rewrite sortByScore_In, List.filter_In, category_eqb_eq.
  reflexivity.
Qed.

(** The first element that a filter keeps of a sorted list is a highest
    one among those it keeps. *)
Lemma filter_sorted_head (f : ScoredLearnedMemory -> bool)
    (l rest : list ScoredLearnedMemory) (best : ScoredLearnedMemory) :
  StronglySorted scoreGe l ->
  List.filter f l = best :: rest ->
  forall s, In s l -> f s = true -> score s <= score best.
Proof.
  induction 1 as [|z l Hl IH Hz]; simpl; [discriminate|].
  intros Hf s Hs Hfs. destruct (f z) eqn:Ez.
  - injection Hf as -> _. destruct Hs as [->|Hs]; [apply Qle_refl|].
    rewrite List.Forall_forall in Hz. apply Hz. exact Hs.
  - destruct Hs as [->|Hs]; [congruence|]. eapply IH; eassumption.
Qed.

Lemma scoreAll_In (q : RecallQuery) (l : list Memory) (s : ScoredLearnedMemory) :
  In s (scoreAll q l) <->
  exists m c, In m l /\ parseLearnedContent m = Some c
              /\ s = mkScored m c
                       (scoreMemory c (q_vendorName q) (q_invoiceNumber q)
                          (q_invoiceDate q)).
Proof.
  unfold scoreAll. rewrite in_flat_map. split.
  - intros (m & Hm & Hs). destruct (parseLearnedContent m) as [c|] eqn:E.
    + destruct Hs as [<-|[]]. exists m, c. auto.
    + destruct Hs.
  - intros (m & c & Hm & Hc & ->). exists m. split; [exact Hm|].
    rewrite Hc. left. reflexivity.
Qed.

Lemma twoDays_bound (x : Q) :
  x / (1000 * 60 * 60 * 24) <= 2 <-> x <= inject_Z 172800000.
Proof.
  assert (E : x / (1000 * 60 * 60 * 24) == x * (1 # 86400000)).
  { unfold Qdiv. apply Qmult_comp; reflexivity. }
  assert (E2 : inject_Z 172800000 == 172800000) by reflexivity.
  rewrite E, E2. split; intro; lra.
Qed.

Lemma withinTwoDays_true (d1 d2 : Js.Date) :
  withinTwoDays d1 d2 = true <->
  exists a b, Js.getTime d1 = Some a /\ Js.getTime d2 = Some b
              /\ (Z.abs (a - b) <= 172800000)%Z.
Proof.
  unfold withinTwoDays.
  destruct (Js.getTime d1) as [a|], (Js.getTime d2) as [b|];
    try (split; [discriminate|intros (? & ? & ? & ? & _); discriminate]).
  rewrite Qle_bool_iff, twoDays_bound, <- Zle_Qle. split.
  - intros Hle. exists a, b. auto.
  - intros (a' & b' & [= <-] & [= <-] & Hz). exact Hz.
Qed.

End RecallFacts.

(** Case analysis on every [Qmin] and [Qmax] of the goal, then linear
    arithmetic. *)
Ltac split_minmax :=
  repeat match goal with
    | |- context [Qmin ?a ?b] =>
        let H := fresh "Hmin" in
        destruct (Q.min_spec a b) as [[? H]|[? H]];
        rewrite ?H in *; clear H
    | |- context [Qmax ?a ?b] =>
        let H := fresh "Hmax" in
        destruct (Q.max_spec a b) as [[? H]|[? H]];
        rewrite ?H in *; clear H
    end.

Section RecallScore.
Context `{Platform}.

Lemma scoreMemory_formula (c : LearnedMemoryContent) (q : RecallQuery) :
  exists bv bn bd : bool,
    (bv = true <-> VendorMatches c q)
    /\ (bn = true <-> NumberMatches c q)
    /\ (bd = true <-> DateWithinTwoDays c q)
    /\ scoreMemory c (q_vendorName q) (q_invoiceNumber q) (q_invoiceDate q)
       == Qmin (confidence c + bonus bv + bonus bn + bonus bd) 1.
Proof.
  unfold scoreMemory.
  set (bv := match vendorName c with
             | Some v => Js.nonEmpty v
                         && String.eqb (Js.toLowerCase v) (Js.toLowerCase (q_vendorName q))
             | None => false
             end).
  set (bn := match invoiceNumber c with
             | Some n => Js.nonEmpty n && String.eqb n (q_invoiceNumber q)
             | None => false
             end).
  set (bd := match invoiceDate c with
             | Some d => Js.nonEmpty d && withinTwoDays (dateParse d) (q_invoiceDate q)
             | None => false
             end).
  exists bv, bn, bd. repeat split.
  - subst bv. unfold VendorMatches. destruct (vendorName c) as [v|]; [|discriminate].
    rewrite andb_true_iff, nonEmpty_true, String.eqb_eq. intros [Hv He].
    exists v. auto.
  - subst bv. intros (v & -> & Hv & He).
    rewrite andb_true_iff, nonEmpty_true, String.eqb_eq. auto.
  - subst bn. unfold NumberMatches. destruct (invoiceNumber c) as [n|]; [|discriminate].
    rewrite andb_true_iff, nonEmpty_true, String.eqb_eq. intros [Hn He].
    exists n. auto.
  - subst bn. intros (n & -> & Hn & He).
    rewrite andb_true_iff, nonEmpty_true, String.eqb_eq. auto.
  - subst bd. unfold DateWithinTwoDays. destruct (invoiceDate c) as [d|]; [|discriminate].
    rewrite andb_true_iff, nonEmpty_true, withinTwoDays_true.
    intros [Hd (a & b & Ha & Hb & Hab)]. exists d, a, b. auto.
  - subst bd. intros (d & a & b & -> & Hd & Ha & Hb & Hab).
    rewrite andb_true_iff, nonEmpty_true, withinTwoDays_true.
    split; [exact Hd|]. exists a, b. auto.
  - destruct bv, bn, bd; unfold bonus; split_minmax; lra.
Qed.

Lemma scoreMemory_le_1 (c : LearnedMemoryContent) (v n : string) (d : Js.Date) :
  scoreMemory c v n d <= 1.
Proof. unfold scoreMemory. apply Q.le_min_r. Qed.

Lemma scoreMemory_nonneg (c : LearnedMemoryContent) (v n : string) (d : Js.Date) :
  0 <= confidence c -> 0 <= scoreMemory c v n d.
Proof.
  intros Hc. unfold scoreMemory.
  repeat match goal with |- context [if ?b then _ else _] => destruct b end;
    split_minmax; lra.
Qed.

Lemma summaryMemories_all (repository : list Memory) (q : RecallQuery)
    (s : ScoredLearnedMemory) :
  In s (summaryMemories (recallMemories repository q)) ->
  In s (allMemories (recallMemories repository q)).
Proof.
  unfold summaryMemories, recallMemories.
  set (scored := scoreAll q _).
  destruct (List.filter (isDuplicateCandidate q) (filterByCategory scored resolution));
    simpl; rewrite !in_app_iff, !filterByCategory_In; tauto.
Qed.

Lemma allMemories_scored (repository : list Memory) (q : RecallQuery)
    (s : ScoredLearnedMemory) :
  In s (allMemories (recallMemories repository q)) ->
  parseLearnedContent (sm_memory s) = Some (sm_content s)
  /\ score s = scoreMemory (sm_content s) (q_vendorName q) (q_invoiceNumber q)
                 (q_invoiceDate q).
Proof.
  unfold recallMemories.
  set (scored := scoreAll q _).
  assert (Hall : In s scored ->
                 parseLearnedContent (sm_memory s) = Some (sm_content s)
                 /\ score s = scoreMemory (sm_content s) (q_vendorName q)
                                (q_invoiceNumber q) (q_invoiceDate q)).
  { subst scored. rewrite scoreAll_In. intros (m & c & _ & Hc & ->). simpl. auto. }
  destruct (List.filter (isDuplicateCandidate q) (filterByCategory scored resolution));
    simpl; exact Hall.
Qed.

End RecallScore.

Section RecallTheorems.
Context `{Platform}.

(** C8 (amended).  Every scored memory of a recall summary parses as learned
    content, and its score is the stored confidence plus 0.05 for a stored
    vendor name that is non-empty and equals the query vendor ignoring case,
    plus 0.05 for a stored invoice number that is non-empty and equals the
    query number, plus 0.05 for a stored invoice date that is non-empty,
    parses, and lies within two days of the query date, capped at 1.  The
    score is at most 1; it is at least 0 when the stored confidence is. *)
Theorem recall_score (repository : list Memory) (q : RecallQuery)
    (s : ScoredLearnedMemory) :
  In s (summaryMemories (recallMemories repository q)) ->
  parseLearnedContent (sm_memory s) = Some (sm_content s)
  /\ (exists bv bn bd : bool,
        (bv = true <-> VendorMatches (sm_content s) q)
        /\ (bn = true <-> NumberMatches (sm_content s) q)
        /\ (bd = true <-> DateWithinTwoDays (sm_content s) q)
        /\ score s
           == Qmin (confidence (sm_content s) + bonus bv + bonus bn + bonus bd) 1)
  /\ score s <= 1
  /\ (0 <= confidence (sm_content s) -> 0 <= score s).
Proof.
  intros Hs. apply summaryMemories_all in Hs.
  apply allMemories_scored in Hs. destruct Hs as [Hparse Hscore].
  split; [exact Hparse|]. rewrite Hscore. split; [|split].
  - apply scoreMemory_formula.
  - apply scoreMemory_le_1.
  - apply scoreMemory_nonneg.
Qed.

Lemma isDuplicateCandidate_true (q : RecallQuery) (s : ScoredLearnedMemory) :
  category (sm_content s) = resolution /\ isDuplicateCandidate q s = true
  <-> DuplicateOf q s.
Proof.
  unfold isDuplicateCandidate, DuplicateOf.
  rewrite !andb_true_iff, truthyStr_true.
  destruct (vendorName (sm_content s)) as [v|], (invoiceNumber (sm_content s)) as [n|];
    rewrite ?String.eqb_eq; split.
  - intros (Hc & (Hv & ->) & Hd). repeat split; eauto.
  - intros (Hc & (v' & [= <-] & Hv) & [= ->] & Hd). auto.
  - intros (_ & (_ & [=]) & _).
  - intros (_ & _ & [=] & _).
  - intros (_ & ([=] & _) & _).
  - intros (_ & (v' & [=] & _) & _).
  - intros (_ & ([=] & _) & _).
  - intros (_ & (v' & [=] & _) & _).
Qed.

Lemma duplicateCandidates_In (q : RecallQuery) (scored : list ScoredLearnedMemory)
    (s : ScoredLearnedMemory) :
  In s (List.filter (isDuplicateCandidate q) (filterByCategory scored resolution))
  <-> In s scored /\ DuplicateOf q s.
Proof.
  rewrite List.filter_In, filterByCategory_In, <- isDuplicateCandidate_true. tauto.
Qed.

Lemma In_firstn {A} (n : nat) (l : list A) (x : A) : In x (firstn n l) -> In x l.
Proof.
  revert l. induction n as [|n IH]; intros [|y l]; simpl; try tauto.
  intros [->|Hx]; [left; reflexivity|right; apply IH; exact Hx].
Qed.

Lemma mapSet_In (entries : list Memory) (m x : Memory) :
  In x (mapSet entries m) -> x = m \/ In x entries.
Proof.
  induction entries as [|e entries IH]; simpl; [intuition congruence|].
  destruct (String.eqb (id e) (id m)); simpl; [intuition congruence|].
  intros [->|Hx]; [tauto|]. destruct (IH Hx); tauto.
Qed.

Lemma mapSet_fold_In (l acc : list Memory) (x : Memory) :
  In x (List.fold_left mapSet l acc) -> In x l \/ In x acc.
Proof.
  revert acc. induction l as [|m l IH]; intros acc; simpl; [tauto|].
  intros Hx. destruct (IH _ Hx) as [Hl|Hm]; [tauto|].
  destruct (mapSet_In _ _ _ Hm); [subst; tauto|tauto].
Qed.

Lemma mapSet_keeps (entries : list Memory) (m x : Memory) :
  (id x = id m -> x = m) ->
  x = m \/ In x entries -> In x (mapSet entries m).
Proof.
  intros Hsame. induction entries as [|e entries IH]; simpl.
  - intros [->|[]]. left. reflexivity.
  - destruct (String.eqb (id e) (id m)) eqn:E.
    + apply String.eqb_eq in E. intros [->|[->|Hx]].
      * left. reflexivity.
      * left. symmetry. apply Hsame. exact E.
      * right. exact Hx.
    + intros [->|[->|Hx]].
      * right. apply IH. left. reflexivity.
      * left. reflexivity.
      * right. apply IH. right. exact Hx.
Qed.

(** When rows with the same id are the same row, the map built from a list
    of rows holds every one of them. *)
Lemma mapSet_fold_complete (l acc : list Memory) (x : Memory) :
  (forall a b, In a l \/ In a acc -> In b l \/ In b acc -> id a = id b -> a = b) ->
  In x l \/ In x acc -> In x (List.fold_left mapSet l acc).
Proof.
  revert acc. induction l as [|m l IH]; intros acc Hsame; simpl; [tauto|].
  intros Hx. apply IH.
  - intros a b Ha Hb. apply Hsame.
    + destruct Ha as [Ha|Ha]; [left; right; exact Ha|]. apply mapSet_In in Ha.
      destruct Ha as [->|Ha]; [left; left; reflexivity|right; exact Ha].
    + destruct Hb as [Hb|Hb]; [left; right; exact Hb|]. apply mapSet_In in Hb.
      destruct Hb as [->|Hb]; [left; left; reflexivity|right; exact Hb].
  - destruct Hx as [[->|Hx]|Hx]; [right|left; exact Hx|right].
    + apply mapSet_keeps; [reflexivity|left; reflexivity].
    + apply mapSet_keeps; [|right; exact Hx].
      apply Hsame; [right; exact Hx|left; left; reflexivity].
Qed.

Lemma NoDup_ids_eq (rows : list Memory) (a b : Memory) :
  List.NoDup (List.map id rows) -> In a rows -> In b rows -> id a = id b -> a = b.
Proof.
  induction rows as [|r rows IH]; simpl; [tauto|].
  intros Hnd. apply List.NoDup_cons_iff in Hnd. destruct Hnd as [Hr Hnd].
  intros [->|Ha] [->|Hb] E; try reflexivity.
  - exfalso. apply Hr. rewrite E. apply List.in_map. exact Hb.
  - exfalso. apply Hr. rewrite <- E. apply List.in_map. exact Ha.
  - apply IH; assumption.
Qed.

Lemma searchMemories_In (rows : list Memory) (query : string) (limit : nat)
    (x : Memory) :
  In x (Repository.searchMemories rows query limit) -> In x rows.
Proof.
  unfold Repository.searchMemories. intros Hx. apply In_firstn in Hx.
  apply List.filter_In in Hx. tauto.
Qed.

(** The scored memories of a summary are retrieved rows that parse as
    learned content, each with its score. *)
Lemma allMemories_scoreAll (repository : list Memory) (q : RecallQuery) :
  allMemories (recallMemories repository q)
  = scoreAll q
      (List.fold_left mapSet
         (Repository.searchMemories repository (q_vendorName q)
            (match q_limit q with Some n => n | None => 50%nat end)
          ++ Repository.searchMemories repository (q_invoiceNumber q)
               (match q_limit q with Some n => n | None => 50%nat end))
         []).
Proof.
  unfold recallMemories.
  destruct (List.filter (isDuplicateCandidate q) _); reflexivity.
Qed.

Lemma allMemories_retrieved (repository : list Memory) (q : RecallQuery)
    (s : ScoredLearnedMemory) :
  In s (allMemories (recallMemories repository q)) ->
  Retrieved repository q (sm_memory s)
  /\ parseLearnedContent (sm_memory s) = Some (sm_content s)
  /\ score s = scoreMemory (sm_content s) (q_vendorName q) (q_invoiceNumber q)
                 (q_invoiceDate q).
Proof.
  rewrite allMemories_scoreAll, scoreAll_In. unfold Retrieved.
  intros (m & c & Hm & Hc & ->). simpl.
  apply mapSet_fold_In in Hm. destruct Hm as [Hm|[]].
  apply in_app_iff in Hm. auto.
Qed.

(** In a table with distinct ids, every retrieved row that parses is
    scored. *)
Lemma retrieved_allMemories (repository : list Memory) (q : RecallQuery)
    (s : ScoredLearnedMemory) :
  List.NoDup (List.map id repository) ->
  Retrieved repository q (sm_memory s) ->
  parseLearnedContent (sm_memory s) = Some (sm_content s) ->
  score s = scoreMemory (sm_content s) (q_vendorName q) (q_invoiceNumber q)
              (q_invoiceDate q) ->
  In s (allMemories (recallMemories repository q)).
Proof.
  intros Hnd Hr Hp Hs. rewrite allMemories_scoreAll, scoreAll_In.
  exists (sm_memory s), (sm_content s).
  split; [|split; [exact Hp|]].
  - apply mapSet_fold_complete.
    + intros a b [Ha|[]] [Hb|[]].
      apply (NoDup_ids_eq repository a b Hnd).
      * apply in_app_iff in Ha. destruct Ha as [Ha|Ha]; eapply searchMemories_In; exact Ha.
      * apply in_app_iff in Hb. destruct Hb as [Hb|Hb]; eapply searchMemories_In; exact Hb.
    + left. apply in_app_iff. exact Hr.
  - rewrite <- Hs. destruct s; reflexivity.
Qed.

(** C7.  [recallMemories] reports a duplicate exactly when some scored
    memory of category resolution has a vendor name equal to the query
    vendor ignoring case, the query's invoice number, and a non-empty
    invoice date.  Then the reason is the fixed text and [duplicateScore] is
    the score of such a memory that no other such memory exceeds.  When no
    scored memory meets the three conditions, no duplicate is reported, the
    score is 0 and there is no reason.  The scored memories are rows that
    one of the two searches returned and that parse as learned content, each
    with the score of its content; in a table with distinct ids (the id is
    the primary key) they are all of those rows, so that a duplicate is
    reported exactly when a retrieved row parses to a content of category
    resolution that meets the three conditions. *)
Theorem duplicate_detection (repository : list Memory) (q : RecallQuery) :
  let r := recallMemories repository q in
  let scoreFor c :=
    scoreMemory c (q_vendorName q) (q_invoiceNumber q) (q_invoiceDate q) in
  (duplicateDetected r = true <->
   exists s, In s (allMemories r) /\ DuplicateOf q s)
  /\ (duplicateDetected r = true ->
      duplicateReason r = Some duplicateReasonText
      /\ exists best, In best (allMemories r) /\ DuplicateOf q best
                      /\ duplicateScore r = score best
                      /\ forall s, In s (allMemories r) -> DuplicateOf q s ->
                                   score s <= score best)
  /\ (duplicateDetected r = false ->
      duplicateScore r = 0 /\ duplicateReason r = None)
  /\ ((forall s, In s (allMemories r) -> ~ DuplicateOf q s) ->
      duplicateDetected r = false)
  /\ (forall s, In s (allMemories r) ->
                Retrieved repository q (sm_memory s)
                /\ parseLearnedContent (sm_memory s) = Some (sm_content s)
                /\ score s = scoreFor (sm_content s))
  /\ (List.NoDup (List.map id repository) ->
      (forall row c, Retrieved repository q row -> parseLearnedContent row = Some c ->
                     In (mkScored row c (scoreFor c)) (allMemories r))
      /\ (duplicateDetected r = true <->
          exists row c, Retrieved repository q row
                        /\ parseLearnedContent row = Some c
                        /\ DuplicateOf q (mkScored row c (scoreFor c)))).
Proof.
  intros r scoreFor.
  assert (Hscored : forall s, In s (allMemories r) ->
                      Retrieved repository q (sm_memory s)
                      /\ parseLearnedContent (sm_memory s) = Some (sm_content s)
                      /\ score s = scoreFor (sm_content s)).
  { intros s. apply allMemories_retrieved. }
  assert (Hrest :
    (duplicateDetected r = true <->
     exists s, In s (allMemories r) /\ DuplicateOf q s)
    /\ (duplicateDetected r = true ->
        duplicateReason r = Some duplicateReasonText
        /\ exists best, In best (allMemories r) /\ DuplicateOf q best
                        /\ duplicateScore r = score best
                        /\ forall s, In s (allMemories r) -> DuplicateOf q s ->
                                     score s <= score best)
    /\ (duplicateDetected r = false ->
        duplicateScore r = 0 /\ duplicateReason r = None)
    /\ ((forall s, In s (allMemories r) -> ~ DuplicateOf q s) ->
        duplicateDetected r = false)).
  { clear Hscored. subst r. unfold recallMemories.
    set (scored := scoreAll q _).
    pose proof (duplicateCandidates_In q scored) as Hin.
    pose proof (sortByScore_sorted
                  (List.filter (fun m => category_eqb (category (sm_content m)) resolution)
                     scored)) as Hsorted.
    fold (filterByCategory scored resolution) in Hsorted.
    destruct (List.filter (isDuplicateCandidate q) (filterByCategory scored resolution))
      as [|best rest] eqn:Ecand; simpl.
    - split; [|split; [|split]].
      + split; [discriminate|]. intros (s & Hs & Hd).
        exfalso. apply (proj2 (Hin s)). auto.
      + discriminate.
      + intros _. split; reflexivity.
      + reflexivity.
    - assert (Hbest : In best scored /\ DuplicateOf q best).
      { apply Hin. left. reflexivity. }
      split; [|split; [|split]].
      + split; [|reflexivity]. intros _. exists best. exact Hbest.
      + intros _. split; [reflexivity|]. exists best.
        destruct Hbest as [Hb Hd].
        split; [exact Hb|]. split; [exact Hd|]. split; [reflexivity|].
        intros s Hs Hds.
        assert (Hcand : In s (best :: rest)) by (apply Hin; auto).
        rewrite <- Ecand in Hcand. apply List.filter_In in Hcand.
        eapply filter_sorted_head; [exact Hsorted|exact Ecand| |]; tauto.
      + discriminate.
      + intros Hnone. exfalso. destruct Hbest as [Hb Hd]. exact (Hnone best Hb Hd). }
  destruct Hrest as (Hiff & Hbest & Hnone & Hno).
  split; [exact Hiff|]. split; [exact Hbest|]. split; [exact Hnone|].
  split; [exact Hno|]. split; [exact Hscored|].
  intros Hnd.
  assert (Hall : forall row c, Retrieved repository q row ->
                               parseLearnedContent row = Some c ->
                               In (mkScored row c (scoreFor c)) (allMemories r)).
  { intros row c Hr Hp.
    apply (retrieved_allMemories repository q (mkScored row c (scoreFor c)) Hnd);
      [exact Hr|exact Hp|reflexivity]. }
  split; [exact Hall|].
  rewrite Hiff. split.
  - intros (s & Hs & Hd). destruct (Hscored s Hs) as (Hr & Hp & Hsc).
    exists (sm_memory s), (sm_content s). split; [exact Hr|]. split; [exact Hp|].
    unfold DuplicateOf in *. exact Hd.
  - intros (row & c & Hr & Hp & Hd). exists (mkScored row c (scoreFor c)).
    split; [apply Hall; assumption|exact Hd].
Qed.

End RecallTheorems.

(** A stored resolution memory for the same vendor and invoice number, with
    an invoice date: the recall for the Parts AG invoice reports a duplicate,
    with the fixed reason and the score 0.8 + 0.05 + 0.05.  A query for
    another invoice number reports none. *)
Lemma duplicate_detection_witness :
  let r := @recallMemories Scenario.platform [Scenario.resolutionMemory]
             Scenario.partsQuery in
  duplicateDetected r = true
  /\ duplicateReason r = Some duplicateReasonText
  /\ duplicateScore r == 0.9
  /\ duplicateDetected
       (@recallMemories Scenario.platform [Scenario.resolutionMemory]
          (mkQuery "Parts AG" "PA-7782" (Js.ValidDate 1700000000) None None))
     = false.
Proof.
  assert (Hnd : List.NoDup (List.map id [Scenario.resolutionMemory])).
  { repeat constructor. simpl. tauto. }
  destruct (@duplicate_detection Scenario.platform [Scenario.resolutionMemory]
              Scenario.partsQuery) as (_ & Hbest & _ & _ & _ & Htable).
  destruct (Htable Hnd) as [_ Hrow].
  assert (Hdup : duplicateDetected
                   (@recallMemories Scenario.platform [Scenario.resolutionMemory]
                      Scenario.partsQuery) = true).
  { apply Hrow. eexists Scenario.resolutionMemory, _.
    split; [left; left; reflexivity|]. split; [reflexivity|].
    split; [reflexivity|]. split; [exists "Parts AG"; split; reflexivity|].
    split; [reflexivity|]. eexists. split; [reflexivity|discriminate]. }
  split; [exact Hdup|]. split; [exact (proj1 (Hbest Hdup))|].
  split; vm_compute; reflexivity.
Defined.


(** The recall of the seeded store for the Parts AG invoice. *)
Lemma recall_score_witness :
  let r := @recallMemories Scenario.platform [Scenario.vatMemory] Scenario.partsQuery in
  exists s,
    In s (summaryMemories r)
    /\ parseLearnedContent (sm_memory s) = Some (sm_content s)
    /\ score s <= 1.
Proof.
  set (r := @recallMemories Scenario.platform [Scenario.vatMemory] Scenario.partsQuery).
  assert (Hin : exists s, In s (summaryMemories r)).
  { eexists. vm_compute. left. reflexivity. }
  destruct Hin as [s Hs]. exists s.
  destruct (@recall_score Scenario.platform [Scenario.vatMemory] Scenario.partsQuery s Hs)
    as (Hp & _ & Hle & _).
  auto.
Defined.

(** C8, as stated, fails: a stored confidence below 0 gives a score below
    0, whether the memory was seeded or written by [learnFromSignal] itself
    (an approval with feedback score -20 stores 0.85 - 1); and an empty
    stored vendor name and invoice number earn no bonus although they equal
    those of the query. *)
Lemma recall_score_counterexample :
  (exists s,
     In s (allMemories
             (@recallMemories Scenario.platform [Scenario.negativeMemory]
                Scenario.partsQuery))
     /\ score s < 0)
  /\ (exists s,
        In s (allMemories
                (@recallMemories Scenario.platform
                   (fst (fst (@learnFromSignal Scenario.platform 0
                                [Scenario.vatMemory] 0 Scenario.penaltySignal)))
                   Scenario.partsQuery))
        /\ score s < 0)
  /\ (vendorName Scenario.blankLearned = Some (q_vendorName Scenario.blankQuery)
      /\ invoiceNumber Scenario.blankLearned = Some (q_invoiceNumber Scenario.blankQuery)
      /\ @scoreMemory Scenario.platform Scenario.blankLearned
           (q_vendorName Scenario.blankQuery) (q_invoiceNumber Scenario.blankQuery)
           (q_invoiceDate Scenario.blankQuery)
         == confidence Scenario.blankLearned).
Proof.
  split; [|split].
  - eexists. split.
    + vm_compute. left. reflexivity.
    + vm_compute. reflexivity.
  - eexists. split.
    + vm_compute. left. reflexivity.
    + vm_compute. reflexivity.
  - repeat split.
Qed.

(** ** Apply *)

Lemma InBand_high (f : string) (v : Js.Value) (r : string) (conf : Q)
    (m : option string) :
  Js.geq conf HIGH_CONFIDENCE_THRESHOLD = true ->
  InBand (mkCorrection f v r conf m true).
Proof.
  intros Hh. apply geq_true in Hh. unfold HIGH_CONFIDENCE_THRESHOLD in Hh.
  unfold InBand. simpl. repeat split; intros; try discriminate; lra.
Qed.

Lemma InBand_medium (f : string) (v : Js.Value) (r : string) (conf : Q)
    (m : option string) :
  Js.geq conf HIGH_CONFIDENCE_THRESHOLD = false ->
  Js.geq conf MEDIUM_CONFIDENCE_THRESHOLD = true ->
  InBand (mkCorrection f v r conf m false).
Proof.
  intros Hh Hm. apply geq_false in Hh. apply geq_true in Hm.
  unfold HIGH_CONFIDENCE_THRESHOLD in Hh. unfold MEDIUM_CONFIDENCE_THRESHOLD in Hm.
  unfold InBand. simpl. repeat split; intros; try discriminate; lra.
Qed.

Lemma isHigh_applied (f i r : string) (conf : Q) :
  Js.geq conf HIGH_CONFIDENCE_THRESHOLD = true ->
  isHighConfidenceApplied (mkApplied f i conf true r) = true.
Proof. intros Hh. unfold isHighConfidenceApplied. simpl. exact Hh. Qed.

Lemma Banded_push_high (st : ApplyState) (h : Heap) (i : NormalizedInvoice)
    (f : string) (v : Js.Value) (r : string) (conf agg : Q)
    (mem : option ScoredLearnedMemory) (mid : string) :
  Banded st ->
  Js.geq conf HIGH_CONFIDENCE_THRESHOLD = true ->
  Banded (mkState h i
            (registerCorrection (st_corrections st) f v r conf mem true)
            (st_applied st ++ [mkApplied f mid conf true r]) agg).
Proof.
  intros [Hb He] Hh. unfold Banded, registerCorrection. simpl. split.
  - apply Forall_app. split; [exact Hb|].
    constructor; [|constructor]. apply InBand_high. exact Hh.
  - rewrite !existsb_app, He. simpl. rewrite isHigh_applied by exact Hh. reflexivity.
Qed.

Lemma Banded_push_medium (st : ApplyState) (h : Heap) (i : NormalizedInvoice)
    (f : string) (v : Js.Value) (r : string) (conf agg : Q)
    (mem : option ScoredLearnedMemory) :
  Banded st ->
  Js.geq conf HIGH_CONFIDENCE_THRESHOLD = false ->
  Js.geq conf MEDIUM_CONFIDENCE_THRESHOLD = true ->
  Banded (mkState h i
            (registerCorrection (st_corrections st) f v r conf mem false)
            (st_applied st) agg).
Proof.
  intros [Hb He] Hh Hm. unfold Banded, registerCorrection. simpl. split.
  - apply Forall_app. split; [exact Hb|].
    constructor; [|constructor]. apply InBand_medium; assumption.
  - rewrite !existsb_app, He. simpl. rewrite !orb_false_r. reflexivity.
Qed.

Lemma Banded_push_medium_record (st : ApplyState) (h : Heap) (i : NormalizedInvoice)
    (f : string) (v : Js.Value) (r : string) (conf agg : Q)
    (mem : option ScoredLearnedMemory) (mid : string) :
  Banded st ->
  Js.geq conf HIGH_CONFIDENCE_THRESHOLD = false ->
  Js.geq conf MEDIUM_CONFIDENCE_THRESHOLD = true ->
  Banded (mkState h i
            (registerCorrection (st_corrections st) f v r conf mem false)
            (st_applied st ++ [mkApplied f mid conf false r]) agg).
Proof.
  intros [Hb He] Hh Hm. unfold Banded, registerCorrection. simpl. split.
  - apply Forall_app. split; [exact Hb|].
    constructor; [|constructor]. apply InBand_medium; assumption.
  - rewrite !existsb_app, He. simpl. rewrite !orb_false_r. reflexivity.
Qed.

Lemma maybeApplyFieldFromMemory_Banded (st : ApplyState) (fld : string)
    (assign : Js.Value -> NormalizedInvoice -> NormalizedInvoice)
    (cur : option Js.Value) (mems : list ScoredLearnedMemory) :
  Banded st -> Banded (fst (maybeApplyFieldFromMemory st fld assign cur mems)).
Proof.
  intros Hb. unfold maybeApplyFieldFromMemory.
  destruct cur as [[]|]; simpl; try exact Hb;
    (destruct (List.find (hasField fld) mems) as [cand|]; simpl; [|exact Hb];
     destruct (Js.geq (confidence (sm_content cand)) HIGH_CONFIDENCE_THRESHOLD) eqn:Eh;
     [destruct (metaProposedValue cand); simpl; [|exact Hb];
      apply Banded_push_high; assumption|];
     destruct (Js.geq (confidence (sm_content cand)) MEDIUM_CONFIDENCE_THRESHOLD) eqn:Em;
     [|exact Hb];
     destruct (metaProposedValue cand); simpl; [|exact Hb];
     apply Banded_push_medium_record; assumption).
Qed.

Lemma serviceDateStep_Banded (input : ApplyInputContext) (st : ApplyState) :
  Banded st -> Banded (serviceDateStep input st).
Proof.
  intros Hb. unfold serviceDateStep.
  pose proof (maybeApplyFieldFromMemory_Banded st "serviceDate" set_serviceDate
                (inv_serviceDate (st_invoice st))
                (List.filter (hasField "serviceDate") (vendorMemories (in_recall input)))
                Hb) as Hm.
  destruct (maybeApplyFieldFromMemory _ _ _ _ _) as [st' [v delta]].
  simpl in *. exact Hm.
Qed.

Lemma vatStep_Banded (input : ApplyInputContext) (st : ApplyState) :
  Banded st -> Banded (vatStep input st).
Proof.
  intros Hb. unfold vatStep.
  destruct (detectVatIncluded (in_rawText input)); [|exact Hb].
  set (vatMem := List.find _ _).
  destruct (Js.geq (confidenceOr vatMem 0.75) HIGH_CONFIDENCE_THRESHOLD) eqn:Eh.
  - apply Banded_push_high; assumption.
  - destruct (Js.geq (confidenceOr vatMem 0.75) MEDIUM_CONFIDENCE_THRESHOLD) eqn:Em;
      [|exact Hb].
    apply Banded_push_medium; assumption.
Qed.

Lemma currencyStep_Banded (input : ApplyInputContext) (st : ApplyState) :
  Banded st -> Banded (currencyStep input st).
Proof.
  intros Hb. unfold currencyStep.
  destruct (negb (Js.truthy (inv_currency (st_invoice st)))); [|exact Hb].
  set (currencyMem := List.find _ _).
  destruct (match normalizeCurrencyFromText (in_rawText input) with
            | Some c => Some (Js.VStr c)
            | None => match currencyMem with
                      | Some m => metaProposedValue m
                      | None => None
                      end
            end) as [cur|]; [|exact Hb].
  destruct (Js.truthy cur); [|exact Hb].
  destruct (Js.geq (confidenceOr currencyMem 0.7) HIGH_CONFIDENCE_THRESHOLD) eqn:Eh.
  - destruct currencyMem as [m|].
    + apply Banded_push_high; assumption.
    + simpl in Eh. discriminate.
  - destruct (Js.geq (confidenceOr currencyMem 0.7) MEDIUM_CONFIDENCE_THRESHOLD) eqn:Em;
      [|exact Hb].
    apply Banded_push_medium; assumption.
Qed.

Lemma freightStep_Banded (input : ApplyInputContext) (st : ApplyState) (l : loc) :
  Banded st -> Banded (freightStep input st l).
Proof.
  intros Hb. unfold freightStep.
  destruct (st_heap st !! l) as [item|]; [|exact Hb].
  destruct (looksLikeFreight (Js.toLowerCase (li_description item))); [|exact Hb].
  set (freightMem := List.find _ _).
  destruct (Js.geq (confidenceOr freightMem 0.75) HIGH_CONFIDENCE_THRESHOLD) eqn:Eh.
  - apply Banded_push_high; assumption.
  - destruct (Js.geq (confidenceOr freightMem 0.75) MEDIUM_CONFIDENCE_THRESHOLD) eqn:Em;
      [|exact Hb].
    apply Banded_push_medium; assumption.
Qed.

Lemma freightLoop_Banded (input : ApplyInputContext) (ls : list loc) (st : ApplyState) :
  Banded st -> Banded (List.fold_left (freightStep input) ls st).
Proof.
  revert st. induction ls as [|l ls IH]; intros st Hb; simpl; [exact Hb|].
  apply IH. apply freightStep_Banded. exact Hb.
Qed.

Lemma skontoStep_Banded (input : ApplyInputContext) (st : ApplyState) :
  Banded st -> Banded (skontoStep input st).
Proof.
  intros Hb. unfold skontoStep.
  destruct (detectSkontoTerms (in_rawText input)) as [skonto|]; [|exact Hb].
  destruct (Js.nonEmpty skonto); [|exact Hb].
  set (skontoMem := List.find _ _).
  destruct (Js.geq (confidenceOr skontoMem 0.75) HIGH_CONFIDENCE_THRESHOLD) eqn:Eh.
  - apply Banded_push_high; assumption.
  - destruct (Js.geq (confidenceOr skontoMem 0.75) MEDIUM_CONFIDENCE_THRESHOLD) eqn:Em;
      [|exact Hb].
    apply Banded_push_medium; assumption.
Qed.

Lemma applyMemoriesToContext_Banded (heap : Heap) (input : ApplyInputContext) :
  let ctx := snd (applyMemoriesToContext heap input) in
  Forall InBand (proposedCorrections ctx)
  /\ existsb isHighConfidenceApplied (appliedMemories ctx)
     = existsb pc_applied (proposedCorrections ctx).
Proof.
  unfold applyMemoriesToContext. simpl.
  apply skontoStep_Banded, freightLoop_Banded, currencyStep_Banded,
    vatStep_Banded, serviceDateStep_Banded.
  split; [constructor|reflexivity].
Qed.

(** C9.  Every correction [applyMemoriesToContext] emits has confidence at
    least 0.7; one emitted with [applied = true] has confidence at least
    0.8, and one emitted with [applied = false] has confidence below 0.8.
    So nothing is auto-applied below 0.8 and nothing is emitted below
    0.7. *)
Theorem apply_confidence_bands (heap : Heap) (input : ApplyInputContext) :
  Forall
    (fun c =>
       0.7 <= pc_confidence c
       /\ (pc_applied c = true -> 0.8 <= pc_confidence c)
       /\ (pc_applied c = false -> pc_confidence c < 0.8))
    (proposedCorrections (snd (applyMemoriesToContext heap input))).
Proof.
  exact (proj1 (applyMemoriesToContext_Banded heap input)).
Qed.

(** ** Decide *)

Lemma decideNextAction_review (ctx : ApplyContext) :
  requiresHumanReview (decideNextAction ctx)
  = negb (negb (duplicateDetected (in_recall (ctx_input ctx)))
          && existsb isHighConfidenceApplied (appliedMemories ctx)
          && (length (List.filter isMediumSuggestion (proposedCorrections ctx)) =? 0)%nat).
Proof.
  unfold decideNextAction.
  destruct (duplicateDetected (in_recall (ctx_input ctx))),
    (existsb isHighConfidenceApplied (appliedMemories ctx)),
    (length (List.filter isMediumSuggestion (proposedCorrections ctx)) =? 0)%nat;
    reflexivity.
Qed.

Lemma no_medium_iff (l : list ProposedCorrection) :
  (length (List.filter isMediumSuggestion l) =? 0)%nat = true
  <-> forall c, In c l -> pc_applied c = false ->
                ~ (0.7 <= pc_confidence c /\ pc_confidence c < 0.8).
Proof.
  rewrite Nat.eqb_eq, length_zero_iff_nil. split.
  - intros Hnil c Hc Ha [Hlo Hhi].
    assert (Hin : In c (List.filter isMediumSuggestion l)).
    { apply List.filter_In. split; [exact Hc|].
      unfold isMediumSuggestion. rewrite Ha. simpl.
      rewrite andb_true_iff. split; [apply geq_true|apply lt_true]; assumption. }
    rewrite Hnil in Hin. destruct Hin.
  - intros Hall. destruct (List.filter isMediumSuggestion l) as [|c rest] eqn:E;
      [reflexivity|].
    exfalso.
    assert (Hin : In c (List.filter isMediumSuggestion l)) by (rewrite E; left; reflexivity).
    apply List.filter_In in Hin. destruct Hin as [Hc Hm].
    unfold isMediumSuggestion in Hm.
    rewrite !andb_true_iff, negb_true_iff, geq_true, lt_true in Hm.
    destruct Hm as [[Ha Hlo] Hhi]. exact (Hall c Hc Ha (conj Hlo Hhi)).
Qed.

Lemma applied_correction_iff (heap : Heap) (input : ApplyInputContext) :
  let ctx := snd (applyMemoriesToContext heap input) in
  existsb isHighConfidenceApplied (appliedMemories ctx) = true
  <-> exists c, In c (proposedCorrections ctx)
                /\ pc_applied c = true /\ 0.8 <= pc_confidence c.
Proof.
  intros ctx. destruct (applyMemoriesToContext_Banded heap input) as [Hb He].
  fold ctx in Hb, He. rewrite He, existsb_exists. split.
  - intros (c & Hc & Ha). exists c. repeat split; try assumption.
    rewrite List.Forall_forall in Hb. apply (Hb c Hc). exact Ha.
  - intros (c & Hc & Ha & _). exists c. auto.
Qed.

(** C1.  On the result of [applyMemoriesToContext], [decideNextAction]
    returns [requiresHumanReview = false] exactly when recall detected no
    duplicate, some applied correction has confidence at least 0.8, and no
    correction that was proposed without being applied has its confidence
    in [0.7, 0.8).  On any context, a detected duplicate gives
    [requiresHumanReview = true]. *)
Theorem decide_review_rule :
  (forall (heap : Heap) (input : ApplyInputContext),
     let ctx := snd (applyMemoriesToContext heap input) in
     requiresHumanReview (decideNextAction ctx) = false
     <-> (duplicateDetected (in_recall input) = false
          /\ (exists c, In c (proposedCorrections ctx)
                        /\ pc_applied c = true /\ 0.8 <= pc_confidence c)
          /\ (forall c, In c (proposedCorrections ctx) -> pc_applied c = false ->
                        ~ (0.7 <= pc_confidence c /\ pc_confidence c < 0.8))))
  /\ (forall ctx : ApplyContext,
        duplicateDetected (in_recall (ctx_input ctx)) = true ->
        requiresHumanReview (decideNextAction ctx) = true).
Proof.
  split.
  - intros heap input ctx.
    rewrite decideNextAction_review, negb_false_iff, !andb_true_iff, negb_true_iff.
    rewrite no_medium_iff.
    subst ctx. rewrite (applied_correction_iff heap input).
    unfold applyMemoriesToContext. simpl. tauto.
  - intros ctx Hd. rewrite decideNextAction_review, Hd. reflexivity.
Qed.

(** ** The repository *)

Lemma getMemoryById_Some (rows : list Memory) (i : string) (m : Memory) :
  Repository.getMemoryById rows i = Some m -> id m = i /\ In m rows.
Proof.
  induction rows as [|r rows IH]; simpl; [discriminate|].
  destruct (String.eqb (id r) i) eqn:E.
  - intros [= <-]. apply String.eqb_eq in E. auto.
  - intros Hm. destruct (IH Hm). auto.
Qed.

Lemma getMemoryById_saveMemory_eq (rows : list Memory) (m : Memory) :
  Repository.getMemoryById (Repository.saveMemory rows m) (id m) = Some m.
Proof.
  induction rows as [|r rows IH]; simpl.
  - rewrite String.eqb_refl. reflexivity.
  - destruct (String.eqb (id r) (id m)) eqn:E; simpl.
    + rewrite String.eqb_refl. reflexivity.
    + rewrite E. exact IH.
Qed.

Lemma getMemoryById_saveMemory_ne (rows : list Memory) (m : Memory) (i : string) :
  id m <> i ->
  Repository.getMemoryById (Repository.saveMemory rows m) i
  = Repository.getMemoryById rows i.
Proof.
  intros Hne. apply String.eqb_neq in Hne.
  induction rows as [|r rows IH]; simpl.
  - rewrite Hne. reflexivity.
  - destruct (String.eqb (id r) (id m)) eqn:E; simpl.
    + apply String.eqb_eq in E. rewrite E, Hne. reflexivity.
    + destruct (String.eqb (id r) i); [reflexivity|exact IH].
Qed.

Lemma saveMemory_fresh (rows : list Memory) (m : Memory) :
  Repository.getMemoryById rows (id m) = None ->
  Repository.saveMemory rows m = rows ++ [m].
Proof.
  induction rows as [|r rows IH]; simpl; [reflexivity|].
  destruct (String.eqb (id r) (id m)); [discriminate|].
  intros Hn. rewrite IH by exact Hn. reflexivity.
Qed.

(** ** Learn *)

Section LearnFacts.
Context `{Platform}.

Lemma learn_existing_step (now : Z) (repository : list Memory) (uuids : nat)
    (signal : LearningSignal) (memoryId : string) (approved : bool)
    (existing : Memory) :
  d_memoryId (ev_details (event signal)) = Some memoryId ->
  memoryId <> "" ->
  d_approved (ev_details (event signal)) = Some approved ->
  Repository.getMemoryById repository memoryId = Some existing ->
  uuidv4 uuids <> memoryId ->
  exists updated p,
    snd (learnFromSignal now repository uuids signal) = Some updated
    /\ Repository.getMemoryById
         (fst (fst (learnFromSignal now repository uuids signal))) memoryId
       = Some updated
    /\ id updated = memoryId
    /\ content updated = Json p
    /\ p_confidence p
       = Some (updatedConfidence approved (storedConfidence existing) signal)
    /\ p_usageCount p = Some (storedUsage existing + 1).
Proof.
  intros Hid Hne Happ Hget Hfresh.
  destruct (getMemoryById_Some _ _ _ Hget) as [Hidm _].
  apply nonEmpty_true in Hne.
  unfold learnFromSignal. rewrite Hid, Happ, Hne, Hget. simpl.
  destruct (inferCategory _ _ _) as [cat storedField].
  match goal with
  | |- context [mkMemory (id existing) (kind existing) (Json ?p) _ _ _] =>
      set (updatedP := p)
  end.
  set (updatedMemory := mkMemory (id existing) (kind existing) (Json updatedP)
                          (createdAt existing) now (source existing)).
  assert (Hconf : p_confidence updatedP
                  = Some (updatedConfidence approved (storedConfidence existing) signal)).
  { subst updatedP. simpl. unfold updatedConfidence, storedConfidence, readConfidence, scoreOf.
    destruct (content existing); reflexivity. }
  assert (Huse : p_usageCount updatedP = Some (storedUsage existing + 1)).
  { subst updatedP. simpl. unfold storedUsage, readUsage.
    destruct (content existing); reflexivity. }
  assert (Hstored : Repository.getMemoryById
                      (Repository.saveMemory repository updatedMemory) memoryId
                    = Some updatedMemory).
  { rewrite <- Hidm. apply (getMemoryById_saveMemory_eq repository updatedMemory). }
  destruct (_ || _); simpl.
  - exists updatedMemory, updatedP. repeat split; try assumption.
    rewrite getMemoryById_saveMemory_ne by exact Hfresh. exact Hstored.
  - exists updatedMemory, updatedP. repeat split; assumption.
Qed.

End LearnFacts.

Section LearnTheorems.
Context `{Platform}.

Lemma learnFromSignal_uuids (now : Z) (repository : list Memory) (uuids : nat)
    (signal : LearningSignal) :
  (uuids <= snd (fst (learnFromSignal now repository uuids signal)) <= S uuids)%nat.
Proof.
  unfold learnFromSignal.
  destruct (d_memoryId (ev_details (event signal))) as [memoryId|]; [|simpl; lia].
  destruct (d_approved (ev_details (event signal))) as [approved|]; [|simpl; lia].
  destruct (Js.nonEmpty memoryId); simpl; [|lia].
  destruct (Repository.getMemoryById repository memoryId) as [existing|];
    destruct (inferCategory _ _ _) as [cat storedField]; simpl; [|lia].
  destruct (_ || _); simpl; lia.
Qed.

(** [n] calls in a row, when none of the identifiers they can draw is the
    signalled memory id: each call applies the update rule to what the call
    before it stored. *)
Lemma learnRepeatedly_stored (now : Z) (repository : list Memory) (uuids : nat)
    (signal : LearningSignal) (memoryId : string) (approved : bool)
    (existing : Memory) :
  d_memoryId (ev_details (event signal)) = Some memoryId ->
  memoryId <> "" ->
  d_approved (ev_details (event signal)) = Some approved ->
  Repository.getMemoryById repository memoryId = Some existing ->
  forall n,
    (forall k, (uuids <= k < uuids + n)%nat -> uuidv4 k <> memoryId) ->
    (uuids <= snd (learnRepeatedly n now repository uuids signal) <= uuids + n)%nat
    /\ exists m,
         Repository.getMemoryById (fst (learnRepeatedly n now repository uuids signal))
           memoryId = Some m
         /\ storedConfidence m
            = Nat.iter n (fun c => updatedConfidence approved c signal)
                (storedConfidence existing).
Proof.
  intros Hid Hne Happ Hget n. induction n as [|n IH]; intros Hfresh; simpl.
  - split; [lia|]. exists existing. auto.
  - destruct IH as (Hu & m & Hm & Hc); [intros k Hk; apply Hfresh; lia|].
    pose proof (learnFromSignal_uuids now
                  (fst (learnRepeatedly n now repository uuids signal))
                  (snd (learnRepeatedly n now repository uuids signal)) signal) as Hstep.
    destruct (learnRepeatedly n now repository uuids signal) as [repository' uuids'].
    simpl in Hm, Hu, Hstep.
    assert (Hf : uuidv4 uuids' <> memoryId) by (apply Hfresh; lia).
    destruct (learn_existing_step now repository' uuids' signal memoryId approved m
                Hid Hne Happ Hm Hf)
      as (updated & p & _ & Hstored & _ & Hcontent & Hconf & _).
    split; [lia|].
    exists updated. split; [exact Hstored|].
    unfold storedConfidence at 1. unfold readConfidence.
    rewrite Hcontent, Hconf, Hc. reflexivity.
Qed.

Lemma approve_iter_le_cap (signal : LearningSignal) (c : Q) (n : nat) :
  Nat.iter (S n) (fun x => updatedConfidence true x signal) c <= 0.95.
Proof. simpl. unfold updatedConfidence. apply Q.le_min_r. Qed.

Lemma approve_step_ge (signal : LearningSignal) (x : Q) :
  0 <= scoreOf signal -> x <= 0.95 -> x <= updatedConfidence true x signal.
Proof.
  intros Hs Hx. unfold updatedConfidence.
  destruct (Q.min_spec (x + 0.05 * scoreOf signal) 0.95) as [[_ E]|[_ E]];
    rewrite E; lra.
Qed.

Lemma approve_iter_ge (signal : LearningSignal) (c : Q) (n : nat) :
  0 <= scoreOf signal -> c <= 0.95 ->
  c <= Nat.iter n (fun x => updatedConfidence true x signal) c
  /\ Nat.iter n (fun x => updatedConfidence true x signal) c <= 0.95.
Proof.
  intros Hs Hc. induction n as [|n [IH1 IH2]]; simpl.
  - split; lra.
  - split; [|unfold updatedConfidence; apply Q.le_min_r].
    eapply Qle_trans; [exact IH1|]. apply approve_step_ge; assumption.
Qed.

Lemma inject_nat_succ (n : nat) :
  inject_Z (Z.of_nat (S n)) == inject_Z (Z.of_nat n) + 1.
Proof. rewrite Nat2Z.inj_succ. unfold Z.succ. rewrite inject_Z_plus. reflexivity. Qed.

(** With a score of at least 1 every approval adds at least 0.05, up to the
    cap. *)
Lemma approve_iter_reaches (signal : LearningSignal) (c : Q) (n : nat) :
  1 <= scoreOf signal ->
  Qmin (c + inject_Z (Z.of_nat (S n)) * 0.05) 0.95
  <= Nat.iter (S n) (fun x => updatedConfidence true x signal) c.
Proof.
  intros Hs. induction n as [|n IH].
  - simpl. unfold updatedConfidence.
    assert (E0 : inject_Z (Z.of_nat 1) == 1) by reflexivity.
    set (k := inject_Z (Z.of_nat 1)) in *. clearbody k.
    destruct (Q.min_spec (c + 0.05 * scoreOf signal) 0.95) as [[H1 E]|[H1 E]]; rewrite E;
      destruct (Q.min_spec (c + k * 0.05) 0.95) as [[H2 E']|[H2 E']]; rewrite E';
      rewrite E0 in *; lra.
  - change (Nat.iter (S (S n)) (fun x => updatedConfidence true x signal) c)
      with (updatedConfidence true
              (Nat.iter (S n) (fun x => updatedConfidence true x signal) c) signal).
    set (x := Nat.iter (S n) _ c) in *. clearbody x.
    pose proof (inject_nat_succ (S n)) as Hsucc.
    set (k := inject_Z (Z.of_nat (S n))) in *.
    set (k' := inject_Z (Z.of_nat (S (S n)))) in *. clearbody k k'.
    unfold updatedConfidence.
    destruct (Q.min_spec (c + k * 0.05) 0.95) as [[H1 E1]|[H1 E1]]; rewrite E1 in IH;
      destruct (Q.min_spec (c + k' * 0.05) 0.95) as [[H2 E2]|[H2 E2]]; rewrite E2;
      destruct (Q.min_spec (x + 0.05 * scoreOf signal) 0.95) as [[H3 E3]|[H3 E3]];
      rewrite E3; rewrite Hsucc in *; lra.
Qed.

(** After enough approvals the sum passes 0.95. *)
Lemma approvals_reach_cap (c : Q) :
  exists N : nat, forall n, (N <= n)%nat ->
    0.95 <= c + inject_Z (Z.of_nat n) * 0.05.
Proof.
  set (k := (0.95 - c) * 20).
  exists (Z.to_nat (Qceiling k)). intros n Hn.
  assert (Hk : k <= inject_Z (Z.of_nat n)).
  { eapply Qle_trans; [apply Qle_ceiling|].
    rewrite <- Zle_Qle. lia. }
  subst k. lra.
Qed.

(** C4 (amended).  For a signal whose [memoryId] names a stored memory (and
    is not the identifier that the call can draw from [uuidv4]),
    [learnFromSignal] stores under that id a content whose confidence is
    [min(c + delta, 0.95)] on approval and [max(c - delta, 0)] on rejection,
    with [delta = 0.05 * feedbackScore] and [feedbackScore] defaulting to 1,
    and whose usage count is one more than before.  What an approval stores
    never exceeds 0.95, for any score.  With a score that is not negative an
    approval never lowers a confidence of at most 0.95.  In a row of
    approvals each call applies the rule to what the call before it stored;
    with a score of at least 1 (the default, and the score the orchestrator
    sends with an approval) and a stored confidence that is not negative,
    the stored confidence is 0.95 from some number of approvals on. *)
Theorem learn_confidence_update (now : Z) (repository : list Memory) (uuids : nat)
    (signal : LearningSignal) (memoryId : string) (approved : bool)
    (existing : Memory) :
  d_memoryId (ev_details (event signal)) = Some memoryId ->
  memoryId <> "" ->
  d_approved (ev_details (event signal)) = Some approved ->
  Repository.getMemoryById repository memoryId = Some existing ->
  uuidv4 uuids <> memoryId ->
  let c := storedConfidence existing in
  let score := match feedbackScore signal with Some s => s | None => 1 end in
  let delta := 0.05 * score in
  let result := learnFromSignal now repository uuids signal in
  let after n := fst (learnRepeatedly n now repository uuids signal) in
  let fresh n := forall k, (uuids <= k < uuids + n)%nat -> uuidv4 k <> memoryId in
  (exists updated p,
     snd result = Some updated
     /\ Repository.getMemoryById (fst (fst result)) memoryId = Some updated
     /\ content updated = Json p
     /\ p_confidence p
        = Some (if approved then Qmin (c + delta) 0.95 else Qmax (c - delta) 0)
     /\ (approved = true -> Qmin (c + delta) 0.95 <= 0.95)
     /\ (approved = true -> 0 <= score -> c <= 0.95 -> c <= Qmin (c + delta) 0.95)
     /\ p_usageCount p = Some (storedUsage existing + 1))
  /\ (approved = true ->
      (forall n, fresh (S n) ->
         exists m m',
           Repository.getMemoryById (after n) memoryId = Some m
           /\ Repository.getMemoryById (after (S n)) memoryId = Some m'
           /\ storedConfidence m' = Qmin (storedConfidence m + delta) 0.95
           /\ storedConfidence m' <= 0.95
           /\ (0 <= score -> c <= 0.95 ->
               c <= storedConfidence m /\ storedConfidence m <= storedConfidence m'))
      /\ (1 <= score -> 0 <= c ->
          exists N, forall n, (N <= n)%nat -> fresh n ->
            exists m,
              Repository.getMemoryById (after n) memoryId = Some m
              /\ storedConfidence m == 0.95)).
Proof.
  intros Hid Hne Happ Hget Hfresh c score delta result after fresh. split.
  - destruct (learn_existing_step now repository uuids signal memoryId approved
                existing Hid Hne Happ Hget Hfresh)
      as (updated & p & Hres & Hstored & _ & Hcontent & Hconf & Huse).
    exists updated, p.
    split; [exact Hres|]. split; [exact Hstored|]. split; [exact Hcontent|].
    split; [exact Hconf|]. split; [intros _; apply Q.le_min_r|].
    split; [|exact Huse].
    intros _ Hs Hc. apply (approve_step_ge signal c Hs Hc).
  - intros ->. split.
    + intros n Hn.
      destruct (learnRepeatedly_stored now repository uuids signal memoryId true
                  existing Hid Hne Happ Hget n) as (_ & m & Hm & Hc);
        [intros k Hk; apply Hn; lia|].
      destruct (learnRepeatedly_stored now repository uuids signal memoryId true
                  existing Hid Hne Happ Hget (S n) Hn) as (_ & m' & Hm' & Hc').
      exists m, m'. split; [exact Hm|]. split; [exact Hm'|].
      assert (Hstep : storedConfidence m' = Qmin (storedConfidence m + delta) 0.95).
      { rewrite Hc', Hc. reflexivity. }
      split; [exact Hstep|]. split; [rewrite Hstep; apply Q.le_min_r|].
      intros Hs Hle.
      destruct (approve_iter_ge signal c n Hs Hle) as [Hlow Hhigh].
      fold c in Hc. rewrite <- Hc in Hlow, Hhigh. split; [exact Hlow|].
      rewrite Hstep. apply (approve_step_ge signal _ Hs Hhigh).
    + intros Hs _.
      destruct (approvals_reach_cap c) as [N HN].
      exists (S N). intros n Hle Hn.
      destruct (learnRepeatedly_stored now repository uuids signal memoryId true
                  existing Hid Hne Happ Hget n Hn) as (_ & m & Hm & Hc).
      exists m. split; [exact Hm|]. rewrite Hc.
      destruct n as [|n]; [lia|].
      pose proof (approve_iter_reaches signal c n Hs) as Hlow.
      pose proof (approve_iter_le_cap signal c n) as Hhigh.
      specialize (HN (S n) ltac:(lia)).
      fold c in Hlow, Hhigh |- *.
      destruct (Q.min_spec (c + inject_Z (Z.of_nat (S n)) * 0.05) 0.95)
        as [[Hlt E]|[_ E]]; rewrite E in Hlow; [lra|].
      apply Qle_antisym; assumption.
Qed.

End LearnTheorems.

(** An approval of the seeded VAT memory: 0.85 becomes 0.90, and a second
    approval stores what the rule gives for 0.90. *)
Lemma learn_confidence_update_witness :
  (exists updated p,
     snd (@learnFromSignal Scenario.platform 0 [Scenario.vatMemory] 0
            Scenario.approveVatSignal) = Some updated
     /\ content updated = Json p
     /\ p_confidence p
        = Some (Qmin (storedConfidence Scenario.vatMemory + 0.05 * 1) 0.95)
     /\ p_usageCount p = Some (storedUsage Scenario.vatMemory + 1))
  /\ exists m m',
       Repository.getMemoryById
         (fst (@learnRepeatedly Scenario.platform 1 0 [Scenario.vatMemory] 0
                 Scenario.approveVatSignal)) "mem-vat" = Some m
       /\ Repository.getMemoryById
            (fst (@learnRepeatedly Scenario.platform 2 0 [Scenario.vatMemory] 0
                    Scenario.approveVatSignal)) "mem-vat" = Some m'
       /\ storedConfidence m' = Qmin (storedConfidence m + 0.05 * 1) 0.95.
Proof.
  assert (Hfresh : forall k, @uuidv4 Scenario.platform k <> "mem-vat").
  { intros k Hk. simpl in Hk. discriminate Hk. }
  assert (Hne : "mem-vat" <> "") by discriminate.
  destruct (@learn_confidence_update Scenario.platform 0 [Scenario.vatMemory] 0
              Scenario.approveVatSignal "mem-vat" true Scenario.vatMemory
              eq_refl Hne eq_refl eq_refl (Hfresh 0%nat))
    as [(updated & p & Hres & _ & Hcontent & Hconf & _ & _ & Huse) [Hrow _]];
    [reflexivity|].
  split.
  - exists updated, p.
    split; [exact Hres|]. split; [exact Hcontent|]. split; [exact Hconf|exact Huse].
  - destruct (Hrow 1%nat (fun k _ => Hfresh k)) as (m & m' & Hm & Hm' & Hstep & _).
    exists m, m'. split; [exact Hm|]. split; [exact Hm'|exact Hstep].
Defined.

(** C4, as stated, fails for a score that is not positive: approvals with
    the score -20 take the stored 0.85 to -0.15 and, after three of them, to
    -2.15, away from 0.95 and below 0. *)
Lemma learn_confidence_update_counterexample :
  d_approved (ev_details (event Scenario.penaltySignal)) = Some true
  /\ storedConfidence Scenario.vatMemory == 0.85
  /\ exists m1 m3,
       Repository.getMemoryById
         (fst (@learnRepeatedly Scenario.platform 1 0 [Scenario.vatMemory] 0
                 Scenario.penaltySignal)) "mem-vat" = Some m1
       /\ storedConfidence m1 == -0.15
       /\ Repository.getMemoryById
            (fst (@learnRepeatedly Scenario.platform 3 0 [Scenario.vatMemory] 0
                    Scenario.penaltySignal)) "mem-vat" = Some m3
       /\ storedConfidence m3 == -2.15
       /\ ~ storedConfidence Scenario.vatMemory <= storedConfidence m3.
Proof.
  split; [reflexivity|]. split; [reflexivity|].
  eexists. eexists.
  split; [vm_compute; reflexivity|]. split; [vm_compute; reflexivity|].
  split; [vm_compute; reflexivity|]. split; [vm_compute; reflexivity|].
  vm_compute. intros Hle. apply Hle. reflexivity.
Qed.

(** C2, the code at a failing input.  A stored VAT memory at confidence
    0.85 drives an applied correction of [taxAmount]; the reviewer rejects
    it.  The orchestrator passes [feedbackScore = -1] with
    [approved = false], [learnFromSignal] subtracts [0.05 * -1], and the
    stored confidence rises to 0.90; the update is labelled [decay]. *)
Theorem rejection_raises_confidence :
  let run :=
    @processInvoiceWithMemory Scenario.platform 0 Scenario.seededWorld
      Scenario.partsInvoice Scenario.partsText (Some Scenario.rejectTax) in
  Repository.getMemoryById (w_repository Scenario.seededWorld) "mem-vat"
  = Some Scenario.vatMemory
  /\ storedConfidence Scenario.vatMemory == 0.85
  /\ (exists m,
        Repository.getMemoryById (w_repository (fst run)) "mem-vat" = Some m
        /\ storedConfidence m == 0.9)
  /\ (exists u,
        out_memoryUpdates (snd run) = [u]
        /\ mu_action u = decay
        /\ mu_previousConfidence u == 0.85
        /\ mu_newConfidence u == 0.9).
Proof.
  split; [reflexivity|]. split; [reflexivity|]. split.
  - eexists. split; vm_compute; reflexivity.
  - eexists. split; [vm_compute; reflexivity|].
    repeat split.
Qed.

(** The same on any stored memory: a rejection as the orchestrator signals
    it adds 0.05 to a confidence that is not below -0.05. *)
Lemma rejection_signal_adds (signal : LearningSignal) (c : Q) :
  feedbackScore signal = Some (-1) -> - 0.05 <= c ->
  updatedConfidence false c signal == c + 0.05.
Proof.
  intros Hs Hc. unfold updatedConfidence, scoreOf. rewrite Hs.
  split_minmax; lra.
Qed.

(** C5, the code at a failing input.  The signal carries a resolution
    status and the duplicate flag.  On the empty store the create path
    saves the one new memory and returns: no resolution memory exists.  The
    same signal again takes the update path, which does create one. *)
Theorem create_path_skips_resolution :
  let first := @learnFromSignal Scenario.platform 0 [] 0 Scenario.resolutionSignal in
  let second :=
    @learnFromSignal Scenario.platform 0 (fst (fst first)) (snd (fst first))
      Scenario.resolutionSignal in
  d_resolutionStatus (ev_details (event Scenario.resolutionSignal)) = Some status_approved
  /\ d_isDuplicate (ev_details (event Scenario.resolutionSignal)) = Some true
  /\ (exists m, snd first = Some m /\ fst (fst first) = [m]
                /\ isResolutionMemory m = false)
  /\ length (fst (fst second)) = 2%nat
  /\ existsb isResolutionMemory (fst (fst second)) = true.
Proof.
  split; [reflexivity|]. split; [reflexivity|]. split.
  - eexists. split; [vm_compute; reflexivity|].
    split; vm_compute; reflexivity.
  - split; vm_compute; reflexivity.
Qed.

(** C3, the code at a failing input.  The invoice of the caller holds the
    line item at location 1, without a SKU.  With a vendor memory for
    [freightSku] at confidence 0.85, [applyMemoriesToContext] writes the SKU
    into that very object: after the call the caller's line item carries
    ["FREIGHT"]. *)
Theorem apply_writes_callers_line_item :
  let heap' := fst (applyMemoriesToContext Scenario.freightHeap Scenario.freightInput) in
  In 1%positive (inv_lineItems (in_invoice Scenario.freightInput))
  /\ option_map li_sku (Scenario.freightHeap !! 1%positive) = Some None
  /\ option_map li_sku (heap' !! 1%positive) = Some (Some (Js.VStr "FREIGHT")).
Proof.
  split; [left; reflexivity|]. split; vm_compute; reflexivity.
Qed.

(** ** The orchestrator *)

Section OrchestratorFacts.
Context `{Platform}.

Lemma includesField_In (l : list string) (s : string) :
  includesField l s = true <-> In s l.
Proof.
  unfold includesField. rewrite existsb_exists. split.
  - intros (x & Hx & He). apply String.eqb_eq in He. subst x. exact Hx.
  - intros Hs. exists s. split; [exact Hs|apply String.eqb_refl].
Qed.

Lemma learnFromSignal_id (now : Z) (repository : list Memory) (uuids : nat)
    (signal : LearningSignal) (u : Memory) :
  snd (learnFromSignal now repository uuids signal) = Some u ->
  d_memoryId (ev_details (event signal)) = Some (id u).
Proof.
  unfold learnFromSignal.
  destruct (d_memoryId (ev_details (event signal))) as [memoryId|]; [|discriminate].
  destruct (d_approved (ev_details (event signal))) as [approved|]; [|discriminate].
  destruct (Js.nonEmpty memoryId); simpl; [|discriminate].
  destruct (Repository.getMemoryById repository memoryId) as [existing|] eqn:Hget.
  - destruct (getMemoryById_Some _ _ _ Hget) as [Hid _].
    destruct (inferCategory _ _ _) as [cat storedField].
    destruct (_ || _); simpl; intros [= <-]; simpl; rewrite Hid; reflexivity.
  - destruct (inferCategory _ _ _) as [cat storedField].
    simpl. intros [= <-]. reflexivity.
Qed.

Lemma learnFromSignal_returns (now : Z) (repository : list Memory) (uuids : nat)
    (signal : LearningSignal) (memoryId : string) (approved : bool) :
  d_memoryId (ev_details (event signal)) = Some memoryId ->
  d_approved (ev_details (event signal)) = Some approved ->
  match snd (learnFromSignal now repository uuids signal) with
  | Some u => id u = memoryId
  | None => memoryId = ""
  end.
Proof.
  intros Hid Happ.
  pose proof (learnFromSignal_id now repository uuids signal) as Hu.
  destruct (snd (learnFromSignal now repository uuids signal)) as [u|] eqn:E.
  - specialize (Hu u eq_refl). congruence.
  - revert E. unfold learnFromSignal. rewrite Hid, Happ.
    destruct memoryId as [|a rest]; [reflexivity|]. simpl.
    destruct (Repository.getMemoryById repository (String a rest)) as [existing|];
      destruct (inferCategory _ _ _) as [cat storedField]; simpl;
      [destruct (_ || _); simpl|]; discriminate.
Qed.

(** One turn of the feedback loop: for a field that is not listed nothing
    happens; for a listed field at most one entry is appended, made from
    this correction, and one is appended whenever the memory id sent to Learn
    is not empty. *)
Lemma feedbackStep_entries (now : Z) (invoice : NormalizedInvoice)
    (recallResult : RecallSummary) (fb : HumanFeedbackInput)
    (acc : (list Memory * nat) * list MemoryUpdate) (c : ProposedCorrection) :
  (listedField fb c = false
   /\ feedbackStep now invoice recallResult fb acc c = acc)
  \/ (listedField fb c = true
      /\ ((snd (feedbackStep now invoice recallResult fb acc c) = snd acc
           /\ (pc_memoryId c = Some "" \/ exists k, uuidv4 k = ""))
          \/ exists u,
               snd (feedbackStep now invoice recallResult fb acc c) = snd acc ++ [u]
               /\ EntryOf fb c u)).
Proof.
  destruct acc as [[repository uuids] updates]. unfold feedbackStep, listedField, EntryOf.
  destruct (negb (includesField (approvedCorrections fb) (pc_field c))
            && negb (includesField (rejectedCorrections fb) (pc_field c))) eqn:Eno.
  - left. split; [|reflexivity].
    destruct (includesField (approvedCorrections fb) (pc_field c)),
      (includesField (rejectedCorrections fb) (pc_field c)); (discriminate || reflexivity).
  - right.
    assert (Hl : includesField (approvedCorrections fb) (pc_field c)
                 || includesField (rejectedCorrections fb) (pc_field c) = true).
    { destruct (includesField (approvedCorrections fb) (pc_field c)),
        (includesField (rejectedCorrections fb) (pc_field c)); (discriminate || reflexivity). }
    split; [exact Hl|].
    destruct (pc_memoryId c) as [i|] eqn:Ei;
      match goal with
      | |- context [learnFromSignal ?n ?r ?k ?s] =>
          pose proof (learnFromSignal_returns n r k s _ _ eq_refl eq_refl) as Hret;
          destruct (learnFromSignal n r k s) as [[repository' uuids'] [u|]]
      end; cbn [fst snd] in *.
    + right. eexists. split; [reflexivity|]. cbn [mu_action mu_memoryId].
      split; [reflexivity|]. split; [exact Hl|]. intros j [= <-]. exact Hret.
    + left. split; [reflexivity|]. left. rewrite Hret. reflexivity.
    + right. eexists. split; [reflexivity|]. cbn [mu_action mu_memoryId].
      split; [reflexivity|]. split; [exact Hl|]. intros j [=].
    + left. split; [reflexivity|]. right. eexists. exact Hret.
Qed.

Lemma feedbackLoop_entries (now : Z) (invoice : NormalizedInvoice)
    (recallResult : RecallSummary) (fb : HumanFeedbackInput)
    (cs : list ProposedCorrection)
    (acc : (list Memory * nat) * list MemoryUpdate) :
  exists made us,
    snd (List.fold_left (feedbackStep now invoice recallResult fb) cs acc)
    = snd acc ++ us
    /\ sublist made cs
    /\ Forall2 (EntryOf fb) made us
    /\ ((forall k, uuidv4 k <> "") ->
        (forall c, In c cs -> pc_memoryId c <> Some "") ->
        made = List.filter (listedField fb) cs).
Proof.
  revert acc. induction cs as [|c cs IH]; intros acc; simpl.
  - exists [], []. rewrite app_nil_r. repeat split; constructor.
  - destruct (IH (feedbackStep now invoice recallResult fb acc c))
      as (made & us & Hus & Hsub & Hpairs & Hall).
    destruct (feedbackStep_entries now invoice recallResult fb acc c)
      as [[Hl Hstep]|[Hl [[Hstep Hempty]|(u & Hstep & Hu)]]].
    + exists made, us. rewrite Hus, Hstep, Hl.
      split; [reflexivity|]. split; [apply sublist_cons; exact Hsub|].
      split; [exact Hpairs|].
      intros Hk Hc. apply Hall; [exact Hk|]. intros c' Hc'. apply Hc. right. exact Hc'.
    + exists made, us. rewrite Hus, Hstep.
      split; [reflexivity|]. split; [apply sublist_cons; exact Hsub|].
      split; [exact Hpairs|].
      intros Hk Hc. exfalso. destruct Hempty as [He|[k He]].
      * exact (Hc c (or_introl eq_refl) He).
      * exact (Hk k He).
    + exists (c :: made), (u :: us). rewrite Hus, Hstep, <- app_assoc, Hl.
      split; [reflexivity|]. split; [apply sublist_skip; exact Hsub|].
      split; [constructor; assumption|].
      intros Hk Hc. f_equal. apply Hall; [exact Hk|].
      intros c' Hc'. apply Hc. right. exact Hc'.
Qed.

(** C10 (amended).  The entries of [memoryUpdates] produced from human
    feedback are made, in order, from proposed corrections whose field is
    listed as approved or rejected, one entry per such correction at most,
    and one for each of them when no memory id is the empty string.  The
    entry made from a correction carries that correction's memory id when it
    has one, and has action [reinforce] exactly when the correction's field
    is listed as approved, [decay] exactly when the field is listed as
    rejected and not as approved; no entry has action [create]. *)
Theorem feedback_actions (now : Z) (w : World) (invoice : NormalizedInvoice)
    (rawText : string) (fb : HumanFeedbackInput) :
  let out := snd (processInvoiceWithMemory now w invoice rawText (Some fb)) in
  exists made,
    sublist made (out_proposedCorrections out)
    /\ Forall2
         (fun c u =>
            mu_action u <> create
            /\ (In (pc_field c) (approvedCorrections fb)
                \/ In (pc_field c) (rejectedCorrections fb))
            /\ (mu_action u = reinforce <-> In (pc_field c) (approvedCorrections fb))
            /\ (mu_action u = decay <->
                In (pc_field c) (rejectedCorrections fb)
                /\ ~ In (pc_field c) (approvedCorrections fb))
            /\ (forall i, pc_memoryId c = Some i -> mu_memoryId u = i))
         made (out_memoryUpdates out)
    /\ ((forall k, uuidv4 k <> "") ->
        (forall c, In c (out_proposedCorrections out) -> pc_memoryId c <> Some "") ->
        made
        = List.filter
            (fun c => includesField (approvedCorrections fb) (pc_field c)
                      || includesField (rejectedCorrections fb) (pc_field c))
            (out_proposedCorrections out)).
Proof.
  unfold processInvoiceWithMemory.
  destruct (applyMemoriesToContext _ _) as [heap applyResult].
  destruct (feedbackLoop_entries now invoice
              (recallMemories (w_repository w)
                 (mkQuery (inv_vendorName invoice) (inv_invoiceNumber invoice)
                    (Js.ValidDate (inv_issuedAt invoice)) (Some rawText) None))
              fb (proposedCorrections applyResult)
              ((w_repository w, w_uuids w), []))
    as (made & us & Hus & Hsub & Hpairs & Hall).
  destruct (List.fold_left _ _ _) as [[repository uuids] updates].
  simpl in *. subst updates. exists made.
  split; [exact Hsub|]. split; [|exact Hall].
  eapply Forall2_impl; [exact Hpairs|].
  intros c u (Hact & Hany & Hid). simpl in *.
  rewrite <- !includesField_In, Hact.
  destruct (includesField (approvedCorrections fb) (pc_field c));
    destruct (includesField (rejectedCorrections fb) (pc_field c));
    simpl in Hany; try discriminate Hany;
    (split; [discriminate|]); (split; [tauto|]);
    (split; [|split; [|exact Hid]]); intuition congruence.
Qed.

End OrchestratorFacts.

(** C10, as stated, fails: the field [taxAmount] is listed as rejected (and
    as approved), and the one entry made has action [reinforce], not
    [decay].  The store was empty, so the memory is new: the action is not
    [create] either. *)
Lemma feedback_actions_counterexample :
  let out :=
    snd (@processInvoiceWithMemory Scenario.platform 0 Scenario.emptyWorld
           Scenario.partsInvoice Scenario.partsText
           (Some Scenario.approveAndRejectTax)) in
  exists c u,
    out_proposedCorrections out = [c]
    /\ out_memoryUpdates out = [u]
    /\ In (pc_field c) (rejectedCorrections Scenario.approveAndRejectTax)
    /\ mu_action u = reinforce
    /\ mu_action u <> decay.
Proof.
  eexists. eexists. split; [vm_compute; reflexivity|].
  split; [vm_compute; reflexivity|].
  split; [left; reflexivity|].
  split; [reflexivity|discriminate].
Qed.

(** ** Scenario A: learning that the total includes VAT *)

Section VatScenario.
Context `{Platform}.





End VatScenario.

Section VatRuns.
Context `{Platform}.
















End VatRuns.



(** * Further properties of the code *)

(** ** The repository *)

Lemma saveMemory_ids (rows : list Memory) (m : Memory) :
  List.map id (Repository.saveMemory rows m)
  = match Repository.getMemoryById rows (id m) with
    | Some _ => List.map id rows
    | None => List.map id rows ++ [id m]
    end.
Proof.
  induction rows as [|r rows IH]; simpl; [reflexivity|].
  destruct (String.eqb (id r) (id m)) eqn:E; simpl.
  - apply String.eqb_eq in E. rewrite E. reflexivity.
  - rewrite IH. destruct (Repository.getMemoryById rows (id m)); reflexivity.
Qed.

Lemma getMemoryById_None (rows : list Memory) (i : string) :
  Repository.getMemoryById rows i = None <-> ~ In i (List.map id rows).
Proof.
  induction rows as [|r rows IH]; simpl; [tauto|].
  destruct (String.eqb (id r) i) eqn:E.
  - apply String.eqb_eq in E. split; [discriminate|]. intros Hn. exfalso. auto.
  - apply String.eqb_neq in E. rewrite IH. tauto.
Qed.

Lemma saveMemory_NoDup (rows : list Memory) (m : Memory) :
  List.NoDup (List.map id rows) ->
  List.NoDup (List.map id (Repository.saveMemory rows m)).
Proof.
  intros Hnd. rewrite saveMemory_ids.
  destruct (Repository.getMemoryById rows (id m)) eqn:E; [exact Hnd|].
  apply getMemoryById_None in E.
  apply List.NoDup_app; [exact Hnd|repeat constructor; simpl; tauto|].
  intros x Hx [<-|[]]. exact (E Hx).
Qed.

Lemma saveMemory_twice (rows : list Memory) (m : Memory) :
  Repository.saveMemory (Repository.saveMemory rows m) m = Repository.saveMemory rows m.
Proof.
  induction rows as [|r rows IH]; simpl.
  - rewrite String.eqb_refl. reflexivity.
  - destruct (String.eqb (id r) (id m)) eqn:E; simpl.
    + rewrite String.eqb_refl. reflexivity.
    + rewrite E, IH. reflexivity.
Qed.

(** X1.  [saveMemory] is an upsert keyed by [id]: the saved memory is what
    [getMemoryById] then returns for its id, every other id reads as
    before, the table gains one row exactly when the id was new, ids that
    were distinct stay distinct, and saving the same memory again changes
    nothing. *)
Theorem repository_upsert (rows : list Memory) (m : Memory) :
  Repository.getMemoryById (Repository.saveMemory rows m) (id m) = Some m
  /\ (forall i, i <> id m ->
        Repository.getMemoryById (Repository.saveMemory rows m) i
        = Repository.getMemoryById rows i)
  /\ length (Repository.saveMemory rows m)
     = (match Repository.getMemoryById rows (id m) with
        | Some _ => length rows
        | None => S (length rows)
        end)
  /\ (List.NoDup (List.map id rows) ->
      List.NoDup (List.map id (Repository.saveMemory rows m)))
  /\ Repository.saveMemory (Repository.saveMemory rows m) m
     = Repository.saveMemory rows m.
Proof.
  split; [apply getMemoryById_saveMemory_eq|].
  split; [intros i Hi; apply getMemoryById_saveMemory_ne; congruence|].
  split.
  - rewrite <- (length_map id), saveMemory_ids.
    destruct (Repository.getMemoryById rows (id m)).
    + apply length_map.
    + rewrite length_app, length_map. simpl. lia.
  - split; [apply saveMemory_NoDup|apply saveMemory_twice].
Qed.

Section SearchFacts.
Context `{Platform}.

Lemma filter_sublist {A} (f : A -> bool) (l : list A) : sublist (List.filter f l) l.
Proof.
  induction l as [|x l IH]; simpl; [constructor|].
  destruct (f x); [apply sublist_skip|apply sublist_cons]; exact IH.
Qed.

(** X2.  [searchMemories] returns at most [limit] rows; they are rows of the
    table, in table order, and each matches the query.  When no more than
    [limit] rows match, every matching row is returned. *)
Theorem search_results (rows : list Memory) (query : string) (limit : nat) :
  let found := Repository.searchMemories rows query limit in
  let matching := List.filter (fun r => contentLike query (content r)) rows in
  (length found <= limit)%nat
  /\ sublist found rows
  /\ Forall (fun r => contentLike query (content r) = true) found
  /\ ((length matching <= limit)%nat -> found = matching).
Proof.
  unfold Repository.searchMemories. simpl.
  set (matching := List.filter _ rows).
  split; [apply firstn_le_length|]. split.
  - transitivity matching; [apply sublist_take|apply filter_sublist].
  - split.
    + apply List.Forall_forall. intros r Hr. apply In_firstn in Hr.
      apply List.filter_In in Hr. tauto.
    + intros Hle. apply firstn_all2. exact Hle.
Qed.

End SearchFacts.

(** ** Recall *)

Section RecallMore.
Context `{Platform}.

Lemma insertByScore_Permutation (x : ScoredLearnedMemory) (l : list ScoredLearnedMemory) :
  Permutation (insertByScore x l) (x :: l).
Proof.
  induction l as [|y l IH]; simpl; [reflexivity|].
  destruct (Qle_bool (score y) (score x)); [reflexivity|].
  rewrite IH. apply perm_swap.
Qed.

Lemma sortByScore_Permutation (l : list ScoredLearnedMemory) :
  Permutation (sortByScore l) l.
Proof.
  induction l as [|x l IH]; simpl; [reflexivity|].
  unfold sortByScore in *. simpl. rewrite insertByScore_Permutation.
  apply perm_skip. exact IH.
Qed.

Lemma insertByScore_stable (k : Q) (x : ScoredLearnedMemory)
    (l : list ScoredLearnedMemory) :
  List.filter (hasScore k) (insertByScore x l) = List.filter (hasScore k) (x :: l).
Proof.
  induction l as [|y l IH]; [reflexivity|].
  simpl insertByScore. destruct (Qle_bool (score y) (score x)) eqn:E; [reflexivity|].
  change (List.filter (hasScore k) (y :: insertByScore x l))
    with (if hasScore k y then y :: List.filter (hasScore k) (insertByScore x l)
          else List.filter (hasScore k) (insertByScore x l)).
  rewrite IH. simpl.
  destruct (hasScore k x) eqn:Ex, (hasScore k y) eqn:Ey; try reflexivity.
  exfalso. unfold hasScore in Ex, Ey.
  apply Qeq_bool_iff in Ex. apply Qeq_bool_iff in Ey.
  apply (geq_false (score x) (score y)) in E. lra.
Qed.

Lemma sortByScore_stable (k : Q) (l : list ScoredLearnedMemory) :
  List.filter (hasScore k) (sortByScore l) = List.filter (hasScore k) l.
Proof.
  induction l as [|x l IH]; [reflexivity|].
  change (sortByScore (x :: l)) with (insertByScore x (sortByScore l)).
  rewrite insertByScore_stable. simpl. rewrite IH. reflexivity.
Qed.

Lemma filterByCategory_BucketOf (all : list ScoredLearnedMemory)
    (cat : LearnedMemoryCategory) :
  BucketOf cat all (filterByCategory all cat).
Proof.
  unfold BucketOf, filterByCategory. split; [apply sortByScore_Permutation|].
  split; [apply sortByScore_sorted|].
  intros k. apply sortByScore_stable.
Qed.

(** X3.  The three buckets of a recall summary hold exactly the scored
    memories of category vendor, correction and resolution; each bucket is
    ordered by descending score, and memories with equal scores keep the
    order in which they were retrieved. *)
Theorem recall_buckets (repository : list Memory) (q : RecallQuery) :
  let r := recallMemories repository q in
  BucketOf vendor (allMemories r) (vendorMemories r)
  /\ BucketOf correction (allMemories r) (correctionMemories r)
  /\ BucketOf resolution (allMemories r) (resolutionMemories r).
Proof.
  unfold recallMemories. set (scored := scoreAll q _).
  destruct (List.filter (isDuplicateCandidate q) (filterByCategory scored resolution));
    simpl; auto using filterByCategory_BucketOf.
Qed.

Lemma mapSet_ids (entries : list Memory) (m : Memory) :
  List.NoDup (List.map id entries) -> List.NoDup (List.map id (mapSet entries m)).
Proof. exact (saveMemory_NoDup entries m). Qed.

Lemma mapSet_fold_ids (l acc : list Memory) :
  List.NoDup (List.map id acc) ->
  List.NoDup (List.map id (List.fold_left mapSet l acc)).
Proof.
  revert acc. induction l as [|m l IH]; intros acc Hacc; simpl; [exact Hacc|].
  apply IH, mapSet_ids, Hacc.
Qed.

Lemma scoreAll_ids (q : RecallQuery) (l : list Memory) :
  List.NoDup (List.map id l) ->
  List.NoDup (List.map (fun s => id (sm_memory s)) (scoreAll q l)).
Proof.
  induction l as [|m l IH]; simpl; [constructor|].
  intros Hnd. apply List.NoDup_cons_iff in Hnd. destruct Hnd as [Hm Hl].
  unfold scoreAll in *. simpl.
  destruct (parseLearnedContent m) as [c|]; simpl; [|apply IH; exact Hl].
  constructor; [|apply IH; exact Hl].
  intros Hin. apply Hm. apply List.in_map_iff in Hin.
  destruct Hin as (s & Hid & Hs). apply List.in_map_iff.
  apply (scoreAll_In q l s) in Hs. destruct Hs as (m' & c' & Hm' & _ & ->).
  exists m'. auto.
Qed.

(** X4.  Every scored memory of a recall summary is a row of the table that
    one of the two searches returned - the one by vendor name or the one by
    invoice number - and no memory id occurs twice among them, although a row
    can be returned by both searches. *)
Theorem recall_sources (repository : list Memory) (q : RecallQuery) :
  let r := recallMemories repository q in
  let limit := match q_limit q with Some n => n | None => 50%nat end in
  Forall
    (fun s =>
       In (sm_memory s) (Repository.searchMemories repository (q_vendorName q) limit)
       \/ In (sm_memory s)
            (Repository.searchMemories repository (q_invoiceNumber q) limit))
    (allMemories r)
  /\ List.NoDup (List.map (fun s => id (sm_memory s)) (allMemories r)).
Proof.
  unfold recallMemories.
  set (limit := match q_limit q with Some n => n | None => 50%nat end).
  set (combined := List.fold_left mapSet _ []).
  assert (Hall : Forall
            (fun s =>
               In (sm_memory s)
                 (Repository.searchMemories repository (q_vendorName q) limit)
               \/ In (sm_memory s)
                    (Repository.searchMemories repository (q_invoiceNumber q) limit))
            (scoreAll q combined)
          /\ List.NoDup (List.map (fun s => id (sm_memory s)) (scoreAll q combined))).
  { split.
    - apply List.Forall_forall. intros s Hs. apply scoreAll_In in Hs.
      destruct Hs as (m & c & Hm & _ & ->). simpl.
      subst combined. apply mapSet_fold_In in Hm. destruct Hm as [Hm|[]].
      apply in_app_or in Hm. exact Hm.
    - apply scoreAll_ids. subst combined. apply mapSet_fold_ids. constructor. }
  destruct (List.filter (isDuplicateCandidate q)
              (filterByCategory (scoreAll q combined) resolution)); simpl; exact Hall.
Qed.

(** X5.  Recall never lowers a confidence: the score lies between
    [min(confidence, 1)] and 1.  A memory that stores neither vendor name nor
    invoice number nor invoice date scores [min(confidence, 1)], and a
    confidence of 1 or more scores 1.  Of two contents with the same stored
    vendor name, invoice number and invoice date, the one with the higher
    confidence never scores lower. *)
Theorem score_bounds (c c' : LearnedMemoryContent) (qVendor qNumber : string)
    (qDate : Js.Date) :
  Qmin (confidence c) 1 <= scoreMemory c qVendor qNumber qDate
  /\ scoreMemory c qVendor qNumber qDate <= 1
  /\ (vendorName c = None -> invoiceNumber c = None -> invoiceDate c = None ->
      scoreMemory c qVendor qNumber qDate = Qmin (confidence c) 1)
  /\ (1 <= confidence c -> scoreMemory c qVendor qNumber qDate == 1)
  /\ (vendorName c' = vendorName c -> invoiceNumber c' = invoiceNumber c ->
      invoiceDate c' = invoiceDate c -> confidence c <= confidence c' ->
      scoreMemory c qVendor qNumber qDate <= scoreMemory c' qVendor qNumber qDate).
Proof.
  unfold scoreMemory. split; [|split; [|split; [|split]]].
  - repeat match goal with |- context [if ?b then _ else _] => destruct b end;
      split_minmax; lra.
  - apply Q.le_min_r.
  - intros -> -> ->. reflexivity.
  - intros Hc.
    repeat match goal with |- context [if ?b then _ else _] => destruct b end;
      split_minmax; lra.
  - intros -> -> -> Hc.
    repeat match goal with |- context [if ?b then _ else _] => destruct b end;
      apply Q.min_le_compat_r; lra.
Qed.

End RecallMore.

(** ** Apply *)

Lemma find_In {A} (f : A -> bool) (l : list A) (x : A) :
  List.find f l = Some x -> In x l.
Proof. intros Hx. apply List.find_some in Hx. tauto. Qed.

Lemma Traceable_found (input : ApplyInputContext) (name : string)
    (mem : option ScoredLearnedMemory) (f : string) (v : Js.Value) (r : string)
    (conf : Q) (a : bool) :
  mem = List.find (hasField name) (vendorMemories (in_recall input)) ->
  Traceable input
    (mkCorrection f v r conf (option_map (fun m => id (sm_memory m)) mem) a).
Proof.
  intros Hmem i. simpl. destruct mem as [m|]; simpl; [|discriminate].
  intros [= <-]. exists m. split; [|reflexivity].
  eapply find_In. symmetry. exact Hmem.
Qed.

Lemma SameKeyFields_refl (i : NormalizedInvoice) : SameKeyFields i i.
Proof. unfold SameKeyFields. tauto. Qed.

Lemma ScalarEffect_idle (input : ApplyInputContext) (f : string) (st : ApplyState) :
  ScalarEffect input f st st.
Proof. split; [reflexivity|]. left. auto. Qed.

Lemma ScalarEffect_push (input : ApplyInputContext) (f : string) (st : ApplyState)
    (inv' : NormalizedInvoice) (v : Js.Value) (r : string) (conf : Q)
    (mem : option ScoredLearnedMemory) (a : bool)
    (applied' recs : list AppliedMemoryRecord) :
  let c := mkCorrection f v r conf (option_map (fun m => id (sm_memory m)) mem) a in
  applied' = st_applied st ++ recs ->
  InBand c ->
  Traceable input c ->
  SameKeyFields (st_invoice st) inv' ->
  (forall n, n <> f -> readField n inv' = readField n (st_invoice st)) ->
  (if a then readField f inv' = Some v else inv' = st_invoice st) ->
  ScalarEffect input f st
    (mkState (st_heap st) inv'
       (registerCorrection (st_corrections st) f v r conf mem a)
       applied' (Qmax (st_aggregate st) conf)).
Proof.
  intros c Happ Hband Htrace Hkeys Hother Hwritten.
  split; [reflexivity|]. right. exists c, recs. simpl.
  repeat (split; [first [reflexivity|assumption]|]). exact Hwritten.
Qed.

Lemma serviceDateStep_effect (input : ApplyInputContext) (st : ApplyState) :
  ScalarEffect input "serviceDate" st (serviceDateStep input st).
Proof.
  unfold serviceDateStep, maybeApplyFieldFromMemory.
  set (mems := List.filter _ _).
  assert (Hidle : ScalarEffect input "serviceDate" st
                    (mkState (st_heap st) (st_invoice st) (st_corrections st)
                       (st_applied st) (Qmax (st_aggregate st) 0))).
  { split; [reflexivity|]. left. simpl. auto. }
  assert (Htrace : forall cand f v r conf a,
             List.find (hasField "serviceDate") mems = Some cand ->
             Traceable input
               (mkCorrection f v r conf
                  (option_map (fun m => id (sm_memory m)) (Some cand)) a)).
  { intros cand f v r conf a Hc i [= <-]. exists cand. split; [|reflexivity].
    apply find_In in Hc. subst mems. apply List.filter_In in Hc. tauto. }
  destruct (inv_serviceDate (st_invoice st)) as [[]|] eqn:Ecur; simpl; try exact Hidle;
    (destruct (List.find (hasField "serviceDate") mems) as [cand|] eqn:Ecand;
     simpl; [|exact Hidle];
     destruct (Js.geq (confidence (sm_content cand)) HIGH_CONFIDENCE_THRESHOLD) eqn:Eh;
     [destruct (metaProposedValue cand) as [v|]; simpl; [|exact Hidle];
      eapply ScalarEffect_push;
      [reflexivity|apply InBand_high; exact Eh|apply Htrace; reflexivity
      |unfold SameKeyFields; simpl; tauto
      |intros n Hn; unfold readField; simpl;
       apply String.eqb_neq in Hn; rewrite Hn; reflexivity
      |reflexivity]|];
     destruct (Js.geq (confidence (sm_content cand)) MEDIUM_CONFIDENCE_THRESHOLD) eqn:Em;
     [|exact Hidle];
     destruct (metaProposedValue cand) as [v|]; simpl; [|exact Hidle];
     eapply ScalarEffect_push;
     [reflexivity|apply InBand_medium; assumption|apply Htrace; reflexivity
     |apply SameKeyFields_refl|reflexivity|reflexivity]).
Qed.

Ltac other_fields :=
  let n := fresh "n" in
  let Hn := fresh "Hn" in
  intros n Hn; unfold readField; simpl;
  repeat match goal with
    | |- context [String.eqb n ?s] =>
        let E := fresh "E" in
        destruct (String.eqb n s) eqn:E;
        [apply String.eqb_eq in E; try (exfalso; exact (Hn E)); try reflexivity|]
    end;
  reflexivity.

Lemma vatStep_effect (input : ApplyInputContext) (st : ApplyState) :
  ScalarEffect input "taxAmount" st (vatStep input st).
Proof.
  unfold vatStep.
  destruct (detectVatIncluded (in_rawText input)); [|apply ScalarEffect_idle].
  set (vatMem := List.find _ _).
  destruct (Js.geq (confidenceOr vatMem 0.75) HIGH_CONFIDENCE_THRESHOLD) eqn:Eh.
  - eapply ScalarEffect_push;
      [reflexivity|apply InBand_high; exact Eh
      |eapply Traceable_found; reflexivity
      |unfold SameKeyFields; simpl; tauto|other_fields|reflexivity].
  - destruct (Js.geq (confidenceOr vatMem 0.75) MEDIUM_CONFIDENCE_THRESHOLD) eqn:Em;
      [|apply ScalarEffect_idle].
    eapply (ScalarEffect_push _ _ _ _ _ _ _ _ _ _ []);
      [symmetry; apply app_nil_r|apply InBand_medium; assumption
      |eapply Traceable_found; reflexivity
      |apply SameKeyFields_refl|reflexivity|reflexivity].
Qed.

Lemma currencyStep_effect (input : ApplyInputContext) (st : ApplyState) :
  ScalarEffect input "currency" st (currencyStep input st).
Proof.
  unfold currencyStep.
  destruct (negb (Js.truthy (inv_currency (st_invoice st)))); [|apply ScalarEffect_idle].
  set (currencyMem := List.find _ _).
  assert (Hmem : currencyMem
                 = List.find (hasField "currency") (vendorMemories (in_recall input)))
    by reflexivity.
  clearbody currencyMem.
  destruct (match normalizeCurrencyFromText (in_rawText input) with
            | Some c => Some (Js.VStr c)
            | None => match currencyMem with
                      | Some m => metaProposedValue m
                      | None => None
                      end
            end) as [cur|]; [|apply ScalarEffect_idle].
  destruct (Js.truthy cur); [|apply ScalarEffect_idle].
  destruct (Js.geq (confidenceOr currencyMem 0.7) HIGH_CONFIDENCE_THRESHOLD) eqn:Eh.
  - destruct currencyMem as [m|]; [|simpl in Eh; discriminate].
    eapply ScalarEffect_push;
      [reflexivity|apply InBand_high; exact Eh
      |eapply Traceable_found; exact Hmem
      |unfold SameKeyFields; simpl; tauto|other_fields|reflexivity].
  - destruct (Js.geq (confidenceOr currencyMem 0.7) MEDIUM_CONFIDENCE_THRESHOLD) eqn:Em;
      [|apply ScalarEffect_idle].
    eapply (ScalarEffect_push _ _ _ _ _ _ _ _ _ _ []);
      [symmetry; apply app_nil_r|apply InBand_medium; assumption
      |eapply Traceable_found; exact Hmem
      |apply SameKeyFields_refl|reflexivity|reflexivity].
Qed.

Lemma skontoStep_effect (input : ApplyInputContext) (st : ApplyState) :
  ScalarEffect input "paymentTermsNormalized" st (skontoStep input st).
Proof.
  unfold skontoStep.
  destruct (detectSkontoTerms (in_rawText input)) as [skonto|]; [|apply ScalarEffect_idle].
  destruct (Js.nonEmpty skonto); [|apply ScalarEffect_idle].
  set (skontoMem := List.find _ _).
  destruct (Js.geq (confidenceOr skontoMem 0.75) HIGH_CONFIDENCE_THRESHOLD) eqn:Eh.
  - eapply ScalarEffect_push;
      [reflexivity|apply InBand_high; exact Eh
      |eapply Traceable_found; reflexivity
      |unfold SameKeyFields; simpl; tauto|other_fields|reflexivity].
  - destruct (Js.geq (confidenceOr skontoMem 0.75) MEDIUM_CONFIDENCE_THRESHOLD) eqn:Em;
      [|apply ScalarEffect_idle].
    eapply (ScalarEffect_push _ _ _ _ _ _ _ _ _ _ []);
      [symmetry; apply app_nil_r|apply InBand_medium; assumption
      |eapply Traceable_found; reflexivity
      |apply SameKeyFields_refl|reflexivity|reflexivity].
Qed.

Lemma FreightEffect_push (input : ApplyInputContext) (l : loc) (st : ApplyState)
    (item : InvoiceLineItem) (heap' : Heap) (v : Js.Value) (r : string) (conf : Q)
    (mem : option ScoredLearnedMemory) (a : bool)
    (applied' recs : list AppliedMemoryRecord) :
  let c := mkCorrection (skuField item) v r conf
             (option_map (fun m => id (sm_memory m)) mem) a in
  st_heap st !! l = Some item ->
  applied' = st_applied st ++ recs ->
  InBand c ->
  Traceable input c ->
  (if a then heap' = <[l := set_sku v item]> (st_heap st) else heap' = st_heap st) ->
  FreightEffect input l st
    (mkState heap' (st_invoice st)
       (registerCorrection (st_corrections st) (skuField item) v r conf mem a)
       applied' (Qmax (st_aggregate st) conf)).
Proof.
  intros c Hitem Happ Hband Htrace Hheap.
  split; [reflexivity|]. right. exists item, c, recs.
  repeat (split; [first [reflexivity|assumption]|]). exact Hheap.
Qed.

Lemma freightStep_effect (input : ApplyInputContext) (st : ApplyState) (l : loc) :
  FreightEffect input l st (freightStep input st l).
Proof.
  assert (Hidle : FreightEffect input l st st).
  { split; [reflexivity|]. left. auto. }
  unfold freightStep.
  destruct (st_heap st !! l) as [item|] eqn:Eitem; [|exact Hidle].
  destruct (looksLikeFreight (Js.toLowerCase (li_description item))); [|exact Hidle].
  set (freightMem := List.find _ _).
  set (proposedSku := match freightMem with
                      | Some m => match metaProposedValue m with
                                  | Some Js.VNull | None => Js.VStr "FREIGHT"
                                  | Some v => v
                                  end
                      | None => Js.VStr "FREIGHT"
                      end).
  destruct (Js.geq (confidenceOr freightMem 0.75) HIGH_CONFIDENCE_THRESHOLD) eqn:Eh.
  - eapply FreightEffect_push;
      [exact Eitem|reflexivity|apply InBand_high; exact Eh
      |eapply Traceable_found; reflexivity|reflexivity].
  - destruct (Js.geq (confidenceOr freightMem 0.75) MEDIUM_CONFIDENCE_THRESHOLD) eqn:Em;
      [|exact Hidle].
    eapply (FreightEffect_push _ _ _ _ _ _ _ _ _ _ _ []);
      [exact Eitem|symmetry; apply app_nil_r|apply InBand_medium; assumption
      |eapply Traceable_found; reflexivity|reflexivity].
Qed.

Lemma ScalarEffect_lineItems (input : ApplyInputContext) (f : string)
    (st st' : ApplyState) :
  ScalarEffect input f st st' ->
  inv_lineItems (st_invoice st') = inv_lineItems (st_invoice st).
Proof.
  intros [_ [(-> & _)|(c & recs & _ & _ & _ & _ & _ & _ & Hkeys & _)]]; [reflexivity|].
  unfold SameKeyFields in Hkeys. symmetry. tauto.
Qed.

(** A property that every block keeps holds of the state
    [applyMemoriesToContext] ends in. *)
Lemma apply_invariant (Inv : ApplyState -> Prop) (heap : Heap)
    (input : ApplyInputContext) :
  Inv (mkState heap (in_invoice input) [] [] 0) ->
  (forall f st st', isScalarField f = true ->
                    ScalarEffect input f st st' -> Inv st -> Inv st') ->
  (forall l st st', In l (inv_lineItems (in_invoice input)) ->
                    FreightEffect input l st st' -> Inv st -> Inv st') ->
  exists st,
    applyMemoriesToContext heap input
    = (st_heap st,
       mkContext input (List.map sm_memory (allMemories (in_recall input)))
         (st_invoice st) (st_corrections st) (st_applied st) (st_aggregate st))
    /\ Inv st.
Proof.
  intros H0 Hscalar Hfreight. unfold applyMemoriesToContext.
  set (st0 := mkState heap (in_invoice input) [] [] 0) in *.
  set (st1 := serviceDateStep input st0).
  set (st2 := vatStep input st1).
  set (st3 := currencyStep input st2).
  assert (H1 : Inv st1)
    by (eapply Hscalar; [|apply serviceDateStep_effect|exact H0]; reflexivity).
  assert (H2 : Inv st2)
    by (eapply Hscalar; [|apply vatStep_effect|exact H1]; reflexivity).
  assert (H3 : Inv st3)
    by (eapply Hscalar; [|apply currencyStep_effect|exact H2]; reflexivity).
  assert (Hitems : inv_lineItems (st_invoice st3) = inv_lineItems (in_invoice input)).
  { subst st3 st2 st1.
    rewrite (ScalarEffect_lineItems _ _ _ _ (currencyStep_effect input _)).
    rewrite (ScalarEffect_lineItems _ _ _ _ (vatStep_effect input _)).
    rewrite (ScalarEffect_lineItems _ _ _ _ (serviceDateStep_effect input _)).
    reflexivity. }
  rewrite Hitems.
  assert (Hloop : forall ls st, (forall l, In l ls -> In l (inv_lineItems (in_invoice input))) ->
                                Inv st -> Inv (List.fold_left (freightStep input) ls st)).
  { induction ls as [|l ls IH]; intros st Hsub Hst; simpl; [exact Hst|].
    apply IH; [intros l' Hl'; apply Hsub; right; exact Hl'|].
    eapply Hfreight; [apply Hsub; left; reflexivity|apply freightStep_effect|exact Hst]. }
  set (st4 := List.fold_left (freightStep input) (inv_lineItems (in_invoice input)) st3).
  assert (H4 : Inv st4) by (apply Hloop; auto).
  exists (skontoStep input st4). split; [reflexivity|].
  eapply Hscalar; [|apply skontoStep_effect|exact H4]. reflexivity.
Qed.

Lemma IsMaxConfidence_push (agg : Q) (cs : list ProposedCorrection)
    (c : ProposedCorrection) :
  IsMaxConfidence agg cs -> 0 <= agg -> 0.7 <= pc_confidence c ->
  IsMaxConfidence (Qmax agg (pc_confidence c)) (cs ++ [c])
  /\ 0 <= Qmax agg (pc_confidence c).
Proof.
  intros Hmax Hpos Hband. split; [|split_minmax; lra].
  right. destruct (Qlt_le_dec (pc_confidence c) agg) as [Hlt|Hge].
  - destruct Hmax as [[Hnil Hz]|(c0 & Hin & Hc0 & Hle)]; [lra|].
    exists c0. split; [apply in_or_app; left; exact Hin|].
    split; [split_minmax; lra|].
    intros c' Hc'. apply in_app_or in Hc'. destruct Hc' as [Hc'|[<-|[]]].
    + specialize (Hle c' Hc'). split_minmax; lra.
    + split_minmax; lra.
  - exists c. split; [apply in_or_app; right; left; reflexivity|].
    split; [split_minmax; lra|].
    intros c' Hc'. apply in_app_or in Hc'. destruct Hc' as [Hc'|[<-|[]]].
    + destruct Hmax as [[Hnil _]|(c0 & _ & _ & Hle)];
        [rewrite Hnil in Hc'; destruct Hc'|].
      specialize (Hle c' Hc'). split_minmax; lra.
    + split_minmax; lra.
Qed.

Lemma IsMaxConfidence_eq (agg agg' : Q) (cs : list ProposedCorrection) :
  agg' == agg -> IsMaxConfidence agg cs -> IsMaxConfidence agg' cs.
Proof.
  intros E [[Hnil Hz]|(c & Hin & Hc & Hle)].
  - left. split; [exact Hnil|]. rewrite E. exact Hz.
  - right. exists c. split; [exact Hin|]. split; [rewrite E; exact Hc|].
    intros c' Hc'. rewrite E. apply Hle. exact Hc'.
Qed.

Lemma applyMemoriesToContext_max (heap : Heap) (input : ApplyInputContext) :
  let ctx := snd (applyMemoriesToContext heap input) in
  IsMaxConfidence (aggregateConfidence ctx) (proposedCorrections ctx).
Proof.
  destruct (apply_invariant
              (fun st => IsMaxConfidence (st_aggregate st) (st_corrections st)
                         /\ 0 <= st_aggregate st)
              heap input) as (st & -> & Hmax & _).
  - split; [left; split; reflexivity|apply Qle_refl].
  - intros f st st' _ [_ [(_ & Hc & _ & Hagg)|Hpush]] [Hmax Hpos].
    + rewrite Hc. destruct Hagg as [->| ->]; [auto|].
      assert (E : Qmax (st_aggregate st) 0 == st_aggregate st)
        by (split_minmax; lra).
      split; [apply (IsMaxConfidence_eq _ _ _ E Hmax)|rewrite E; exact Hpos].
    + destruct Hpush as (c & recs & _ & Hc & _ & Hagg & (Hband & _) & _).
      rewrite Hc, Hagg. apply IsMaxConfidence_push; assumption.
  - intros l st st' _ [_ [(_ & Hc & _ & Hagg)|Hpush]] [Hmax Hpos].
    + rewrite Hc, Hagg. auto.
    + destruct Hpush as (item & c & recs & _ & _ & Hc & _ & Hagg & (Hband & _) & _).
      rewrite Hc, Hagg. apply IsMaxConfidence_push; assumption.
  - exact Hmax.
Qed.

(** X6.  [aggregateConfidence] is 0 when Apply emits no correction, and
    otherwise the largest confidence among the emitted corrections, applied
    or proposed. *)
Theorem aggregate_is_max (heap : Heap) (input : ApplyInputContext) :
  let ctx := snd (applyMemoriesToContext heap input) in
  IsMaxConfidence (aggregateConfidence ctx) (proposedCorrections ctx).
Proof. exact (applyMemoriesToContext_max heap input). Qed.

Lemma sameButSku_refl (a : InvoiceLineItem) : sameButSku a a.
Proof. unfold sameButSku. tauto. Qed.

Lemma sameButSku_set (a b : InvoiceLineItem) (v : Js.Value) :
  sameButSku a b -> sameButSku a (set_sku v b).
Proof. unfold sameButSku. simpl. tauto. Qed.

Lemma SameKeyFields_trans (a b c : NormalizedInvoice) :
  SameKeyFields a b -> SameKeyFields b c -> SameKeyFields a c.
Proof. unfold SameKeyFields. intuition congruence. Qed.

Lemma Framed_scalar (heap : Heap) (invoice : NormalizedInvoice)
    (input : ApplyInputContext) (f : string) (st st' : ApplyState) :
  ScalarEffect input f st st' -> Framed heap invoice st -> Framed heap invoice st'.
Proof.
  intros [Hheap Heff] [Hkeys Hitems]. unfold Framed. rewrite Hheap.
  split; [|exact Hitems].
  destruct Heff as [(-> & _)|(c & recs & _ & _ & _ & _ & _ & _ & Hk & _)];
    [exact Hkeys|].
  eapply SameKeyFields_trans; eassumption.
Qed.

Lemma Framed_freight (heap : Heap) (invoice : NormalizedInvoice)
    (input : ApplyInputContext) (l : loc) (st st' : ApplyState) :
  FreightEffect input l st st' -> Framed heap invoice st -> Framed heap invoice st'.
Proof.
  intros [Hinv Heff] [Hkeys Hitems]. unfold Framed. rewrite Hinv.
  split; [exact Hkeys|].
  destruct Heff as [(-> & _)|(item & c & recs & Hitem & _ & _ & _ & _ & _ & _ & Hheap)];
    [exact Hitems|].
  destruct (pc_applied c); rewrite Hheap; [|exact Hitems].
  intros l'. destruct (decide (l = l')) as [<-|Hne].
  - rewrite lookup_insert_eq. specialize (Hitems l). rewrite Hitem in Hitems.
    inversion Hitems as [a b Hab|]; subst. constructor. apply sameButSku_set. exact Hab.
  - rewrite lookup_insert_ne by exact Hne. apply Hitems.
Qed.

Lemma Framed_initial (heap : Heap) (invoice : NormalizedInvoice) :
  Framed heap invoice (mkState heap invoice [] [] 0).
Proof.
  split; [apply SameKeyFields_refl|]. intros l. simpl.
  destruct (heap !! l); constructor. apply sameButSku_refl.
Qed.

(** X7.  Apply leaves the identity of the invoice alone: id, external id,
    customer and vendor name, invoice number, total amount, issue and due
    date, metadata, raw text and the array of line items are those of the
    input.  No line-item object appears or disappears, and of a line item
    only the SKU can differ after the call. *)
Theorem apply_frame (heap : Heap) (input : ApplyInputContext) :
  let result := applyMemoriesToContext heap input in
  SameKeyFields (in_invoice input) (normalizedInvoice (snd result))
  /\ forall l, option_Forall2 sameButSku (heap !! l) (fst result !! l).
Proof.
  destruct (apply_invariant (Framed heap (in_invoice input)) heap input)
    as (st & -> & Hframed).
  - apply Framed_initial.
  - intros f st st' _. apply Framed_scalar.
  - intros l st st' _. apply Framed_freight.
  - exact Hframed.
Qed.

(** X8.  A correction that is only proposed writes nothing: when no emitted
    correction has [applied = true], the normalized invoice is the input
    invoice and every line-item object is as it was. *)
Theorem proposals_do_not_write (heap : Heap) (input : ApplyInputContext) :
  let result := applyMemoriesToContext heap input in
  Forall (fun c => pc_applied c = false) (proposedCorrections (snd result)) ->
  fst result = heap /\ normalizedInvoice (snd result) = in_invoice input.
Proof.
  destruct (apply_invariant
              (fun st => Forall (fun c => pc_applied c = false) (st_corrections st) ->
                         st_heap st = heap /\ st_invoice st = in_invoice input)
              heap input) as (st & -> & Hst).
  - auto.
  - intros f st st' _ [Hheap [(-> & -> & _)|Hpush]] IH; rewrite Hheap; [exact IH|].
    destruct Hpush as (c & recs & _ & -> & _ & _ & _ & _ & _ & _ & Hw).
    intros Hall. apply Forall_app in Hall. destruct Hall as [Hold Hc].
    apply Forall_inv in Hc. rewrite Hc in Hw. rewrite Hw. apply IH. exact Hold.
  - intros l st st' _ [Hinv [(-> & -> & _)|Hpush]] IH; rewrite Hinv; [exact IH|].
    destruct Hpush as (item & c & recs & _ & _ & -> & _ & _ & _ & _ & Hw).
    intros Hall. apply Forall_app in Hall. destruct Hall as [Hold Hc].
    apply Forall_inv in Hc. rewrite Hc in Hw. rewrite Hw. apply IH. exact Hold.
  - exact Hst.
Qed.

(** X9.  Every memory id on a correction is the id of a vendor memory of the
    recall summary Apply was given: corrections are never attributed to
    correction or resolution memories, nor to an id that was not recalled. *)
Theorem corrections_traceable (heap : Heap) (input : ApplyInputContext) :
  Forall
    (fun c =>
       forall i, pc_memoryId c = Some i ->
                 exists m, In m (vendorMemories (in_recall input))
                           /\ id (sm_memory m) = i)
    (proposedCorrections (snd (applyMemoriesToContext heap input))).
Proof.
  destruct (apply_invariant (fun st => Forall (Traceable input) (st_corrections st))
              heap input) as (st & -> & Hst).
  - constructor.
  - intros f st st' _ [_ [(_ & -> & _)|Hpush]] IH; [exact IH|].
    destruct Hpush as (c & recs & _ & -> & _ & _ & _ & Ht & _).
    apply Forall_app. split; [exact IH|]. constructor; [exact Ht|constructor].
  - intros l st st' _ [_ [(_ & -> & _)|Hpush]] IH; [exact IH|].
    destruct Hpush as (item & c & recs & _ & _ & -> & _ & _ & _ & Ht & _).
    apply Forall_app. split; [exact IH|]. constructor; [exact Ht|constructor].
  - exact Hst.
Qed.

(** Apply only ever proposes a correction for one of its four top-level
    fields, or for the SKU of a line item of the invoice. *)
Lemma applyMemoriesToContext_fields (heap : Heap) (input : ApplyInputContext) :
  Forall (KnownField heap (in_invoice input))
    (proposedCorrections (snd (applyMemoriesToContext heap input))).
Proof.
  destruct (apply_invariant
              (fun st => Framed heap (in_invoice input) st
                         /\ Forall (KnownField heap (in_invoice input))
                              (st_corrections st))
              heap input) as (st & -> & _ & Hst).
  - split; [apply Framed_initial|constructor].
  - intros f st st' Hf Heff [Hfr IH]. split; [eapply Framed_scalar; eassumption|].
    destruct Heff as [_ [(_ & -> & _)|Hpush]]; [exact IH|].
    destruct Hpush as (c & recs & Hc & -> & _).
    apply Forall_app. split; [exact IH|]. constructor; [|constructor].
    left. rewrite Hc. exact Hf.
  - intros l st st' Hl Heff [Hfr IH]. split; [eapply Framed_freight; eassumption|].
    destruct Heff as [_ [(_ & -> & _)|Hpush]]; [exact IH|].
    destruct Hpush as (item & c & recs & Hitem & Hc & -> & _).
    apply Forall_app. split; [exact IH|]. constructor; [|constructor].
    right. destruct Hfr as [_ Hitems]. specialize (Hitems l). rewrite Hitem in Hitems.
    inversion Hitems as [a b Hab Ha|]; subst.
    exists l, a. split; [exact Hl|]. split; [symmetry; exact Ha|].
    rewrite Hc. unfold skuField. destruct Hab as [-> _]. reflexivity.
  - exact Hst.
Qed.

Lemma isScalarField_sku (item : InvoiceLineItem) : isScalarField (skuField item) = false.
Proof. reflexivity. Qed.

Lemma Staged_scalar (input : ApplyInputContext) (names : list string) (f : string)
    (st st' : ApplyState) :
  ~ In f names -> ScalarEffect input f st st' ->
  Staged names st -> Staged (f :: names) st'.
Proof.
  intros Hnew [_ Heff] Hst. unfold Staged in *.
  destruct Heff as [(-> & -> & _)|(c & recs & Hf & -> & _ & _ & _ & _ & _ & Hother & Hw)].
  - eapply List.Forall_impl; [|exact Hst]. intros c [[Hn|Hn] Ha]; simpl; tauto.
  - apply Forall_app. split.
    + eapply List.Forall_impl; [|exact Hst]. intros c0 [Hn Ha]. split; [simpl; tauto|].
      intros Happ Hs. rewrite Hother; [apply Ha; assumption|].
      destruct Hn as [Hn|Hn]; [|congruence]. intros E. rewrite E in Hn. exact (Hnew Hn).
    + constructor; [|constructor]. split; [left; left; symmetry; exact Hf|].
      intros Happ _. rewrite Happ in Hw. rewrite Hf. exact Hw.
Qed.

Lemma Staged_freight (input : ApplyInputContext) (names : list string) (l : loc)
    (st st' : ApplyState) :
  FreightEffect input l st st' -> Staged names st -> Staged names st'.
Proof.
  intros [Hinv Heff] Hst. unfold Staged in *. rewrite Hinv.
  destruct Heff as [(_ & -> & _)|(item & c & recs & _ & Hf & -> & _)]; [exact Hst|].
  apply Forall_app. split; [exact Hst|]. constructor; [|constructor].
  split; [right; rewrite Hf; apply isScalarField_sku|].
  intros _ Hs. rewrite Hf, isScalarField_sku in Hs. discriminate.
Qed.

Lemma Staged_loop (input : ApplyInputContext) (names : list string) (ls : list loc)
    (st : ApplyState) :
  Staged names st -> Staged names (List.fold_left (freightStep input) ls st).
Proof.
  revert st. induction ls as [|l ls IH]; intros st Hst; simpl; [exact Hst|].
  apply IH. eapply Staged_freight; [apply freightStep_effect|exact Hst].
Qed.

(** X10.  What Apply marks as applied, it has written: for every emitted
    correction of [serviceDate], [taxAmount], [currency] or
    [paymentTermsNormalized] with [applied = true], the normalized invoice
    holds the proposed value in that field. *)
Theorem applied_values_written (heap : Heap) (input : ApplyInputContext) :
  let ctx := snd (applyMemoriesToContext heap input) in
  Forall
    (fun c =>
       pc_applied c = true -> isScalarField (pc_field c) = true ->
       readField (pc_field c) (normalizedInvoice ctx) = Some (pc_proposedValue c))
    (proposedCorrections ctx).
Proof.
  unfold applyMemoriesToContext. simpl.
  set (st0 := mkState heap (in_invoice input) [] [] 0).
  assert (H0 : Staged [] st0) by constructor.
  assert (H1 : Staged ["serviceDate"] (serviceDateStep input st0)).
  { eapply Staged_scalar; [|apply serviceDateStep_effect|exact H0]. simpl. tauto. }
  assert (H2 : Staged ["taxAmount"; "serviceDate"]
                 (vatStep input (serviceDateStep input st0))).
  { eapply Staged_scalar; [|apply vatStep_effect|exact H1].
    simpl. intuition discriminate. }
  assert (H3 : Staged ["currency"; "taxAmount"; "serviceDate"]
                 (currencyStep input (vatStep input (serviceDateStep input st0)))).
  { eapply Staged_scalar; [|apply currencyStep_effect|exact H2].
    simpl. intuition discriminate. }
  set (st3 := currencyStep input (vatStep input (serviceDateStep input st0))) in *.
  assert (H4 := Staged_loop input _ (inv_lineItems (st_invoice st3)) _ H3).
  assert (H5 : Staged ["paymentTermsNormalized"; "currency"; "taxAmount"; "serviceDate"]
                 (skontoStep input
                    (List.fold_left (freightStep input)
                       (inv_lineItems (st_invoice st3)) st3))).
  { eapply Staged_scalar; [|apply skontoStep_effect|exact H4].
    simpl. intuition discriminate. }
  eapply List.Forall_impl; [|exact H5]. intros c [_ Ha]. exact Ha.
Qed.

Lemma existsb_loc (l : loc) (ls : list loc) :
  existsb (Pos.eqb l) ls = true <-> In l ls.
Proof.
  rewrite existsb_exists. split.
  - intros (x & Hx & E). apply Pos.eqb_eq in E. subst x. exact Hx.
  - intros Hl. exists l. split; [exact Hl|apply Pos.eqb_refl].
Qed.

Lemma freightItemAfter_twice (input : ApplyInputContext) (visited : list loc)
    (l : loc) (item : InvoiceLineItem) :
  set_sku (freightSku input) (freightItemAfter input visited l item)
  = set_sku (freightSku input) item.
Proof. unfold freightItemAfter. destruct (_ && _); reflexivity. Qed.

Lemma freightItemAfter_description (input : ApplyInputContext) (visited : list loc)
    (l : loc) (item : InvoiceLineItem) :
  li_description (freightItemAfter input visited l item) = li_description item.
Proof. unfold freightItemAfter. destruct (_ && _); reflexivity. Qed.

Lemma freightItemAfter_other (input : ApplyInputContext) (visited : list loc)
    (l l' : loc) (item : InvoiceLineItem) :
  l <> l' ->
  freightItemAfter input (l' :: visited) l item = freightItemAfter input visited l item.
Proof.
  intros Hne. unfold freightItemAfter. simpl.
  apply Pos.eqb_neq in Hne. rewrite Hne. reflexivity.
Qed.

Lemma freightStep_heap (input : ApplyInputContext) (heap0 : Heap)
    (visited : list loc) (st : ApplyState) (l' : loc) :
  (forall l, st_heap st !! l
             = option_map (freightItemAfter input visited l) (heap0 !! l)) ->
  forall l, st_heap (freightStep input st l') !! l
            = option_map (freightItemAfter input (l' :: visited) l) (heap0 !! l).
Proof.
  intros Hinv l.
  assert (Hother : l <> l' ->
                   st_heap st !! l
                   = option_map (freightItemAfter input (l' :: visited) l) (heap0 !! l)).
  { intros Hne. rewrite Hinv. destruct (heap0 !! l) as [item|]; simpl; [|reflexivity].
    rewrite freightItemAfter_other by exact Hne. reflexivity. }
  unfold freightStep. pose proof (Hinv l') as Hl'.
  destruct (heap0 !! l') as [item0|] eqn:E0; simpl in Hl'; rewrite Hl'.
  - rewrite freightItemAfter_description.
    change (List.find (hasField "freightSku") (vendorMemories (in_recall input)))
      with (freightMemory input).
    change (confidenceOr (freightMemory input) 0.75) with (freightConfidence input).
    change (match freightMemory input with
            | Some m => match metaProposedValue m with
                        | Some Js.VNull | None => Js.VStr "FREIGHT"
                        | Some v => v
                        end
            | None => Js.VStr "FREIGHT"
            end) with (freightSku input).
    destruct (looksLikeFreight (Js.toLowerCase (li_description item0))) eqn:Ef.
    + destruct (Js.geq (freightConfidence input) HIGH_CONFIDENCE_THRESHOLD) eqn:Eh.
      * simpl. destruct (decide (l' = l)) as [<-|Hne].
        -- rewrite lookup_insert_eq, E0. simpl. rewrite freightItemAfter_twice.
           unfold freightItemAfter. simpl. rewrite Pos.eqb_refl, Ef, Eh. reflexivity.
        -- rewrite lookup_insert_ne by exact Hne. apply Hother. congruence.
      * assert (Hsame : st_heap st !! l
                        = option_map (freightItemAfter input (l' :: visited) l)
                            (heap0 !! l)).
        { destruct (decide (l' = l)) as [<-|Hne]; [|apply Hother; congruence].
          rewrite Hl', E0. simpl. unfold freightItemAfter. rewrite Eh.
          rewrite !andb_false_r. reflexivity. }
        destruct (Js.geq (freightConfidence input) MEDIUM_CONFIDENCE_THRESHOLD);
          simpl; exact Hsame.
    + destruct (decide (l' = l)) as [<-|Hne]; [|apply Hother; congruence].
      rewrite Hl', E0. simpl. unfold freightItemAfter. rewrite Ef.
      rewrite !andb_false_r. reflexivity.
  - destruct (decide (l' = l)) as [<-|Hne]; [|apply Hother; congruence].
    rewrite Hl', E0. reflexivity.
Qed.

Lemma freightLoop_heap (input : ApplyInputContext) (heap0 : Heap) (ls : list loc) :
  forall (visited : list loc) (st : ApplyState),
    (forall l, st_heap st !! l
               = option_map (freightItemAfter input visited l) (heap0 !! l)) ->
    forall l, st_heap (List.fold_left (freightStep input) ls st) !! l
              = option_map (freightItemAfter input (List.rev ls ++ visited) l)
                  (heap0 !! l).
Proof.
  induction ls as [|l' ls IH]; intros visited st Hinv l; simpl; [apply Hinv|].
  rewrite <- app_assoc. simpl.
  apply (IH (l' :: visited)). apply freightStep_heap. exact Hinv.
Qed.

(** X11.  The freight loop sets the SKU of exactly the line items of the
    invoice whose description looks like freight, and only when the freight
    confidence (that of the first vendor memory for [freightSku], else 0.75)
    is at least 0.8; the SKU is that memory's proposed value, or
    ["FREIGHT"].  Every other line-item object is left as it was. *)
Theorem freight_skus_written (heap : Heap) (input : ApplyInputContext)
    (l : loc) :
  let heap' := fst (applyMemoriesToContext heap input) in
  match heap !! l with
  | None => heap' !! l = None
  | Some item =>
      (In l (inv_lineItems (in_invoice input)) ->
       looksLikeFreight (Js.toLowerCase (li_description item)) = true ->
       0.8 <= freightConfidence input ->
       heap' !! l = Some (set_sku (freightSku input) item))
      /\ (~ In l (inv_lineItems (in_invoice input))
          \/ looksLikeFreight (Js.toLowerCase (li_description item)) = false
          \/ freightConfidence input < 0.8 ->
          heap' !! l = Some item)
  end.
Proof.
  unfold applyMemoriesToContext. simpl.
  set (st0 := mkState heap (in_invoice input) [] [] 0).
  set (st3 := currencyStep input (vatStep input (serviceDateStep input st0))).
  assert (Hheap3 : st_heap st3 = heap).
  { subst st3.
    rewrite (proj1 (currencyStep_effect input _)), (proj1 (vatStep_effect input _)),
      (proj1 (serviceDateStep_effect input _)). reflexivity. }
  assert (Hitems : inv_lineItems (st_invoice st3) = inv_lineItems (in_invoice input)).
  { subst st3.
    rewrite (ScalarEffect_lineItems _ _ _ _ (currencyStep_effect input _)).
    rewrite (ScalarEffect_lineItems _ _ _ _ (vatStep_effect input _)).
    rewrite (ScalarEffect_lineItems _ _ _ _ (serviceDateStep_effect input _)).
    reflexivity. }
  rewrite Hitems.
  rewrite (proj1 (skontoStep_effect input _)).
  rewrite (freightLoop_heap input heap (inv_lineItems (in_invoice input)) [] st3).
  - destruct (heap !! l) as [item|]; simpl; [|reflexivity].
    unfold freightItemAfter. split.
    + intros Hl Hf Hh. apply (geq_true _ _) in Hh.
      rewrite app_nil_r.
      assert (Hv : existsb (Pos.eqb l) (List.rev (inv_lineItems (in_invoice input)))
                   = true).
      { apply existsb_loc. apply -> List.in_rev. exact Hl. }
      unfold HIGH_CONFIDENCE_THRESHOLD. rewrite Hv, Hf, Hh. reflexivity.
    + rewrite app_nil_r. intros [Hl|[Hf|Hh]].
      * destruct (existsb (Pos.eqb l) (List.rev (inv_lineItems (in_invoice input))))
          eqn:Ev; [|reflexivity].
        exfalso. apply Hl. apply List.in_rev. apply existsb_loc. exact Ev.
      * rewrite Hf, andb_false_r. reflexivity.
      * apply (geq_false _ _) in Hh. unfold HIGH_CONFIDENCE_THRESHOLD.
        rewrite Hh, andb_false_r. reflexivity.
  - intros l0. rewrite Hheap3. destruct (heap !! l0); reflexivity.
Qed.

(** The VAT invoice with nothing recalled: the tax amount is proposed at
    0.75 and not applied. *)
Lemma proposals_do_not_write_witness :
  let input :=
    mkInput Scenario.partsInvoice Scenario.partsText (mkRecall [] [] [] false 0 None []) in
  let result := applyMemoriesToContext Scenario.partsHeap input in
  proposedCorrections (snd result) <> []
  /\ fst result = Scenario.partsHeap
  /\ normalizedInvoice (snd result) = Scenario.partsInvoice.
Proof.
  split; [vm_compute; discriminate|].
  apply (proposals_do_not_write Scenario.partsHeap
           (mkInput Scenario.partsInvoice Scenario.partsText
              (mkRecall [] [] [] false 0 None []))).
  vm_compute. repeat constructor.
Defined.

Lemma ScalarEffect_fields (input : ApplyInputContext) (f : string)
    (st st' : ApplyState) :
  ScalarEffect input f st st' ->
  exists fs, List.map pc_field (st_corrections st')
             = List.map pc_field (st_corrections st) ++ fs
             /\ sublist fs [f].
Proof.
  intros [_ [(_ & -> & _)|(c & recs & Hf & -> & _)]].
  - exists []. rewrite app_nil_r. split; [reflexivity|apply sublist_nil_l].
  - exists [f]. rewrite List.map_app. simpl. rewrite Hf. split; reflexivity.
Qed.

Lemma FreightEffect_fields (input : ApplyInputContext) (l : loc)
    (st st' : ApplyState) :
  FreightEffect input l st st' ->
  (forall l', skuField <$> st_heap st' !! l' = skuField <$> st_heap st !! l')
  /\ exists fs, List.map pc_field (st_corrections st')
                = List.map pc_field (st_corrections st) ++ fs
                /\ sublist fs (skuFields (st_heap st) [l]).
Proof.
  intros [_ [(-> & -> & _)|(item & c & recs & Hitem & Hf & -> & _ & _ & _ & _ & Hw)]].
  - split; [reflexivity|]. exists []. rewrite app_nil_r.
    split; [reflexivity|apply sublist_nil_l].
  - split.
    + intros l'. destruct (pc_applied c); rewrite Hw; [|reflexivity].
      destruct (decide (l' = l)) as [->|Hne].
      * rewrite lookup_insert_eq, Hitem. reflexivity.
      * rewrite lookup_insert_ne by congruence. reflexivity.
    + exists [skuField item]. rewrite List.map_app. simpl. rewrite Hf.
      split; [reflexivity|]. unfold skuFields. simpl. rewrite Hitem. reflexivity.
Qed.

Lemma skuFields_ext (heap heap' : Heap) (ls : list loc) :
  (forall l, skuField <$> heap' !! l = skuField <$> heap !! l) ->
  skuFields heap' ls = skuFields heap ls.
Proof.
  intros Hext. unfold skuFields. induction ls as [|l ls IH]; [reflexivity|].
  change (l :: ls) with ([l] ++ ls). rewrite !omap_app, IH.
  f_equal. simpl. rewrite Hext. reflexivity.
Qed.

Lemma freightLoop_fields (input : ApplyInputContext) (ls : list loc) (st : ApplyState) :
  exists fs, List.map pc_field (st_corrections (List.fold_left (freightStep input) ls st))
             = List.map pc_field (st_corrections st) ++ fs
             /\ sublist fs (skuFields (st_heap st) ls).
Proof.
  revert st. induction ls as [|l ls IH]; intros st.
  - exists []. simpl. rewrite app_nil_r. split; [reflexivity|constructor].
  - cbn [List.fold_left].
    destruct (FreightEffect_fields input l st _ (freightStep_effect input st l))
      as [Hext (fs1 & E1 & S1)].
    destruct (IH (freightStep input st l)) as (fs2 & E2 & S2).
    exists (fs1 ++ fs2). rewrite E2, E1, <- app_assoc. split; [reflexivity|].
    rewrite (skuFields_ext _ _ _ Hext) in S2.
    assert (Hsplit : skuFields (st_heap st) (l :: ls)
                     = skuFields (st_heap st) [l] ++ skuFields (st_heap st) ls).
    { unfold skuFields. change (l :: ls) with ([l] ++ ls). apply omap_app. }
    rewrite Hsplit. apply sublist_app; assumption.
Qed.

(** X12.  Corrections come out in the order of the blocks of Apply, each
    block at most once: the fields of the emitted corrections are, in order
    and without repetition of a position, drawn from [serviceDate],
    [taxAmount], [currency], the SKU fields of the line items in array order,
    and [paymentTermsNormalized]. *)
Theorem corrections_in_block_order (heap : Heap) (input : ApplyInputContext) :
  sublist
    (List.map pc_field (proposedCorrections (snd (applyMemoriesToContext heap input))))
    (blockOrder heap (in_invoice input)).
Proof.
  unfold applyMemoriesToContext. simpl.
  set (st0 := mkState heap (in_invoice input) [] [] 0).
  set (st1 := serviceDateStep input st0).
  set (st2 := vatStep input st1).
  set (st3 := currencyStep input st2).
  destruct (ScalarEffect_fields _ _ _ _ (serviceDateStep_effect input st0)) as (f1 & E1 & S1).
  destruct (ScalarEffect_fields _ _ _ _ (vatStep_effect input st1)) as (f2 & E2 & S2).
  destruct (ScalarEffect_fields _ _ _ _ (currencyStep_effect input st2)) as (f3 & E3 & S3).
  assert (Hitems : inv_lineItems (st_invoice st3) = inv_lineItems (in_invoice input)).
  { subst st3 st2 st1.
    rewrite (ScalarEffect_lineItems _ _ _ _ (currencyStep_effect input _)).
    rewrite (ScalarEffect_lineItems _ _ _ _ (vatStep_effect input _)).
    rewrite (ScalarEffect_lineItems _ _ _ _ (serviceDateStep_effect input _)).
    reflexivity. }
  assert (Hheap : st_heap st3 = heap).
  { subst st3 st2 st1.
    rewrite (proj1 (currencyStep_effect input _)), (proj1 (vatStep_effect input _)),
      (proj1 (serviceDateStep_effect input _)). reflexivity. }
  destruct (freightLoop_fields input (inv_lineItems (st_invoice st3)) st3) as (f4 & E4 & S4).
  destruct (ScalarEffect_fields _ _ _ _
              (skontoStep_effect input
                 (List.fold_left (freightStep input) (inv_lineItems (st_invoice st3)) st3)))
    as (f5 & E5 & S5).
  fold st1 st2 st3 in E1, E2, E3, E4, E5 |- *.
  rewrite E5, E4, E3, E2, E1. simpl. rewrite Hitems, Hheap in S4.
  unfold blockOrder.
  change ["serviceDate"; "taxAmount"; "currency"]
    with (["serviceDate"] ++ ["taxAmount"] ++ ["currency"]).
  rewrite <- !app_assoc.
  repeat apply sublist_app; assumption.
Qed.

Lemma Triggered_snoc (input : ApplyInputContext) (cs : list ProposedCorrection)
    (c : ProposedCorrection) :
  Forall (Triggered input) cs -> Triggered input c ->
  Forall (Triggered input) (cs ++ [c]).
Proof.
  intros Hcs Hc. apply Forall_app. split; [exact Hcs|].
  constructor; [exact Hc|constructor].
Qed.

Lemma serviceDateStep_triggered (input : ApplyInputContext) (st : ApplyState) :
  inv_serviceDate (st_invoice st) = inv_serviceDate (in_invoice input) ->
  Forall (Triggered input) (st_corrections st) ->
  Forall (Triggered input) (st_corrections (serviceDateStep input st)).
Proof.
  intros Hdate Hst. unfold serviceDateStep, maybeApplyFieldFromMemory.
  set (mems := List.filter _ _).
  assert (Hnew : forall cand r a v,
             (inv_serviceDate (in_invoice input) = None
              \/ inv_serviceDate (in_invoice input) = Some Js.VNull) ->
             List.find (hasField "serviceDate") mems = Some cand ->
             metaProposedValue cand = Some v ->
             Forall (Triggered input)
               (registerCorrection (st_corrections st) "serviceDate" v r
                  (confidence (sm_content cand)) (Some cand) a)).
  { intros cand r a v Hnone Hc Hv. apply Triggered_snoc; [exact Hst|].
    split; [|repeat split; simpl; discriminate].
    intros _. split; [exact Hnone|]. exists cand.
    apply List.find_some in Hc. destruct Hc as [Hin Hf]. subst mems.
    apply List.filter_In in Hin. simpl. tauto. }
  rewrite Hdate.
  destruct (inv_serviceDate (in_invoice input)) as [[]|] eqn:Ecur; simpl; try exact Hst;
    (destruct (List.find (hasField "serviceDate") mems) as [cand|] eqn:Ecand;
     simpl; [|exact Hst];
     destruct (Js.geq (confidence (sm_content cand)) HIGH_CONFIDENCE_THRESHOLD);
     [destruct (metaProposedValue cand) as [v|] eqn:Ev; simpl; [|exact Hst];
      apply Hnew; auto|];
     destruct (Js.geq (confidence (sm_content cand)) MEDIUM_CONFIDENCE_THRESHOLD);
     [|exact Hst];
     destruct (metaProposedValue cand) as [v|] eqn:Ev; simpl; [|exact Hst];
     apply Hnew; auto).
Qed.

Lemma vatStep_triggered (input : ApplyInputContext) (st : ApplyState) :
  inv_totalAmount (st_invoice st) = inv_totalAmount (in_invoice input) ->
  Forall (Triggered input) (st_corrections st) ->
  Forall (Triggered input) (st_corrections (vatStep input st)).
Proof.
  intros Hgross Hst. unfold vatStep.
  destruct (detectVatIncluded (in_rawText input)) eqn:Evat; [|exact Hst].
  rewrite Hgross.
  destruct (Js.geq _ HIGH_CONFIDENCE_THRESHOLD);
    [|destruct (Js.geq _ MEDIUM_CONFIDENCE_THRESHOLD); [|exact Hst]];
    simpl; (apply Triggered_snoc; [exact Hst|]);
    (split; [simpl; discriminate|]); (split; [|repeat split; simpl; discriminate]);
    intros _; (split; [exact Evat|reflexivity]).
Qed.

Lemma currencyStep_triggered (input : ApplyInputContext) (st : ApplyState) :
  inv_currency (st_invoice st) = inv_currency (in_invoice input) ->
  Forall (Triggered input) (st_corrections st) ->
  Forall (Triggered input) (st_corrections (currencyStep input st)).
Proof.
  intros Hcur Hst. unfold currencyStep. rewrite Hcur.
  destruct (Js.truthy (inv_currency (in_invoice input))) eqn:Etruthy; [exact Hst|].
  cbn [negb].
  set (currencyMem := List.find _ _).
  assert (Hmem : currencyMem
                 = List.find (hasField "currency") (vendorMemories (in_recall input)))
    by reflexivity.
  clearbody currencyMem.
  destruct (match normalizeCurrencyFromText (in_rawText input) with
            | Some c => Some (Js.VStr c)
            | None => match currencyMem with
                      | Some m => metaProposedValue m
                      | None => None
                      end
            end) as [cur|] eqn:Ecand; [|exact Hst].
  destruct (Js.truthy cur) eqn:Ecur; [|exact Hst].
  assert (Hnew : forall r conf a,
             Forall (Triggered input)
               (registerCorrection (st_corrections st) "currency" cur r conf
                  currencyMem a)).
  { intros r conf a. apply Triggered_snoc; [exact Hst|].
    split; [simpl; discriminate|]. split; [simpl; discriminate|].
    split; [|simpl; discriminate].
    intros _. simpl. split; [exact Etruthy|]. split; [exact Ecur|].
    destruct (normalizeCurrencyFromText (in_rawText input)) as [code|].
    - congruence.
    - destruct currencyMem as [m|]; [|discriminate]. exists m.
      symmetry in Hmem. apply List.find_some in Hmem. tauto. }
  destruct (Js.geq _ HIGH_CONFIDENCE_THRESHOLD);
    [|destruct (Js.geq _ MEDIUM_CONFIDENCE_THRESHOLD); [|exact Hst]];
    simpl; apply Hnew.
Qed.

Lemma detectSkontoTerms_Some (rawText s : string) :
  detectSkontoTerms rawText = Some s ->
  Js.includes (Js.toLowerCase rawText) "skonto" = true.
Proof.
  unfold detectSkontoTerms, Js.includes.
  destruct (Js.indexOf (Js.toLowerCase rawText) "skonto"); [reflexivity|discriminate].
Qed.

Lemma skontoStep_triggered (input : ApplyInputContext) (st : ApplyState) :
  Forall (Triggered input) (st_corrections st) ->
  Forall (Triggered input) (st_corrections (skontoStep input st)).
Proof.
  intros Hst. unfold skontoStep.
  destruct (detectSkontoTerms (in_rawText input)) as [skonto|] eqn:Esk; [|exact Hst].
  destruct (Js.nonEmpty skonto); [|exact Hst].
  destruct (Js.geq _ HIGH_CONFIDENCE_THRESHOLD);
    [|destruct (Js.geq _ MEDIUM_CONFIDENCE_THRESHOLD); [|exact Hst]];
    simpl; (apply Triggered_snoc; [exact Hst|]);
    (split; [simpl; discriminate|]); (split; [simpl; discriminate|]);
    (split; [simpl; discriminate|]);
    intros _; (split; [eapply detectSkontoTerms_Some; exact Esk|rewrite Esk; reflexivity]).
Qed.

Lemma freightLoop_triggered (input : ApplyInputContext) (ls : list loc)
    (st : ApplyState) :
  Forall (Triggered input) (st_corrections st) ->
  Forall (Triggered input) (st_corrections (List.fold_left (freightStep input) ls st)).
Proof.
  revert st. induction ls as [|l ls IH]; intros st Hst; simpl; [exact Hst|].
  apply IH.
  destruct (freightStep_effect input st l)
    as [_ [(_ & -> & _)|(item & c & recs & _ & Hf & -> & _)]]; [exact Hst|].
  apply Triggered_snoc; [exact Hst|].
  pose proof (isScalarField_sku item) as Hsku. rewrite <- Hf in Hsku.
  unfold isScalarField in Hsku.
  split; [|split; [|split]]; intros E; rewrite E in Hsku; discriminate Hsku.
Qed.

(** X13.  Apply emits a correction of a top-level field only when the input
    calls for it.  [serviceDate]: the invoice has none and a recalled vendor
    memory for that field carries the proposed value.  [taxAmount]: the raw
    text has one of the VAT phrases, and the value is the tax share of the
    input's total at 19 percent, to two decimals.  [currency]: the invoice's
    currency is falsy and the proposed one is not; it is the code found in
    the text, and only without one the value of a recalled vendor memory.
    [paymentTermsNormalized]: the raw text mentions skonto, and the value is
    the detected terms. *)
Theorem corrections_need_trigger (heap : Heap) (input : ApplyInputContext) :
  Forall (Triggered input)
    (proposedCorrections (snd (applyMemoriesToContext heap input))).
Proof.
  unfold applyMemoriesToContext. simpl.
  set (st0 := mkState heap (in_invoice input) [] [] 0).
  set (st1 := serviceDateStep input st0).
  set (st2 := vatStep input st1).
  assert (K1 : SameKeyFields (in_invoice input) (st_invoice st1)).
  { apply (Framed_scalar heap (in_invoice input) input "serviceDate" st0 st1);
      [apply serviceDateStep_effect|apply Framed_initial]. }
  assert (C1 : readField "currency" (st_invoice st1) = readField "currency" (st_invoice st0)).
  { destruct (serviceDateStep_effect input st0)
      as [_ [(E & _)|(c & recs & _ & _ & _ & _ & _ & _ & _ & Hother & _)]].
    - fold st1 in E. rewrite E. reflexivity.
    - apply Hother. discriminate. }
  assert (C2 : readField "currency" (st_invoice st2) = readField "currency" (st_invoice st1)).
  { destruct (vatStep_effect input st1)
      as [_ [(E & _)|(c & recs & _ & _ & _ & _ & _ & _ & _ & Hother & _)]].
    - fold st2 in E. rewrite E. reflexivity.
    - apply Hother. discriminate. }
  apply skontoStep_triggered, freightLoop_triggered, currencyStep_triggered.
  - rewrite C1 in C2. unfold readField in C2. simpl in C2. congruence.
  - apply vatStep_triggered.
    + unfold SameKeyFields in K1. symmetry. tauto.
    + apply serviceDateStep_triggered; [reflexivity|constructor].
Qed.

(** ** Reading the raw text *)

Lemma isPercent_true (c : ascii) : isPercent c = true -> c = "%"%char.
Proof. apply Ascii.eqb_eq. Qed.

Lemma matchPercent_sound (s d : string) :
  matchPercent s = Some d ->
  IsPercentage d /\ exists pre post, s = pre +:+ d +:+ "%" +:+ post.
Proof.
  induction s as [|a s1 IH]; simpl; [discriminate|].
  assert (Hrec : matchPercent s1 = Some d ->
                 IsPercentage d
                 /\ exists pre post, String a s1 = pre +:+ d +:+ "%" +:+ post).
  { intros Hd. destruct (IH Hd) as [Hp (pre & post & ->)].
    split; [exact Hp|]. exists (String a pre), post. reflexivity. }
  destruct (isDigit a) eqn:Ea; [|exact Hrec].
  destruct s1 as [|b s2]; [discriminate|].
  destruct (isDigit b) eqn:Eb; cbn [andb].
  - destruct s2 as [|c s3].
    + destruct (isPercent b) eqn:Epb; [|exact Hrec].
      apply isPercent_true in Epb. subst b. discriminate Eb.
    + destruct (isPercent c) eqn:Epc.
      * apply isPercent_true in Epc. subst c. intros [= <-].
        split; [right; exists a, b; auto|]. exists "", s3. reflexivity.
      * destruct (isPercent b) eqn:Epb; [|exact Hrec].
        apply isPercent_true in Epb. subst b. discriminate Eb.
  - destruct (isPercent b) eqn:Epb; [|exact Hrec].
    apply isPercent_true in Epb. subst b. intros [= <-].
    split; [left; exists a; auto|]. exists "", s2. reflexivity.
Qed.

Lemma take_drop_string (n : nat) (s : string) :
  s = Js.takeString n s +:+ Js.dropString n s.
Proof.
  revert s. induction n as [|n IH]; intros [|c s]; try reflexivity.
  change (String c s = String c (Js.takeString n s +:+ Js.dropString n s)).
  f_equal. apply IH.
Qed.

Lemma append_assoc (a b c : string) : (a +:+ b) +:+ c = a +:+ (b +:+ c).
Proof.
  induction a as [|x a IH]; [reflexivity|].
  change (String x ((a +:+ b) +:+ c) = String x (a +:+ (b +:+ c))).
  f_equal. exact IH.
Qed.

Lemma slice_inside (s : string) (i j : nat) :
  exists before after, s = before +:+ Js.slice s i j +:+ after.
Proof.
  exists (Js.takeString i s), (Js.dropString (j - i) (Js.dropString i s)).
  unfold Js.slice. rewrite <- take_drop_string. apply take_drop_string.
Qed.

(** X14.  [detectSkontoTerms] finds nothing exactly when the lower-cased
    text does not contain "skonto".  What it finds is never the empty
    string: either the fixed phrase, or a percentage of one or two digits
    that stands in the lower-cased text right before a percent sign. *)
Theorem skonto_terms_from_text (rawText : string) :
  match detectSkontoTerms rawText with
  | None => Js.includes (Js.toLowerCase rawText) "skonto" = false
  | Some s =>
      Js.includes (Js.toLowerCase rawText) "skonto" = true
      /\ Js.nonEmpty s = true
      /\ (s = "Skonto terms detected"
          \/ exists d pre post,
               s = d +:+ "% skonto detected"
               /\ IsPercentage d
               /\ Js.toLowerCase rawText = pre +:+ d +:+ "%" +:+ post)
  end.
Proof.
  unfold detectSkontoTerms, Js.includes.
  destruct (Js.indexOf (Js.toLowerCase rawText) "skonto") as [i|]; [|reflexivity].
  destruct (matchPercent _) as [d|] eqn:Ed.
  - split; [reflexivity|].
    destruct (matchPercent_sound _ _ Ed) as [Hd (pre & post & Hw)].
    split; [destruct Hd as [(a & -> & _)|(a & b & -> & _)]; reflexivity|].
    right.
    destruct (slice_inside (Js.toLowerCase rawText) (i - 40) (i + 80))
      as (before & after & Hs).
    exists d, (before +:+ pre), (post +:+ after).
    split; [reflexivity|]. split; [exact Hd|].
    rewrite Hs at 1. rewrite Hw. rewrite !append_assoc. reflexivity.
  - split; [reflexivity|]. split; [reflexivity|]. left. reflexivity.
Qed.

(** ** Learn *)

Lemma dropString_append (a b : string) :
  Js.dropString (String.length a) (a +:+ b) = b.
Proof. induction a as [|c a IH]; simpl; [destruct b; reflexivity|exact IH]. Qed.

Lemma length_append (a b : string) :
  String.length (a +:+ b) = (String.length a + String.length b)%nat.
Proof. induction a as [|c a IH]; simpl; [reflexivity|rewrite IH; reflexivity]. Qed.

Lemma endsWith_append (a b : string) : Js.endsWith (a +:+ b) b = true.
Proof.
  unfold Js.endsWith. rewrite length_append.
  replace (String.length a + String.length b - String.length b)%nat
    with (String.length a) by lia.
  rewrite dropString_append, String.eqb_refl, andb_true_r.
  apply Nat.leb_le. lia.
Qed.

Lemma isSkuField_skuField (item : InvoiceLineItem) :
  isSkuField (Some (skuField item)) = true.
Proof.
  unfold isSkuField, skuField.
  assert (Hend : Js.endsWith ("lineItem:" +:+ li_id item +:+ ":sku") ":sku" = true).
  { replace ("lineItem:" +:+ li_id item +:+ ":sku")
      with (("lineItem:" +:+ li_id item) +:+ ":sku").
    - apply endsWith_append.
    - reflexivity || (simpl; reflexivity). }
  rewrite Hend. rewrite andb_true_r. unfold Js.startsWith. simpl.
  destruct (li_id item); reflexivity.
Qed.

Section LearnMore.
Context `{Platform}.

Lemma inferCategory_sku_field (item : InvoiceLineItem) (cat0 : LearnedMemoryCategory)
    (fld0 : option string) :
  inferCategory cat0 fld0 (Some (skuField item)) = (vendor, Some "freightSku").
Proof.
  unfold inferCategory. rewrite isSkuField_skuField.
  destruct (isVatField (Some (skuField item))); reflexivity.
Qed.

(** X15.  Learn understands the field names Apply gives to line-item SKUs:
    a signal for [lineItem:<id>:sku] whose memory id is not stored yet
    creates one vendor memory for [freightSku], at confidence 0.8 when
    approved and 0.5 when rejected, with usage count 1, that parses as
    learned content and carries the signalled value as
    [metadata.proposedValue] - the value the freight block of Apply reads.
    No identifier is drawn and no other row is touched. *)
Theorem learn_sku_memory (now : Z) (repository : list Memory) (uuids : nat)
    (signal : LearningSignal) (item : InvoiceLineItem) (memoryId : string)
    (approved : bool) (v : Js.Value) :
  d_memoryId (ev_details (event signal)) = Some memoryId ->
  memoryId <> "" ->
  d_approved (ev_details (event signal)) = Some approved ->
  d_field (ev_details (event signal)) = Some (skuField item) ->
  d_value (ev_details (event signal)) = Some v ->
  Repository.getMemoryById repository memoryId = None ->
  exists m c,
    learnFromSignal now repository uuids signal
    = ((repository ++ [m], uuids), Some m)
    /\ id m = memoryId
    /\ parseLearnedContent m = Some c
    /\ category c = vendor
    /\ field c = Some "freightSku"
    /\ confidence c = (if approved then 0.8 else 0.5)
    /\ usageCount c = 1
    /\ forall sc, hasField "freightSku" (mkScored m c sc) = true
                  /\ metaProposedValue (mkScored m c sc) = Some (jsonValue v).
Proof.
  intros Hid Hne Happ Hfield Hvalue Hget. apply nonEmpty_true in Hne.
  unfold learnFromSignal. rewrite Hid, Happ, Hne, Hget, Hfield, Hvalue. simpl.
  rewrite inferCategory_sku_field. simpl.
  rewrite saveMemory_fresh by exact Hget.
  eexists. eexists. split; [reflexivity|]. split; [reflexivity|].
  split; [reflexivity|]. simpl. split; [reflexivity|]. split; [reflexivity|].
  split; [reflexivity|]. split; [reflexivity|].
  intros sc. split; [reflexivity|].
  unfold metaProposedValue. simpl. apply lookup_insert_eq.
Qed.

(** What a call of [learnFromSignal] can do to the table: nothing, one
    upsert under the signalled id, or that and one more upsert of a
    resolution memory under a drawn identifier. *)
Lemma learnFromSignal_shape (now : Z) (repository : list Memory) (uuids : nat)
    (signal : LearningSignal) :
  learnFromSignal now repository uuids signal = ((repository, uuids), None)
  \/ exists m,
       d_memoryId (ev_details (event signal)) = Some (id m)
       /\ (learnFromSignal now repository uuids signal
           = ((Repository.saveMemory repository m, uuids), Some m)
           \/ exists r,
                id r = uuidv4 uuids
                /\ learnFromSignal now repository uuids signal
                   = ((Repository.saveMemory (Repository.saveMemory repository m) r,
                       S uuids), Some m)).
Proof.
  unfold learnFromSignal.
  destruct (d_memoryId (ev_details (event signal))) as [memoryId|]; [|left; reflexivity].
  destruct (d_approved (ev_details (event signal))) as [approved|]; [|left; reflexivity].
  destruct (Js.nonEmpty memoryId); simpl; [|left; reflexivity].
  destruct (Repository.getMemoryById repository memoryId) as [existing|] eqn:Hget.
  - destruct (getMemoryById_Some _ _ _ Hget) as [Hid _].
    destruct (inferCategory _ _ _) as [cat storedField].
    right. eexists (mkMemory (id existing) _ _ _ _ _). simpl.
    split; [rewrite Hid; reflexivity|].
    destruct (_ || _).
    + right. eexists (mkMemory (uuidv4 uuids) _ _ _ _ _). split; reflexivity.
    + left. reflexivity.
  - destruct (inferCategory _ _ _) as [cat storedField].
    right. eexists (mkMemory memoryId _ _ _ _ _). simpl.
    split; [reflexivity|]. left. reflexivity.
Qed.

Lemma getMemoryById_saveMemory_is_Some (rows : list Memory) (m : Memory) (j : string) :
  is_Some (Repository.getMemoryById rows j) ->
  is_Some (Repository.getMemoryById (Repository.saveMemory rows m) j).
Proof.
  intros Hj. destruct (String.eqb (id m) j) eqn:E.
  - apply String.eqb_eq in E. subst j. rewrite getMemoryById_saveMemory_eq. eauto.
  - apply String.eqb_neq in E. rewrite getMemoryById_saveMemory_ne by exact E. exact Hj.
Qed.

(** X16.  [learnFromSignal] returns no memory exactly when the signal has no
    memory id, an empty one, or no [approved] flag; it then leaves the table
    alone and draws no identifier. *)
Theorem learn_ignores_incomplete_signal (now : Z) (repository : list Memory)
    (uuids : nat) (signal : LearningSignal) :
  let incomplete :=
    d_memoryId (ev_details (event signal)) = None
    \/ d_memoryId (ev_details (event signal)) = Some ""
    \/ d_approved (ev_details (event signal)) = None in
  (snd (learnFromSignal now repository uuids signal) = None <-> incomplete)
  /\ (incomplete ->
      fst (learnFromSignal now repository uuids signal) = (repository, uuids)).
Proof.
  unfold learnFromSignal.
  destruct (d_memoryId (ev_details (event signal))) as [memoryId|];
    [|simpl; intuition congruence].
  destruct (d_approved (ev_details (event signal))) as [approved|];
    [|simpl; intuition congruence].
  destruct memoryId as [|ch rest]; simpl; [intuition congruence|].
  destruct (Repository.getMemoryById repository (String ch rest));
    destruct (inferCategory _ _ _) as [cat storedField];
    try destruct (_ || _); simpl; intuition congruence.
Qed.

(** X17.  A call of [learnFromSignal] writes under at most two ids, the
    signalled memory id and the next identifier of [uuidv4]: every other id
    reads as before.  No stored id is ever lost, distinct ids stay
    distinct, and at most one identifier is drawn. *)
Theorem learn_touches_two_ids (now : Z) (repository : list Memory) (uuids : nat)
    (signal : LearningSignal) :
  let after := fst (learnFromSignal now repository uuids signal) in
  (forall j, d_memoryId (ev_details (event signal)) <> Some j ->
             j <> uuidv4 uuids ->
             Repository.getMemoryById (fst after) j
             = Repository.getMemoryById repository j)
  /\ (forall j, is_Some (Repository.getMemoryById repository j) ->
                is_Some (Repository.getMemoryById (fst after) j))
  /\ (List.NoDup (List.map id repository) -> List.NoDup (List.map id (fst after)))
  /\ (snd after = uuids \/ snd after = S uuids).
Proof.
  destruct (learnFromSignal_shape now repository uuids signal)
    as [->|(m & Hid & [->|(r & Hr & ->)])]; simpl.
  - auto.
  - split; [intros j Hj _; apply getMemoryById_saveMemory_ne; congruence|].
    split; [intros j; apply getMemoryById_saveMemory_is_Some|].
    split; [apply saveMemory_NoDup|auto].
  - split.
    + intros j Hj Hu. rewrite !getMemoryById_saveMemory_ne by congruence. reflexivity.
    + split; [intros j Hj; do 2 apply getMemoryById_saveMemory_is_Some; exact Hj|].
      split; [intros Hnd; do 2 apply saveMemory_NoDup; exact Hnd|auto].
Qed.


End LearnMore.


(** An approved SKU correction for the freight line item, on the empty
    table. *)
Lemma learn_sku_memory_witness :
  exists m c,
    @learnFromSignal Scenario.platform 0 [] 0
      (mkSignal
         (mkEvent "ev-4" step_learn 0
            (mkDetails (Some "mem-sku") (Some true)
               (Some (skuField Scenario.freightItem)) (Some (Js.VStr "FREIGHT"))
               (Some "Freight & Co") (Some "FC-1001") None None None))
         None)
    = (([] ++ [m], 0%nat), Some m)
    /\ parseLearnedContent m = Some c
    /\ field c = Some "freightSku"
    /\ confidence c = 0.8.
Proof.
  assert (Hne : "mem-sku" <> "") by discriminate.
  destruct (@learn_sku_memory Scenario.platform 0 [] 0
              (mkSignal
                 (mkEvent "ev-4" step_learn 0
                    (mkDetails (Some "mem-sku") (Some true)
                       (Some (skuField Scenario.freightItem)) (Some (Js.VStr "FREIGHT"))
                       (Some "Freight & Co") (Some "FC-1001") None None None))
                 None)
              Scenario.freightItem "mem-sku" true (Js.VStr "FREIGHT")
              eq_refl Hne eq_refl eq_refl eq_refl eq_refl)
    as (m & c & Hl & _ & Hp & _ & Hf & Hc & _).
  exists m, c.
  split; [exact Hl|]. split; [exact Hp|]. split; [exact Hf|exact Hc].
Defined.

(** ** Decide *)

Lemma decideNextAction_score (ctx : ApplyContext) :
  confidenceScore (decideNextAction ctx)
  = Qmin (Qmax (aggregateConfidence ctx) 0) 1.
Proof.
  unfold decideNextAction.
  destruct (duplicateDetected (in_recall (ctx_input ctx))),
    (existsb isHighConfidenceApplied (appliedMemories ctx)),
    (length (List.filter isMediumSuggestion (proposedCorrections ctx)) =? 0)%nat;
    reflexivity.
Qed.

(** X19.  Every decision is explained and bounded: the reasoning is never
    empty, review is waived exactly when the reasoning is the one sentence
    that allows auto-correction, and the confidence score is the aggregate
    confidence clamped to [0, 1], [min(max(aggregateConfidence, 0), 1)]: it
    is the aggregate confidence itself when that lies in [0, 1]. *)
Theorem decision_explained (ctx : ApplyContext) :
  let d := decideNextAction ctx in
  reasoning d <> ""
  /\ (requiresHumanReview d = false <-> reasoning d = autoText)
  /\ confidenceScore d = Qmin (Qmax (aggregateConfidence ctx) 0) 1
  /\ 0 <= confidenceScore d /\ confidenceScore d <= 1
  /\ (0 <= aggregateConfidence ctx -> aggregateConfidence ctx <= 1 ->
      confidenceScore d == aggregateConfidence ctx).
Proof.
  cbv zeta. rewrite decideNextAction_score.
  split; [|split; [|split; [reflexivity|]]].
  - unfold decideNextAction.
    destruct (duplicateDetected (in_recall (ctx_input ctx))),
      (existsb isHighConfidenceApplied (appliedMemories ctx)),
      (length (List.filter isMediumSuggestion (proposedCorrections ctx)) =? 0)%nat;
      simpl; discriminate.
  - unfold decideNextAction.
    destruct (duplicateDetected (in_recall (ctx_input ctx))),
      (existsb isHighConfidenceApplied (appliedMemories ctx)),
      (length (List.filter isMediumSuggestion (proposedCorrections ctx)) =? 0)%nat;
      simpl; split; first [discriminate|reflexivity].
  - destruct (Q.max_spec (aggregateConfidence ctx) 0) as [[H1 E1]|[H1 E1]];
      destruct (Q.min_spec (Qmax (aggregateConfidence ctx) 0) 1) as [[H2 E2]|[H2 E2]];
      rewrite E2; rewrite ?E1 in *; (split; [lra|split; [lra|intros; lra]]).
Qed.

(** ** The orchestrator *)

Section OrchestratorMore.
Context `{Platform}.

Lemma all_applied_iff (heap : Heap) (input : ApplyInputContext) :
  let ctx := snd (applyMemoriesToContext heap input) in
  (existsb isHighConfidenceApplied (appliedMemories ctx)
   && (length (List.filter isMediumSuggestion (proposedCorrections ctx)) =? 0)%nat) = true
  <-> proposedCorrections ctx <> []
      /\ Forall (fun c => pc_applied c = true) (proposedCorrections ctx).
Proof.
  intros ctx. destruct (applyMemoriesToContext_Banded heap input) as [Hb He].
  fold ctx in Hb, He.
  rewrite andb_true_iff, He, no_medium_iff, existsb_exists.
  rewrite List.Forall_forall in Hb. split.
  - intros [(c & Hc & Ha) Hno]. split; [intros Hnil; rewrite Hnil in Hc; destruct Hc|].
    apply List.Forall_forall. intros c' Hc'.
    destruct (pc_applied c') eqn:Ea; [reflexivity|].
    exfalso. destruct (Hb c' Hc') as (Hlo & _ & Hhi).
    exact (Hno c' Hc' Ea (conj Hlo (Hhi Ea))).
  - intros [Hne Hall]. rewrite List.Forall_forall in Hall. split.
    + destruct (proposedCorrections ctx) as [|c cs]; [congruence|].
      exists c. split; [left; reflexivity|]. apply Hall. left. reflexivity.
    + intros c Hc Ha. rewrite (Hall c Hc) in Ha. discriminate.
Qed.

(** X20.  [processInvoiceWithMemory] waives review exactly when recall found
    no duplicate, Apply emitted at least one correction, and every emitted
    correction was applied: one correction that is only proposed is enough to
    ask for review.  When review is waived the confidence score is at least
    0.8. *)
Theorem auto_approval_means_all_applied (now : Z) (w : World)
    (invoice : NormalizedInvoice) (rawText : string)
    (humanFeedback : option HumanFeedbackInput) :
  let out := snd (processInvoiceWithMemory now w invoice rawText humanFeedback) in
  let recall :=
    recallMemories (w_repository w)
      (mkQuery (inv_vendorName invoice) (inv_invoiceNumber invoice)
         (Js.ValidDate (inv_issuedAt invoice)) (Some rawText) None) in
  (out_requiresHumanReview out = false
   <-> duplicateDetected recall = false
       /\ out_proposedCorrections out <> []
       /\ Forall (fun c => pc_applied c = true) (out_proposedCorrections out))
  /\ (out_requiresHumanReview out = false -> 0.8 <= out_confidenceScore out).
Proof.
  intros out recall. subst out. unfold processInvoiceWithMemory. fold recall.
  clearbody recall.
  pose proof (all_applied_iff (w_heap w) (mkInput invoice rawText recall)) as Hall.
  pose proof (applyMemoriesToContext_max (w_heap w) (mkInput invoice rawText recall))
    as Hmax.
  pose proof (applyMemoriesToContext_Banded (w_heap w) (mkInput invoice rawText recall))
    as [Hband _].
  assert (Hin : ctx_input (snd (applyMemoriesToContext (w_heap w)
                                  (mkInput invoice rawText recall)))
                = mkInput invoice rawText recall) by reflexivity.
  destruct (applyMemoriesToContext (w_heap w) (mkInput invoice rawText recall))
    as [heap ctx].
  cbn [snd fst] in Hall, Hmax, Hband, Hin.
  destruct (match humanFeedback with
            | Some fb => _
            | None => _
            end) as [[repository uuids] updates].
  cbn [snd fst out_requiresHumanReview out_proposedCorrections out_confidenceScore].
  rewrite decideNextAction_review, Hin. cbn [in_recall].
  set (dup := duplicateDetected recall) in *.
  set (high := existsb isHighConfidenceApplied (appliedMemories ctx)) in *.
  set (noMedium := (length (List.filter isMediumSuggestion (proposedCorrections ctx))
                    =? 0)%nat) in *.
  clearbody dup high noMedium.
  assert (Hiff : negb (negb dup && high && noMedium) || dup = false
                 <-> dup = false
                     /\ proposedCorrections ctx <> []
                     /\ Forall (fun c => pc_applied c = true) (proposedCorrections ctx)).
  { rewrite <- Hall. clear. destruct dup, high, noMedium; simpl; intuition congruence. }
  split; [exact Hiff|].
  intros Hfalse. apply Hiff in Hfalse. destruct Hfalse as (_ & Hne & Happ).
  rewrite decideNextAction_score.
  destruct Hmax as [[Hnil _]|(c & Hc & Hagg & _)]; [congruence|].
  rewrite List.Forall_forall in Hband, Happ.
  destruct (Hband c Hc) as (_ & Hhigh & _). specialize (Hhigh (Happ c Hc)).
  destruct (Q.max_spec (aggregateConfidence ctx) 0) as [[? E1]|[? E1]];
    destruct (Q.min_spec (Qmax (aggregateConfidence ctx) 0) 1) as [[? E2]|[? E2]];
    lra.
Qed.

Lemma feedbackLoop_skips (now : Z) (invoice : NormalizedInvoice)
    (recallResult : RecallSummary) (fb : HumanFeedbackInput)
    (cs : list ProposedCorrection) (acc : (list Memory * nat) * list MemoryUpdate) :
  (forall c, In c cs -> ~ In (pc_field c) (approvedCorrections fb)
                        /\ ~ In (pc_field c) (rejectedCorrections fb)) ->
  List.fold_left (feedbackStep now invoice recallResult fb) cs acc = acc.
Proof.
  revert acc. induction cs as [|c cs IH]; intros acc Hno; simpl; [reflexivity|].
  assert (Hstep : feedbackStep now invoice recallResult fb acc c = acc).
  { destruct acc as [[repository uuids] updates]. unfold feedbackStep.
    destruct (Hno c (or_introl eq_refl)) as [Ha Hr].
    rewrite <- includesField_In in Ha, Hr.
    apply not_true_is_false in Ha. apply not_true_is_false in Hr.
    rewrite Ha, Hr. reflexivity. }
  rewrite Hstep. apply IH. intros c' Hc'. apply Hno. right. exact Hc'.
Qed.

(** X21.  Without feedback, and with feedback that lists none of the
    proposed fields, a run learns nothing: the table and the count of drawn
    identifiers are as before and [memoryUpdates] is empty. *)
Theorem unlisted_feedback_learns_nothing (now : Z) (w : World)
    (invoice : NormalizedInvoice) (rawText : string)
    (humanFeedback : option HumanFeedbackInput) :
  let run := processInvoiceWithMemory now w invoice rawText humanFeedback in
  match humanFeedback with
  | None => True
  | Some fb =>
      forall c, In c (out_proposedCorrections (snd run)) ->
                ~ In (pc_field c) (approvedCorrections fb)
                /\ ~ In (pc_field c) (rejectedCorrections fb)
  end ->
  w_repository (fst run) = w_repository w
  /\ w_uuids (fst run) = w_uuids w
  /\ out_memoryUpdates (snd run) = [].
Proof.
  unfold processInvoiceWithMemory.
  destruct (applyMemoriesToContext _ _) as [heap ctx].
  destruct humanFeedback as [fb|]; cbn [fst snd]; [|auto].
  destruct (List.fold_left _ _ _) as [[repository uuids] updates] eqn:Eloop.
  cbn [out_proposedCorrections w_repository w_uuids out_memoryUpdates fst snd].
  intros Hno. rewrite feedbackLoop_skips in Eloop by exact Hno.
  injection Eloop as <- <- <-. auto.
Qed.

(** X22.  For a correction that names a stored memory and whose field is
    approved or rejected, one turn of the feedback loop appends one entry to
    [memoryUpdates] that reports the truth about the table: its memory id is
    the correction's, its previous confidence is the one stored before the
    turn, and its new confidence and usage count are the ones stored after
    it; the usage count has grown by one. *)
Theorem memory_update_reports_store (now : Z) (invoice : NormalizedInvoice)
    (recallResult : RecallSummary) (fb : HumanFeedbackInput)
    (repository : list Memory) (uuids : nat) (updates : list MemoryUpdate)
    (c : ProposedCorrection) (i : string) (existing : Memory) :
  pc_memoryId c = Some i ->
  i <> "" ->
  Repository.getMemoryById repository i = Some existing ->
  In (pc_field c) (approvedCorrections fb) \/ In (pc_field c) (rejectedCorrections fb) ->
  uuidv4 (S uuids) <> i ->
  exists repository' uuids' u stored,
    feedbackStep now invoice recallResult fb ((repository, uuids), updates) c
    = ((repository', uuids'), updates ++ [u])
    /\ mu_memoryId u = i
    /\ mu_previousConfidence u = storedConfidence existing
    /\ Repository.getMemoryById repository' i = Some stored
    /\ mu_newConfidence u = storedConfidence stored
    /\ mu_usageCount u = storedUsage stored
    /\ storedUsage stored = storedUsage existing + 1.
Proof.
  intros Hid Hne Hget Hlisted Hfresh.
  assert (Hany : negb (includesField (approvedCorrections fb) (pc_field c))
                 && negb (includesField (rejectedCorrections fb) (pc_field c)) = false).
  { rewrite <- !includesField_In in Hlisted.
    destruct Hlisted as [-> | ->]; [reflexivity|apply andb_false_r]. }
  unfold feedbackStep. rewrite Hany, Hid, Hget.
  match goal with
  | |- context [learnFromSignal ?n ?r ?k ?s] =>
      destruct (learn_existing_step n r k s i
                  (includesField (approvedCorrections fb) (pc_field c)) existing
                  eq_refl Hne eq_refl Hget Hfresh)
        as (updated & p & Hres & Hstored & Hidu & Hcontent & Hconf & Huse);
      destruct (learnFromSignal n r k s) as [[repository' uuids'] out]
  end.
  cbn [fst snd] in Hres, Hstored. subst out.
  assert (Hc' : forall d, readConfidence updated d
                          = updatedConfidence
                              (includesField (approvedCorrections fb) (pc_field c))
                              (storedConfidence existing)
                              (mkSignal
                                 (mkEvent (uuidv4 uuids) step_learn now
                                    (mkDetails (Some i)
                                       (Some (includesField (approvedCorrections fb)
                                                (pc_field c)))
                                       (Some (pc_field c)) (Some (pc_proposedValue c))
                                       (Some (inv_vendorName invoice))
                                       (Some (inv_invoiceNumber invoice))
                                       (Some (toISOString (inv_issuedAt invoice)))
                                       (Some (if includesField (approvedCorrections fb)
                                                   (pc_field c)
                                              then status_approved else status_rejected))
                                       (Some (duplicateDetected recallResult))))
                                 (Some (if includesField (approvedCorrections fb)
                                             (pc_field c) then 1 else -1)))).
  { intros d. unfold readConfidence. rewrite Hcontent, Hconf. reflexivity. }
  assert (Hu' : forall d, readUsage updated d = storedUsage existing + 1).
  { intros d. unfold readUsage. rewrite Hcontent, Huse. reflexivity. }
  eexists repository', uuids', _, updated.
  split; [reflexivity|]. cbn [mu_memoryId mu_previousConfidence mu_newConfidence mu_usageCount].
  split; [exact Hidu|]. split; [reflexivity|]. split; [exact Hstored|].
  unfold storedConfidence, storedUsage at 1 2. rewrite !Hc', !Hu'.
  repeat split.
Qed.

End OrchestratorMore.

(** The seeded VAT memory drives a correction of [taxAmount]; the feedback
    names two other fields. *)
Lemma unlisted_feedback_learns_nothing_witness :
  let run :=
    @processInvoiceWithMemory Scenario.platform 0 Scenario.seededWorld
      Scenario.partsInvoice Scenario.partsText
      (Some (mkFeedback ["currency"] ["serviceDate"])) in
  out_proposedCorrections (snd run) <> []
  /\ w_repository (fst run) = [Scenario.vatMemory]
  /\ w_uuids (fst run) = 0%nat
  /\ out_memoryUpdates (snd run) = [].
Proof.
  split; [vm_compute; discriminate|].
  apply (@unlisted_feedback_learns_nothing Scenario.platform 0 Scenario.seededWorld
           Scenario.partsInvoice Scenario.partsText
           (Some (mkFeedback ["currency"] ["serviceDate"]))).
  intros c Hc. vm_compute in Hc. destruct Hc as [<-|[]].
  split; intros [E|[]]; discriminate E.
Defined.

(** An approval of [taxAmount] against the seeded VAT memory. *)
Lemma memory_update_reports_store_witness :
  exists repository' uuids' u stored,
    @feedbackStep Scenario.platform 0 Scenario.partsInvoice
      (mkRecall [] [] [] false 0 None []) Scenario.approveTax
      (([Scenario.vatMemory], 0%nat), [])
      (vatProposal Scenario.partsInvoice 0.85 (Some "mem-vat") true)
    = ((repository', uuids'), [] ++ [u])
    /\ mu_memoryId u = "mem-vat"
    /\ Repository.getMemoryById repository' "mem-vat" = Some stored
    /\ mu_newConfidence u = storedConfidence stored.
Proof.
  assert (Hne : "mem-vat" <> "") by discriminate.
  assert (Hfresh : @uuidv4 Scenario.platform 1 <> "mem-vat") by (vm_compute; discriminate).
  destruct (@memory_update_reports_store Scenario.platform 0 Scenario.partsInvoice
              (mkRecall [] [] [] false 0 None []) Scenario.approveTax
              [Scenario.vatMemory] 0%nat []
              (vatProposal Scenario.partsInvoice 0.85 (Some "mem-vat") true)
              "mem-vat" Scenario.vatMemory eq_refl Hne eq_refl
              (or_introl (or_introl eq_refl)) Hfresh)
    as (repository' & uuids' & u & stored & Hstep & Hi & _ & Hget & Hc & _).
  exists repository', uuids', u, stored.
  split; [exact Hstep|]. split; [exact Hi|]. split; [exact Hget|exact Hc].
Defined.

(** ** The table across a run *)

Section StoreGrowth.
Context `{Platform}.

Lemma Grows_refl a : Grows a a.
Proof.
  split; [auto|]. split; [auto|]. split; [lia|].
  exists []. rewrite app_nil_r. simpl. split; [reflexivity|]. split; [lia|constructor].
Qed.

Lemma Grows_trans a b c : Grows a b -> Grows b c -> Grows a c.
Proof.
  intros (Hk1 & Hn1 & Hu1 & new1 & He1 & Hl1 & Hs1) (Hk2 & Hn2 & Hu2 & new2 & He2 & Hl2 & Hs2).
  split; [auto|]. split; [auto|]. split; [lia|].
  exists (new1 ++ new2). rewrite He2, He1, <- app_assoc. split; [reflexivity|].
  rewrite length_app. split; [lia|].
  apply Forall_app. split; [|exact Hs2].
  eapply List.Forall_impl; [|exact Hs1]. intros u. apply Hk2.
Qed.

Lemma saveMemory_length (rows : list Memory) (m : Memory) :
  (length (Repository.saveMemory rows m) <= S (length rows))%nat.
Proof.
  rewrite <- (length_map id (Repository.saveMemory rows m)), saveMemory_ids.
  destruct (Repository.getMemoryById rows (id m));
    rewrite ?length_app, !length_map; simpl; lia.
Qed.

Lemma feedbackStep_Grows (now : Z) (invoice : NormalizedInvoice)
    (recallResult : RecallSummary) (fb : HumanFeedbackInput)
    (acc : (list Memory * nat) * list MemoryUpdate) (c : ProposedCorrection) :
  Grows acc (feedbackStep now invoice recallResult fb acc c).
Proof.
  destruct acc as [[repository uuids] updates]. unfold feedbackStep.
  destruct (negb _ && negb _); [apply Grows_refl|].
  assert (Hlearn : forall k s0 prev usage action,
             (uuids <= k)%nat ->
             Grows ((repository, uuids), updates)
               (let '((repository', uuids'), updated) :=
                  learnFromSignal now repository k s0 in
                match updated with
                | Some u =>
                    ((repository', uuids'),
                     updates ++ [mkUpdate (id u) prev (readConfidence u prev)
                                   (readUsage u usage) action])
                | None => ((repository', uuids'), updates)
                end));
    [|destruct (pc_memoryId c) as [i|]; apply Hlearn; lia].
  intros k s0 prev usage action Hk.
  destruct (learnFromSignal_shape now repository k s0)
    as [->|(m & Hid & [->|(r & Hr & ->)])].
  - split; [auto|]. split; [auto|]. split; [exact Hk|].
    exists []. rewrite app_nil_r. simpl. split; [reflexivity|]. split; [lia|constructor].
  - split; [intros j; apply getMemoryById_saveMemory_is_Some|].
    split; [apply saveMemory_NoDup|]. split; [exact Hk|].
    eexists [_]. cbn [fst snd]. split; [reflexivity|].
    split; [pose proof (saveMemory_length repository m); simpl; lia|].
    constructor; [|constructor]. cbn [mu_memoryId].
    rewrite getMemoryById_saveMemory_eq. eauto.
  - split; [intros j Hj; do 2 apply getMemoryById_saveMemory_is_Some; exact Hj|].
    split; [intros Hnd; do 2 apply saveMemory_NoDup; exact Hnd|].
    cbn [fst snd]. split; [lia|].
    eexists [_]. split; [reflexivity|].
    split.
    + pose proof (saveMemory_length repository m).
      pose proof (saveMemory_length (Repository.saveMemory repository m) r).
      simpl. lia.
    + constructor; [|constructor]. cbn [mu_memoryId].
      apply getMemoryById_saveMemory_is_Some.
      rewrite getMemoryById_saveMemory_eq. eauto.
Qed.

Lemma feedbackLoop_Grows (now : Z) (invoice : NormalizedInvoice)
    (recallResult : RecallSummary) (fb : HumanFeedbackInput)
    (cs : list ProposedCorrection) (acc : (list Memory * nat) * list MemoryUpdate) :
  Grows acc (List.fold_left (feedbackStep now invoice recallResult fb) cs acc)
  /\ (length (snd (List.fold_left (feedbackStep now invoice recallResult fb) cs acc))
      <= length (snd acc) + length cs)%nat.
Proof.
  revert acc. induction cs as [|c cs IH]; intros acc; simpl.
  - split; [apply Grows_refl|lia].
  - destruct (IH (feedbackStep now invoice recallResult fb acc c)) as [Hg Hl].
    split; [eapply Grows_trans; [apply feedbackStep_Grows|exact Hg]|].
    assert (length (snd (feedbackStep now invoice recallResult fb acc c))
            <= S (length (snd acc)))%nat; [|lia].
    destruct acc as [[repository uuids] updates]. unfold feedbackStep.
    destruct (negb _ && negb _); [simpl; lia|].
    destruct (pc_memoryId c) as [i|];
      match goal with
      | |- context [learnFromSignal ?n ?r ?k ?s] =>
          destruct (learnFromSignal n r k s) as [[r' u'] [m|]]
      end; simpl; rewrite ?length_app; simpl; lia.
Qed.

(** X23.  A run never forgets: every id stored before
    [processInvoiceWithMemory] is stored after it, distinct ids stay
    distinct, and identifiers are only ever drawn.  There is at most one
    entry of [memoryUpdates] per proposed correction, each names a memory
    that is stored after the run, and the table grows by at most two rows
    per entry. *)
Theorem run_never_forgets (now : Z) (w : World) (invoice : NormalizedInvoice)
    (rawText : string) (humanFeedback : option HumanFeedbackInput) :
  let run := processInvoiceWithMemory now w invoice rawText humanFeedback in
  let before := w_repository w in
  let after := w_repository (fst run) in
  (forall j, is_Some (Repository.getMemoryById before j) ->
             is_Some (Repository.getMemoryById after j))
  /\ (List.NoDup (List.map id before) -> List.NoDup (List.map id after))
  /\ (w_uuids w <= w_uuids (fst run))%nat
  /\ (length (out_memoryUpdates (snd run))
      <= length (out_proposedCorrections (snd run)))%nat
  /\ (length after <= length before + 2 * length (out_memoryUpdates (snd run)))%nat
  /\ Forall (fun u => is_Some (Repository.getMemoryById after (mu_memoryId u)))
       (out_memoryUpdates (snd run)).
Proof.
  unfold processInvoiceWithMemory.
  destruct (applyMemoriesToContext _ _) as [heap ctx].
  assert (Hloop :
    forall acc,
      (let '((repository, uuids), memoryUpdates) := acc in
       Grows ((w_repository w, w_uuids w), []) acc
       /\ (length (snd acc) <= length (proposedCorrections ctx))%nat) ->
      let '((repository, uuids), memoryUpdates) := acc in
      (forall j, is_Some (Repository.getMemoryById (w_repository w) j) ->
                 is_Some (Repository.getMemoryById repository j))
      /\ (List.NoDup (List.map id (w_repository w)) -> List.NoDup (List.map id repository))
      /\ (w_uuids w <= uuids)%nat
      /\ (length memoryUpdates <= length (proposedCorrections ctx))%nat
      /\ (length repository <= length (w_repository w) + 2 * length memoryUpdates)%nat
      /\ Forall (fun u => is_Some (Repository.getMemoryById repository (mu_memoryId u)))
           memoryUpdates).
  { intros [[repository uuids] updates] [(Hk & Hn & Hu & new & He & Hl & Hs) Hlen].
    cbn [fst snd] in *. subst updates. simpl. auto 10. }
  destruct humanFeedback as [fb|].
  - specialize (Hloop (List.fold_left
                         (feedbackStep now invoice
                            (recallMemories (w_repository w)
                               (mkQuery (inv_vendorName invoice) (inv_invoiceNumber invoice)
                                  (Js.ValidDate (inv_issuedAt invoice)) (Some rawText) None))
                            fb)
                         (proposedCorrections ctx) ((w_repository w, w_uuids w), []))).
    destruct (List.fold_left _ _ _) as [[repository uuids] updates] eqn:Eloop.
    cbn [fst snd w_repository w_uuids out_memoryUpdates out_proposedCorrections].
    apply Hloop. rewrite <- Eloop. apply feedbackLoop_Grows.
  - cbn [fst snd w_repository w_uuids out_memoryUpdates out_proposedCorrections].
    apply (Hloop ((w_repository w, w_uuids w), [])).
    split; [apply Grows_refl|simpl; lia].
Qed.

End StoreGrowth.

(** ** The policies of the demo runner *)

(** X24.  The first-encounter policy records the vendor/pattern key and
    keeps every key it had.  On an unseen key the returned result requires
    review; on a seen key, and whenever the result required review already,
    the result comes back as it is.  The policy never waives a review and
    never touches the invoice, the corrections, the score, the memory
    updates or the audit trail. *)
Theorem first_encounter_policy (vendorName patternKey : string)
    (result : EngineOutputContract) (seen : gset string) :
  let key := Demo.seenKey vendorName patternKey in
  let out := Demo.enforceFirstEncounterReviewForDemo vendorName patternKey result seen in
  fst out = {[key]} ∪ seen
  /\ (key ∉ seen -> out_requiresHumanReview (snd out) = true)
  /\ (key ∈ seen \/ out_requiresHumanReview result = true -> snd out = result)
  /\ (out_requiresHumanReview result = true -> out_requiresHumanReview (snd out) = true)
  /\ out_normalizedInvoice (snd out) = out_normalizedInvoice result
  /\ out_proposedCorrections (snd out) = out_proposedCorrections result
  /\ out_confidenceScore (snd out) = out_confidenceScore result
  /\ out_memoryUpdates (snd out) = out_memoryUpdates result
  /\ out_auditTrail (snd out) = out_auditTrail result.
Proof.
  unfold Demo.enforceFirstEncounterReviewForDemo. cbv zeta.
  destruct (decide (Demo.seenKey vendorName patternKey ∈ seen)) as [Hin|Hout].
  - cbn [fst snd]. split; [symmetry; apply subseteq_union_1_L; set_solver|].
    split; [tauto|]. repeat split; auto.
  - destruct (out_requiresHumanReview result) eqn:Er; cbn [fst snd negb].
    + rewrite Er. repeat split; auto.
    + repeat split; auto. intros [Hin|Hr]; [exact (False_ind _ (Hout Hin))|discriminate].
Qed.

(** X25.  The second-run policy changes a result only to waive review, and
    only for a key that has been seen and a confidence score of at least
    0.8.  Run after the first-encounter policy on the same key, it depends on
    the score alone: at 0.8 and above the review is waived, below the result
    is unchanged.  The score and the corrections are never touched. *)
Theorem second_run_policy (vendorName patternKey : string)
    (first result : EngineOutputContract) (seen : gset string) :
  let key := Demo.seenKey vendorName patternKey in
  let out := Demo.enforceFreightSecondRunAutoDecision vendorName patternKey result seen in
  let seen' := fst (Demo.enforceFirstEncounterReviewForDemo vendorName patternKey first seen) in
  let out' := Demo.enforceFreightSecondRunAutoDecision vendorName patternKey result seen' in
  (key ∉ seen \/ out_confidenceScore result < 0.8 -> out = result)
  /\ (key ∈ seen -> 0.8 <= out_confidenceScore result ->
      out_requiresHumanReview out = false)
  /\ (0.8 <= out_confidenceScore result -> out_requiresHumanReview out' = false)
  /\ (out_confidenceScore result < 0.8 -> out' = result)
  /\ out_confidenceScore out = out_confidenceScore result
  /\ out_proposedCorrections out = out_proposedCorrections result
  /\ out_normalizedInvoice out = out_normalizedInvoice result.
Proof.
  cbv zeta.
  assert (Hseen' : Demo.seenKey vendorName patternKey
                   ∈ fst (Demo.enforceFirstEncounterReviewForDemo vendorName patternKey
                            first seen)).
  { unfold Demo.enforceFirstEncounterReviewForDemo.
    destruct (decide (_ ∈ seen)); [exact e|].
    destruct (negb _); cbn [fst]; set_solver. }
  unfold Demo.enforceFreightSecondRunAutoDecision.
  rewrite (bool_decide_eq_true_2 _ Hseen'). cbn [negb andb].
  unfold Demo.DEMO_HIGH_CONFIDENCE_THRESHOLD.
  destruct (Js.geq (out_confidenceScore result) 0.8) eqn:Eg.
  - apply geq_true in Eg.
    destruct (bool_decide (Demo.seenKey vendorName patternKey ∈ seen)) eqn:Es;
      cbn [negb andb].
    + apply bool_decide_eq_true_1 in Es.
      split; [intros [Hn|Hlt]; [exact (False_ind _ (Hn Es))|lra]|].
      repeat split; auto. intros Hlt. lra.
    + apply bool_decide_eq_false_1 in Es.
      split; [reflexivity|]. split; [intros Hin; exact (False_ind _ (Es Hin))|].
      repeat split; auto. intros Hlt. lra.
  - apply geq_false in Eg. rewrite andb_false_r.
    split; [reflexivity|]. split; [intros _ Hge; lra|].
    split; [intros Hge; lra|]. repeat split; auto.
Qed.

Lemma KnownField_not_gross (heap : Heap) (invoice : NormalizedInvoice)
    (c : ProposedCorrection) :
  KnownField heap invoice c -> pc_field c <> "grossAmount".
Proof.
  intros [Hs|(l & item & _ & _ & Hf)] E; rewrite E in *; [discriminate Hs|].
  unfold skuField in Hf. discriminate Hf.
Qed.

Section DemoFeedback.
Context `{Platform}.

(** X26.  The approved fields the demo runner hands to the pipeline are
    fields of proposed corrections that a human correction maps to.
    [grossAmount] is never among them, because Apply never proposes it: a
    human correction of [grossTotal] is dropped and teaches nothing, whatever
    else is corrected. *)
Theorem gross_total_correction_is_dropped (now : Z) (w : World)
    (invoice : NormalizedInvoice) (rawText : string)
    (humanFeedback : option HumanFeedbackInput) (humanFields : list string) :
  let result := snd (processInvoiceWithMemory now w invoice rawText humanFeedback) in
  (forall f, In f (Demo.approvedCorrectionFields humanFields result) ->
             (exists c, In c (out_proposedCorrections result) /\ pc_field c = f)
             /\ exists h, In h humanFields /\ Demo.mapHumanFieldToEngineField h = f)
  /\ ~ In "grossAmount" (Demo.approvedCorrectionFields humanFields result)
  /\ Demo.approvedCorrectionFields ("grossTotal" :: humanFields) result
     = Demo.approvedCorrectionFields humanFields result.
Proof.
  cbv zeta.
  set (result := snd (processInvoiceWithMemory now w invoice rawText humanFeedback)).
  assert (Hnever : includesField (List.map pc_field (out_proposedCorrections result))
                     "grossAmount" = false).
  { apply not_true_is_false. rewrite includesField_In. intros Hin.
    apply List.in_map_iff in Hin. destruct Hin as (c & Hf & Hc).
    subst result. unfold processInvoiceWithMemory in Hc.
    match type of Hc with
    | context [applyMemoriesToContext ?h ?i] =>
        pose proof (applyMemoriesToContext_fields h i) as Hknown;
        destruct (applyMemoriesToContext h i) as [heap ctx]
    end.
    destruct humanFeedback as [fb|];
      [destruct (List.fold_left _ _ _) as [[repository uuids] updates]|];
      cbn [snd out_proposedCorrections in_invoice] in Hc, Hknown;
      rewrite List.Forall_forall in Hknown;
      exact (KnownField_not_gross _ _ _ (Hknown c Hc) Hf). }
  assert (Hin : forall f, In f (Demo.approvedCorrectionFields humanFields result) ->
                In f (List.map pc_field (out_proposedCorrections result))
                /\ In f (List.map Demo.mapHumanFieldToEngineField humanFields)).
  { intros f Hf. unfold Demo.approvedCorrectionFields in Hf.
    apply List.filter_In in Hf. rewrite includesField_In in Hf. tauto. }
  split; [|split].
  - intros f Hf. destruct (Hin f Hf) as [Hc Hh].
    apply List.in_map_iff in Hc. apply List.in_map_iff in Hh.
    destruct Hc as (c & Hc1 & Hc2), Hh as (h & Hh1 & Hh2).
    split; [exists c|exists h]; auto.
  - intros Hg. destruct (Hin _ Hg) as [Hc _].
    rewrite <- includesField_In, Hnever in Hc. discriminate Hc.
  - unfold Demo.approvedCorrectionFields. simpl.
    unfold Demo.mapHumanFieldToEngineField at 1. simpl.
    rewrite Hnever. reflexivity.
Qed.

End DemoFeedback.
